(** * Komodo server stat chart: series transformation and axis scaling

    Shallow embedding of
    [frontend/src/components/resources/server/stat-chart.tsx]
    (the [seriesData] memo of [StatChart] and what it logs, the time axis,
    the unit and axis computation, the formatters and the drawing options
    of [InnerStatChart], [getStat] and [getColor]), with JavaScript numbers
    modelled as IEEE 754 binary64 values. *)

From Stdlib Require Import ZArith List String Bool Lia.
From Stdlib Require Import Floats.SpecFloat.
Import ListNotations.

Local Open Scope Z_scope.

(** ** JavaScript numbers

    A JavaScript [number] is an IEEE 754 binary64 value.  The operations are
    those of the executable specification [SpecFloat] at precision 53 and
    maximal exponent 1024 (round to nearest, ties to even). *)

Module Num.

Definition prec : Z := 53.
Definition emax : Z := 1024.

Definition number : Type := spec_float.

Definition nan : number := S754_nan.
Definition pos_infinity : number := S754_infinity false.
Definition neg_infinity : number := S754_infinity true.

(** An integer literal. *)
Definition of_Z (z : Z) : number := binary_normalize prec emax z 0 false.

Definition zero : number := Eval cbv in of_Z 0.
Definition one : number := Eval cbv in of_Z 1.

(** Every binary64 value is a canonical, bounded representation. *)
Definition valid (x : number) : bool := valid_binary prec emax x.

Definition is_nan (x : number) : bool :=
  match x with S754_nan => true | _ => false end.

(** Finite in the sense of [Number.isFinite]: neither NaN nor an infinity. *)
Definition is_finite (x : number) : bool :=
  match x with
  | S754_zero _ | S754_finite _ _ _ => true
  | S754_infinity _ | S754_nan => false
  end.

(** The sign bit; [false] for NaN. *)
Definition sign (x : number) : bool :=
  match x with
  | S754_zero s | S754_infinity s | S754_finite s _ _ => s
  | S754_nan => false
  end.

Definition add (x y : number) : number := SFadd prec emax x y.
Definition sub (x y : number) : number := SFsub prec emax x y.
Definition mul (x y : number) : number := SFmul prec emax x y.
Definition div (x y : number) : number := SFdiv prec emax x y.

(** [x < y], [x <= y], [x >= y], [x > y] and [x === y]; each is [false] as
    soon as one operand is NaN. *)
Definition ltb (x y : number) : bool := SFltb x y.
Definition leb (x y : number) : bool := SFleb x y.
Definition geb (x y : number) : bool := SFleb y x.
Definition gtb (x y : number) : bool := SFltb y x.
Definition eqb (x y : number) : bool := SFeqb x y.

(** Truthiness of a number: [0], [-0] and [NaN] are falsy. *)
Definition truthy (x : number) : bool :=
  match x with
  | S754_zero _ | S754_nan => false
  | _ => true
  end.

(** [a || b] on an optional number. *)
Definition or_else (a : option number) (b : number) : number :=
  match a with
  | Some x => if truthy x then x else b
  | None => b
  end.

(** [a ?? b] on an optional number. *)
Definition nullish (a : option number) (b : number) : number :=
  match a with
  | Some x => x
  | None => b
  end.

(** One step of the loop of [Math.max]: [highest] is the running maximum,
    NaN is absorbing and [+0] is larger than [-0]. *)
Definition max_step (highest y : number) : number :=
  match highest, y with
  | S754_nan, _ | _, S754_nan => S754_nan
  | S754_zero true, S754_zero false => S754_zero false
  | _, _ => if ltb highest y then y else highest
  end.

(** [Math.max(...values)]: the running maximum starts at [-Infinity]. *)
Definition max_list (values : list number) : number :=
  fold_left max_step values neg_infinity.

(** [Math.max(x, y)]. *)
Definition max (x y : number) : number := max_list [x; y].

End Num.

Import Num.

(** ** Data model *)

(** [type StatType]. *)
Inductive StatType : Type :=
  | Cpu
  | Memory
  | Disk
  | NetworkIngress
  | NetworkEgress
  | LoadAverage.

(** The string a [StatType] value is. *)
Definition StatType_string (type : StatType) : string :=
  match type with
  | Cpu => "Cpu"
  | Memory => "Memory"
  | Disk => "Disk"
  | NetworkIngress => "Network Ingress"
  | NetworkEgress => "Network Egress"
  | LoadAverage => "Load Average"
  end.

(** Modelled from the spec: the declaration of [Types.SystemLoadAverage]
    (package [komodo_client]) is not part of the sources; the spec gives the
    optional record [{ one, five, fifteen }] of floats. *)
Record SystemLoadAverage : Type := {
  one : number;
  five : number;
  fifteen : number
}.

(** Modelled from the spec: the declaration of [Types.SystemStatsRecord]
    (package [komodo_client]) is not part of the sources.  The fields are
    those the chart reads; the ones the spec calls possibly absent (and the
    code reads through [||], [??] or [?.]) are optional. *)
Record SystemStatsRecord : Type := {
  ts : number;
  cpu_perc : option number;
  mem_used_gb : number;
  mem_total_gb : number;
  disk_used_gb : number;
  disk_total_gb : number;
  network_ingress_bytes : option number;
  network_egress_bytes : option number;
  load_average : option SystemLoadAverage
}.

(** [type StatDatapoint]. *)
Record StatDatapoint : Type := {
  date : number;
  value : number
}.

(** An element of the array [seriesData]. *)
Record Series : Type := {
  label : string;
  data : list StatDatapoint
}.

(** The outcome of evaluating an expression that may throw. *)
Inductive completion (A : Type) : Type :=
  | Normal (a : A)
  | TypeError.

Arguments Normal {A} a.
Arguments TypeError {A}.

Definition bind {A B : Type} (c : completion A) (k : A -> completion B)
  : completion B :=
  match c with
  | Normal a => k a
  | TypeError => TypeError
  end.

Notation "x <- c ;; k" := (bind c (fun x => k))
  (at level 61, c at next level, right associativity).

(** [array.map((x, idx) => f(x, idx))] for a callback that may throw. *)
Fixpoint map_idx_from {A B : Type} (f : A -> nat -> completion B)
    (l : list A) (idx : nat) : completion (list B) :=
  match l with
  | [] => Normal []
  | x :: rest =>
      y <- f x idx ;;
      ys <- map_idx_from f rest (S idx) ;;
      Normal (y :: ys)
  end.

Definition map_idx {A B : Type} (f : A -> nat -> completion B) (l : list A)
  : completion (list B) :=
  map_idx_from f l 0%nat.

(** ** The program *)

Definition BYTES_PER_MB : number := Eval cbv in of_Z 1048576.
Definition BYTES_PER_KB : number := Eval cbv in of_Z 1024.

(** The literals [100], [1000] and [1.2]. *)
Definition num_100 : number := Eval cbv in of_Z 100.
Definition num_1000 : number := Eval cbv in of_Z 1000.
Definition num_1_2 : number := S754_finite false 5404319552844595 (-52).

(** [getStat]. *)
Definition getStat (stat : SystemStatsRecord) (type : StatType) : number :=
  match type with
  | Cpu => or_else (cpu_perc stat) zero
  | Memory => div (mul num_100 (mem_used_gb stat)) (mem_total_gb stat)
  | Disk => div (mul num_100 (disk_used_gb stat)) (disk_total_gb stat)
  | NetworkIngress => or_else (network_ingress_bytes stat) zero
  | NetworkEgress => or_else (network_egress_bytes stat) zero
  | LoadAverage => zero
  end.

Section StatChart.

(** [convertTsMsToLocalUnixTsInMs] of [@lib/utils] is not part of the
    sources: it is a parameter of the development. *)
Variable convertTsMsToLocalUnixTsInMs : number -> number.

(** [s.load_average?.one ?? 0] and its two siblings. *)
Definition load_value (proj : SystemLoadAverage -> number)
    (s : SystemStatsRecord) : number :=
  nullish (option_map proj (load_average s)) zero.

Definition load_series (proj : SystemLoadAverage -> number)
    (records : list SystemStatsRecord) : list StatDatapoint :=
  map (fun s => {| date := convertTsMsToLocalUnixTsInMs (ts s);
                   value := load_value proj s |}) records.

(** [getBytes] of the network branch; [type] is one of the two network
    kinds there. *)
Definition getBytes (type : StatType) (s : SystemStatsRecord) : number :=
  match type with
  | NetworkIngress => nullish (network_ingress_bytes s) zero
  | _ => nullish (network_egress_bytes s) zero
  end.

Definition deltaBytes (type : StatType) (s prev : SystemStatsRecord)
  : number :=
  Num.max zero (sub (getBytes type s) (getBytes type prev)).

Definition deltaSeconds (s prev : SystemStatsRecord) : number :=
  Num.max Num.one (div (sub (ts s) (ts prev)) num_1000).

(** The callback of [records.map((s, idx) => ...)] of the network branch.
    [records[idx - 1]] is [undefined] out of range, and reading a property
    of [undefined] throws. *)
Definition rate_point (type : StatType) (records : list SystemStatsRecord)
    (s : SystemStatsRecord) (idx : nat) : completion StatDatapoint :=
  let date := convertTsMsToLocalUnixTsInMs (ts s) in
  if Nat.eqb idx 0 then Normal {| date := date; value := zero |}
  else
    match nth_error records (idx - 1) with
    | None => TypeError
    | Some prev =>
        let bytesPerSec := div (deltaBytes type s prev) (deltaSeconds s prev) in
        Normal {| date := date; value := bytesPerSec |}
    end.

(** The array [rate].  The [try] block after it only reads [rate] for
    [console.debug] and swallows what it throws: it does not change [rate];
    what it logs is [Debug.payload] below. *)
Definition rate (type : StatType) (records : list SystemStatsRecord)
  : completion (list StatDatapoint) :=
  map_idx (rate_point type records) records.

(** The memo [seriesData] of [StatChart].  The argument [stats] is
    [data?.stats]: [None] when it is [undefined].  An empty array is truthy,
    so only [None] takes the early return. *)
Definition seriesData (stats : option (list SystemStatsRecord))
    (type : StatType) : completion (list Series) :=
  match stats with
  | None => Normal []
  | Some stats =>
      let records := rev stats in
      match type with
      | LoadAverage =>
          Normal [ {| label := "1m"; data := load_series one records |};
                   {| label := "5m"; data := load_series five records |};
                   {| label := "15m"; data := load_series fifteen records |} ]
      | NetworkIngress | NetworkEgress =>
          rate <- rate type records ;;
          Normal [ {| label := StatType_string type; data := rate |} ]
      | _ =>
          let single :=
            map (fun stat => {| date := convertTsMsToLocalUnixTsInMs (ts stat);
                                value := getStat stat type |}) records in
          Normal [ {| label := StatType_string type; data := single |} ]
      end
  end.

End StatChart.

(** *** [InnerStatChart] *)

Inductive Unit_ : Type :=
  | MB_per_s
  | KB_per_s
  | B_per_s
  | NoUnit.

Definition Unit_string (u : Unit_) : string :=
  match u with
  | MB_per_s => "MB/s"
  | KB_per_s => "KB/s"
  | B_per_s => "B/s"
  | NoUnit => EmptyString
  end.

(** The object the second memo of [InnerStatChart] returns. *)
Record AxisUnit : Type := {
  unit : Unit_;
  unitDivisor : number;
  maxUnitValue : number
}.

(** [allValues]; [seriesData] is [None] when the property is not passed, and
    [stats] likewise. *)
Definition allValues (stats : option (list StatDatapoint))
    (seriesData : option (list Series)) : list number :=
  match seriesData with
  | Some series => flat_map (fun s => map value (data s)) series
  | None => map value (match stats with Some l => l | None => [] end)
  end.

(** [maxStatValue]. *)
Definition maxStatValue (allValues : list number) : number :=
  max_list (match allValues with [] => [zero] | _ => allValues end).

(** The inner function [choose]. *)
Definition choose (maxStatValue : number) : Unit_ * number :=
  if geb maxStatValue BYTES_PER_MB then (MB_per_s, BYTES_PER_MB)
  else if geb maxStatValue BYTES_PER_KB then (KB_per_s, BYTES_PER_KB)
  else (B_per_s, Num.one).

(** [maxStatValue === 0 ? 1 : maxStatValue * 1.2]. *)
Definition headroom (maxStatValue : number) : number :=
  if eqb maxStatValue zero then Num.one else mul maxStatValue num_1_2.

(** The memo computing [{ unit, unitDivisor, maxUnitValue }]. *)
Definition axisUnit (type : StatType) (maxStatValue : number) : AxisUnit :=
  match type with
  | NetworkIngress | NetworkEgress =>
      let chosen := choose maxStatValue in
      {| unit := fst chosen;
         unitDivisor := snd chosen;
         maxUnitValue := div (headroom maxStatValue) (snd chosen) |}
  | LoadAverage =>
      {| unit := NoUnit; unitDivisor := Num.one;
         maxUnitValue := headroom maxStatValue |}
  | _ =>
      {| unit := NoUnit; unitDivisor := Num.one; maxUnitValue := num_100 |}
  end.

(** [getValue] of the value axis. *)
Definition getValue (type : StatType) (unitDivisor : number)
    (datum : StatDatapoint) : number :=
  match type with
  | NetworkIngress | NetworkEgress => div (value datum) unitDivisor
  | _ => value datum
  end.

(** What [InnerStatChart] hands to the chart: the unit, the bounds of the
    value axis and the plotted value of every point of every series. *)
Record ChartOptions : Type := {
  axis : AxisUnit;
  axisMin : number;
  plotted : list (string * list number)
}.

Definition InnerStatChart (type : StatType)
    (stats : option (list StatDatapoint))
    (seriesData : option (list Series)) : ChartOptions :=
  let ax := axisUnit type (maxStatValue (allValues stats seriesData)) in
  let shown :=
    match seriesData with
    | Some series => series
    | None =>
        [ {| label := StatType_string type;
             data := match stats with Some l => l | None => [] end |} ]
    end in
  {| axis := ax;
     axisMin := zero;
     plotted := map (fun s => (label s,
                               map (getValue type (unitDivisor ax)) (data s)))
                    shown |}.

(** *** [StatChart] *)

Inductive Rendered : Type :=
  | Loader
  | Chart (options : ChartOptions)
  | Nothing.

Section Render.

Variable convertTsMsToLocalUnixTsInMs : number -> number.

(** The body of [StatChart] below the heading: the loader while the request
    is pending, the chart when [seriesData] has at least one series, nothing
    otherwise. *)
Definition StatChart (isPending : bool)
    (stats : option (list SystemStatsRecord)) (type : StatType)
  : completion Rendered :=
  series <- seriesData convertTsMsToLocalUnixTsInMs stats type ;;
  if isPending then Normal Loader
  else if (0 <? List.length series)%nat then
    Normal (Chart (InnerStatChart type
                     (Some (flat_map data series)) (Some series)))
  else Normal Nothing.

End Render.

(** *** The time axis of [InnerStatChart] *)

(** The literal [0.02]. *)
Definition num_0_02 : number := S754_finite false 5764607523034235 (-58).

(** A [Date] object is kept as the call [new Date(argument)] that builds it:
    the class belongs to the runtime. *)
Record Date : Type := new_Date {
  argument : number
}.

(** What the memo [timeAxis] sets of [AxisOptions<StatDatapoint>], the
    formatters apart. *)
Record TimeAxisOptions : Type := {
  hardMax : Date;
  hardMin : Date;
  tickCount : Z
}.

Module TimeAxis.

(** [const min = stats?.[0]?.date ?? 0]. *)
Definition min (stats : option (list StatDatapoint)) : number :=
  nullish (option_map date
             match stats with
             | Some l => nth_error l 0
             | None => None
             end)
          zero.

(** [const max = stats?.[stats.length - 1]?.date ?? 0]; on an empty array
    the index is [-1], where an array holds nothing. *)
Definition max (stats : option (list StatDatapoint)) : number :=
  nullish (option_map date
             match stats with
             | Some l => if (List.length l =? 0)%nat then None
                         else nth_error l (List.length l - 1)
             | None => None
             end)
          zero.

(** [const diff = max - min]. *)
Definition diff (stats : option (list StatDatapoint)) : number :=
  sub (max stats) (min stats).

(** [getValue] of the time axis. *)
Definition getValue (datum : StatDatapoint) : Date :=
  new_Date (date datum).

(** The memo [timeAxis].  It has no dependency: [stats] is the property of
    the render that mounts the component. *)
Definition timeAxis (stats : option (list StatDatapoint)) : TimeAxisOptions :=
  {| hardMax := new_Date (add (max stats) (mul (diff stats) num_0_02));
     hardMin := new_Date (sub (min stats) (mul (diff stats) num_0_02));
     tickCount := 6 |}.

End TimeAxis.

(** *** The drawing options of [InnerStatChart] *)

(** [elementType] of the value axis. *)
Inductive ElementType : Type :=
  | line
  | area.

Definition elementType (type : StatType) : ElementType :=
  match type with
  | LoadAverage => line
  | _ => area
  end.

(** [stacked] of the value axis: [type !== "Load Average"]. *)
Definition stacked (type : StatType) : bool :=
  match type with
  | LoadAverage => false
  | _ => true
  end.

Section Colors.

(** [hex_color_by_intention] of [@lib/color] is not part of the sources: it
    is a parameter of the development. *)
Variable hex_color_by_intention : string -> string.

(** [getColor]. *)
Definition getColor (type : StatType) : string :=
  match type with
  | Cpu => hex_color_by_intention "Good"
  | Memory => hex_color_by_intention "Warning"
  | Disk => hex_color_by_intention "Neutral"
  | NetworkIngress => hex_color_by_intention "Good"
  | NetworkEgress => hex_color_by_intention "Critical"
  | LoadAverage => hex_color_by_intention "Unknown"
  end.

(** [defaultColors] of the chart options. *)
Definition defaultColors (type : StatType) : list string :=
  match type with
  | LoadAverage =>
      [ hex_color_by_intention "Good";
        hex_color_by_intention "Neutral";
        hex_color_by_intention "Unknown" ]
  | _ => [ getColor type ]
  end.

End Colors.

(** *** The formatters of the value axis *)

Section Formatters.

(** [Number.prototype.toFixed], and the string of [Math.round(v)] (by
    [toString] or inside a template literal), belong to the runtime: they
    are parameters of the development. *)
Variable toFixed : number -> nat -> string.
Variable round_toString : number -> string.

(** The text of the [tooltip] formatter; [value] is [None] when the
    argument is [undefined]. *)
Definition tooltip (type : StatType) (unit : Unit_) (value : option number)
  : string :=
  let v := nullish value zero in
  let fmt (u : Unit_) :=
    match u with
    | MB_per_s => toFixed v 2
    | KB_per_s => toFixed v 1
    | _ => round_toString v
    end in
  match type with
  | NetworkIngress | NetworkEgress =>
      String.append (fmt unit) (String.append " " (Unit_string unit))
  | LoadAverage => toFixed v 2
  | _ => String.append (toFixed v 2) "%"
  end.

(** The [scale] formatter, which labels the ticks. *)
Definition scale (type : StatType) (unit : Unit_) (value : option number)
  : string :=
  let v := nullish value zero in
  match type with
  | NetworkIngress | NetworkEgress =>
      match unit with
      | MB_per_s => String.append (toFixed v 2) " MB/s"
      | KB_per_s => String.append (toFixed v 1) " KB/s"
      | _ => String.append (round_toString v) " B/s"
      end
  | LoadAverage => toFixed v 1
  | _ => String.append (toFixed v 0) "%"
  end.

End Formatters.

(** *** The debug output of the network branch *)

(** One step of the loop of [Math.min]: [lowest] is the running minimum,
    NaN is absorbing and [-0] is smaller than [+0]. *)
Definition min_step (lowest y : number) : number :=
  match lowest, y with
  | S754_nan, _ | _, S754_nan => S754_nan
  | S754_zero false, S754_zero true => S754_zero true
  | _, _ => if ltb y lowest then y else lowest
  end.

(** [Math.min(x, y)]: the running minimum starts at [+Infinity]. *)
Definition Math_min (x y : number) : number :=
  fold_left min_step [x; y] pos_infinity.

Module Debug.

(** The object the network branch of [seriesData] hands to
    [console.debug]. *)
Record Payload : Type := {
  points : list StatDatapoint;
  min : number;
  max : number;
  count : nat
}.

(** The body of the [try] block, on the array [rate]; [slice(-3)] starts
    three elements before the end, or at the start of a shorter array. *)
Definition payload (rate : list StatDatapoint) : Payload :=
  let sample := firstn 3 rate ++ skipn (List.length rate - 3) rate in
  let max := fold_left (fun m d => Num.max m (value d)) rate zero in
  let min := fold_left (fun m d => Math_min m (value d)) rate pos_infinity in
  {| points := sample; min := min; max := max; count := List.length rate |}.

End Debug.

(** ** Definitions of the verification *)

(** *** Data-model invariants

    Every binary64 value is a valid representation; the spec's data model
    makes timestamps and byte counters finite numbers, and counters
    non-negative. *)

Definition finite_number (x : number) : bool := valid x && is_finite x.

Definition counter (x : number) : bool :=
  valid x && is_finite x && leb zero x.

Definition wf_record (type : StatType) (s : SystemStatsRecord) : bool :=
  finite_number (ts s) && counter (getBytes type s).

Definition is_network (type : StatType) : bool :=
  match type with
  | NetworkIngress | NetworkEgress => true
  | _ => false
  end.

(** The units from the smallest to the largest. *)
Definition unit_rank (u : Unit_) : nat :=
  match u with
  | MB_per_s => 2
  | KB_per_s => 1
  | B_per_s | NoUnit => 0
  end.

(** The rate series by recursion on the records, carrying the predecessor:
    what [rate] computes through indices. *)
Fixpoint rate_from (convert : number -> number) (type : StatType)
    (prev : option SystemStatsRecord) (l : list SystemStatsRecord)
  : list StatDatapoint :=
  match l with
  | [] => []
  | s :: rest =>
      {| date := convert (ts s);
         value := match prev with
                  | None => zero
                  | Some p => div (deltaBytes type s p) (deltaSeconds s p)
                  end |}
      :: rate_from convert type (Some s) rest
  end.

(** *** Examples

    Records and sequences the statements below are instantiated at. *)

(** A record with timestamp [t] (in milliseconds) and both byte counters at
    [bytes]. *)
Definition sample (t bytes : Z) : SystemStatsRecord :=
  {| ts := of_Z t;
     cpu_perc := Some (of_Z 50);
     mem_used_gb := of_Z 2;
     mem_total_gb := of_Z 8;
     disk_used_gb := of_Z 10;
     disk_total_gb := of_Z 40;
     network_ingress_bytes := Some (of_Z bytes);
     network_egress_bytes := Some (of_Z bytes);
     load_average := None |}.

(** The scenario of the spec, newest record first as the data source
    delivers it, and the same with the first byte delta raised. *)
Definition scenario : list SystemStatsRecord :=
  [sample 2000 3000; sample 1000 3000; sample 0 1000].

Definition scenario_raised : list SystemStatsRecord :=
  [sample 2000 5000; sample 1000 5000; sample 0 1000].

(** A record with 2 GB used of a memory and a disk of 0 GB. *)
Definition zero_total : SystemStatsRecord :=
  {| ts := zero;
     cpu_perc := None;
     mem_used_gb := of_Z 2;
     mem_total_gb := zero;
     disk_used_gb := of_Z 2;
     disk_total_gb := zero;
     network_ingress_bytes := None;
     network_egress_bytes := None;
     load_average := None |}.

(** The series of the scenario for Network Ingress, as [seriesData] yields
    it with dates left unconverted. *)
Definition scenario_series : list Series :=
  [ {| label := "Network Ingress";
       data := [ {| date := of_Z 0; value := zero |};
                 {| date := of_Z 1000; value := of_Z 2000 |};
                 {| date := of_Z 2000; value := zero |} ] |} ].

(** The kinds whose value axis follows the data. *)
Definition scaled_axis (type : StatType) : bool :=
  match type with
  | NetworkIngress | NetworkEgress | LoadAverage => true
  | _ => false
  end.

(** Newest first: the two records of a counter that fell from 1000 to 500
    bytes, and two records half a second apart. *)
Definition scenario_reset : list SystemStatsRecord :=
  [sample 1000 500; sample 0 1000].

Definition scenario_burst : list SystemStatsRecord :=
  [sample 500 3000; sample 0 1000].

(** Newest first: two records one second apart whose ingress counters are
    the largest finite number and its opposite. *)
Definition scenario_overflow : list SystemStatsRecord :=
  [ {| ts := of_Z 1000; cpu_perc := None;
       mem_used_gb := zero; mem_total_gb := zero;
       disk_used_gb := zero; disk_total_gb := zero;
       network_ingress_bytes := Some (SFmax_float prec emax);
       network_egress_bytes := None; load_average := None |};
    {| ts := of_Z 0; cpu_perc := None;
       mem_used_gb := zero; mem_total_gb := zero;
       disk_used_gb := zero; disk_total_gb := zero;
       network_ingress_bytes := Some (SFopp (SFmax_float prec emax));
       network_egress_bytes := None; load_average := None |} ].

(** A record with 4 GB used of a memory of 8 GB. *)
Definition half_used : SystemStatsRecord :=
  {| ts := of_Z 1000;
     cpu_perc := Some (of_Z 50);
     mem_used_gb := of_Z 4;
     mem_total_gb := of_Z 8;
     disk_used_gb := of_Z 20;
     disk_total_gb := of_Z 40;
     network_ingress_bytes := None;
     network_egress_bytes := None;
     load_average := None |}.

(** *** Rounding, on integers

    [binary_round_aux] is applied to a truncated quotient [N / D] and the
    location of the remainder.  The definitions below give its result by
    integer arithmetic. *)

(** The location of the remainder [r] of a division by [D]. *)
Definition loc_of (r D : Z) : location :=
  if r =? 0 then loc_Exact else loc_Inexact (2 * r ?= D).

(** The shift record of the quotient [N / D]. *)
Definition rec_of (N D : Z) : shr_record :=
  shr_record_of_loc (N / D) (loc_of (N mod D) D).

(** [N / D] rounded to the nearest integer, ties to even. *)
Definition rne (N D : Z) : Z :=
  round_nearest_even (N / D) (loc_of (N mod D) D).

(** The number of bits [shr_fexp] drops from a mantissa [m] of exponent
    [e]. *)
Definition shift_of (m e : Z) : Z :=
  Z.max 0 (fexp prec emax (Zdigits2 m + e) - e).

(** The second half of [binary_round_aux]: the rounded mantissa is shifted
    once more and the exponent checked against the largest one. *)
Definition normalize (s : bool) (m2 E1 : Z) : spec_float :=
  let n2 := shift_of m2 E1 in
  match m2 / 2 ^ n2 with
  | Z0 => S754_zero s
  | Zpos m => if E1 + n2 <=? emax - prec then S754_finite s m (E1 + n2)
              else S754_infinity s
  | Zneg _ => S754_nan
  end.

(** The mantissa of a power of two. *)
Definition P52 : positive := 4503599627370496.

(** The number [2 ^ k]. *)
Definition pow2f (k : Z) : number := S754_finite false P52 (k - 52).

(** The exponent and the shifted dividend [SFdiv_core_binary] works with. *)
Definition div_exp (mx my : positive) (ex ey : Z) : Z :=
  Z.min (Z.max (Z.pos (digits2_pos mx) + ex - (Z.pos (digits2_pos my) + ey) - 53)
               (-1074))
        (ex - ey).

Definition div_num (mx my : positive) (ex ey : Z) : Z :=
  Z.pos mx * 2 ^ (ex - ey - div_exp mx my ex ey).

(** *** The order of the numbers *)

(** A key whose lexicographic order is the order of the non-NaN values. *)
Definition key (x : spec_float) : Z * Z * Z :=
  match x with
  | S754_nan => (0, 0, 0)
  | S754_infinity true => (-2, 0, 0)
  | S754_finite true m e => (-1, - e, - Z.pos m)
  | S754_zero _ => (0, 0, 0)
  | S754_finite false m e => (1, e, Z.pos m)
  | S754_infinity false => (2, 0, 0)
  end.

Definition lex_le (a b : Z * Z * Z) : Prop :=
  let '(a1, a2, a3) := a in
  let '(b1, b2, b3) := b in
  a1 < b1 \/ (a1 = b1 /\ (a2 < b2 \/ (a2 = b2 /\ a3 <= b3))).

Definition lex_lt (a b : Z * Z * Z) : Prop :=
  let '(a1, a2, a3) := a in
  let '(b1, b2, b3) := b in
  a1 < b1 \/ (a1 = b1 /\ (a2 < b2 \/ (a2 = b2 /\ a3 < b3))).

(** * Properties of the numbers *)

(** ** Shifting a quotient to the right *)

Lemma shr_record_of_loc_inv (m : Z) (l : location) :
  shr_m (shr_record_of_loc m l) = m /\
  loc_of_shr_record (shr_record_of_loc m l) = l.
Proof. destruct l as [|[| |]]; split; reflexivity. Qed.

Lemma half_rec (N D : Z) (q' b : Z) :
  0 <= N -> 0 < D -> N / D = 2 * q' + b -> 0 <= b < 2 ->
  N / (2 * D) = q' /\ N mod (2 * D) = D * b + N mod D.
Proof.
  intros HN HD Hq Hb.
  pose proof (Z.div_mod N D ltac:(lia)) as Hdm.
  pose proof (Z.mod_pos_bound N D HD) as Hr.
  assert (Hdiv : N / (2 * D) = q').
  { symmetry. apply Z.div_unique with (r := D * b + N mod D); nia. }
  split; [exact Hdiv|].
  pose proof (Z.div_mod N (2 * D) ltac:(lia)) as Hdm2.
  rewrite Hdiv in Hdm2. nia.
Qed.

Lemma loc_of_exact (r D : Z) : r = 0 -> loc_of r D = loc_Exact.
Proof. intros ->. reflexivity. Qed.

Lemma loc_of_inexact (r D : Z) (c : comparison) :
  r <> 0 -> (2 * r ?= D) = c -> loc_of r D = loc_Inexact c.
Proof.
  intros Hr Hc. unfold loc_of.
  apply Z.eqb_neq in Hr. rewrite Hr, Hc. reflexivity.
Qed.

Lemma shr_1_shape (m : Z) (l : location) :
  0 <= m ->
  exists q' b, m = 2 * q' + b /\ (b = 0 \/ b = 1) /\
    shr_1 (shr_record_of_loc m l) =
    {| shr_m := q'; shr_r := (b =? 1);
       shr_s := match l with loc_Exact => false | _ => true end |}.
Proof.
  intros Hm. destruct m as [|p|p]; [| |lia].
  - exists 0, 0. split; [lia|split; [now left|]].
    destruct l as [|[| |]]; reflexivity.
  - destruct p as [p|p|].
    + exists (Z.pos p), 1. split; [lia|split; [now right|]].
      destruct l as [|[| |]]; reflexivity.
    + exists (Z.pos p), 0. split; [lia|split; [now left|]].
      destruct l as [|[| |]]; reflexivity.
    + exists 0, 1. split; [lia|split; [now right|]].
      destruct l as [|[| |]]; reflexivity.
Qed.

Lemma shr_1_rec_of (N D : Z) :
  0 <= N -> 0 < D -> shr_1 (rec_of N D) = rec_of N (2 * D).
Proof.
  intros HN HD.
  pose proof (Z.mod_pos_bound N D HD) as Hr.
  assert (Hq0 : 0 <= N / D) by (apply Z.div_pos; lia).
  unfold rec_of at 1.
  destruct (shr_1_shape (N / D) (loc_of (N mod D) D) Hq0)
    as (q' & b & Hq & Hb & Hs).
  rewrite Hs.
  destruct (half_rec N D q' b HN HD Hq ltac:(lia)) as [Hd Hm].
  unfold rec_of. rewrite Hd.
  destruct (Z.eq_dec (N mod D) 0) as [Hz | Hz].
  - rewrite (loc_of_exact (N mod D) D Hz).
    destruct Hb as [-> | ->].
    + rewrite loc_of_exact by lia. reflexivity.
    + rewrite (loc_of_inexact _ _ Eq) by (try apply Z.compare_eq_iff; lia).
      reflexivity.
  - rewrite (loc_of_inexact (N mod D) D _ Hz eq_refl).
    destruct Hb as [-> | ->].
    + rewrite (loc_of_inexact _ _ Lt) by (try apply Z.compare_lt_iff; lia).
      reflexivity.
    + rewrite (loc_of_inexact _ _ Gt) by (try apply Z.compare_gt_iff; lia).
      reflexivity.
Qed.

Lemma pow2_xI (p : positive) : 2 ^ Z.pos p~1 = 2 * (2 ^ Z.pos p * 2 ^ Z.pos p).
Proof.
  replace (Z.pos p~1) with (1 + (Z.pos p + Z.pos p)) by lia.
  rewrite !Z.pow_add_r by lia. reflexivity.
Qed.

Lemma pow2_xO (p : positive) : 2 ^ Z.pos p~0 = 2 ^ Z.pos p * 2 ^ Z.pos p.
Proof.
  replace (Z.pos p~0) with (Z.pos p + Z.pos p) by lia.
  rewrite Z.pow_add_r by lia. reflexivity.
Qed.

Lemma iter_pos_shr_1 (p : positive) :
  forall N D, 0 <= N -> 0 < D ->
  iter_pos shr_1 p (rec_of N D) = rec_of N (D * 2 ^ Z.pos p).
Proof.
  induction p as [p IH|p IH|]; intros N D HN HD; simpl iter_pos.
  - assert (0 < 2 ^ Z.pos p) by (apply Z.pow_pos_nonneg; lia).
    rewrite shr_1_rec_of, IH, IH by (try apply Z.mul_pos_pos; lia).
    f_equal. rewrite pow2_xI. ring.
  - assert (0 < 2 ^ Z.pos p) by (apply Z.pow_pos_nonneg; lia).
    rewrite IH, IH by (try apply Z.mul_pos_pos; lia).
    f_equal. rewrite pow2_xO. ring.
  - rewrite shr_1_rec_of by lia. f_equal. change (2 ^ 1) with 2. ring.
Qed.

Lemma fexp_eq (e : Z) : fexp prec emax e = Z.max (e - 53) (-1074).
Proof. reflexivity. Qed.

Lemma digits2_pos_bounds (m : positive) :
  2 ^ (Z.pos (digits2_pos m) - 1) <= Z.pos m < 2 ^ Z.pos (digits2_pos m).
Proof.
  induction m as [m IH|m IH|]; simpl digits2_pos.
  - rewrite Pos2Z.inj_succ.
    replace (Z.succ (Z.pos (digits2_pos m)) - 1)
      with (Z.succ (Z.pos (digits2_pos m) - 1)) by lia.
    rewrite !Z.pow_succ_r by lia. lia.
  - rewrite Pos2Z.inj_succ.
    replace (Z.succ (Z.pos (digits2_pos m)) - 1)
      with (Z.succ (Z.pos (digits2_pos m) - 1)) by lia.
    rewrite !Z.pow_succ_r by lia. lia.
  - simpl. lia.
Qed.

Lemma Zdigits2_bounds (m : Z) :
  0 < m -> 2 ^ (Zdigits2 m - 1) <= m < 2 ^ Zdigits2 m.
Proof.
  destruct m as [|p|p]; intros Hm; try lia.
  apply digits2_pos_bounds.
Qed.

Lemma Zdigits2_pos (m : Z) : 0 < m -> 0 < Zdigits2 m.
Proof. destruct m; simpl; lia. Qed.

Lemma Zdigits2_nonneg (m : Z) : 0 <= Zdigits2 m.
Proof. destruct m; simpl; lia. Qed.

Lemma pow2_pos (k : Z) : 0 <= k -> 0 < 2 ^ k.
Proof. intros. apply Z.pow_pos_nonneg; lia. Qed.

Lemma pow2_le (a b : Z) : 0 <= a <= b -> 2 ^ a <= 2 ^ b.
Proof. intros. apply Z.pow_le_mono_r; lia. Qed.

Lemma pow2_lt (a b : Z) : 0 <= a < b -> 2 ^ a < 2 ^ b.
Proof. intros. apply Z.pow_lt_mono_r; lia. Qed.

Lemma Zdigits2_le (m k : Z) :
  0 <= m -> 0 <= k -> m < 2 ^ k -> Zdigits2 m <= k.
Proof.
  intros Hm0 Hk Hm.
  destruct (Z_le_gt_dec m 0) as [H0 | H0].
  - replace m with 0 by lia. simpl. lia.
  - destruct (Zdigits2_bounds m ltac:(lia)) as [Hlo _].
    destruct (Z_le_gt_dec (Zdigits2 m) k) as [|Hgt]; [assumption|].
    pose proof (pow2_le k (Zdigits2 m - 1) ltac:(lia)). lia.
Qed.

Lemma Zdigits2_ge (m k : Z) : 2 ^ (k - 1) <= m -> 1 <= k -> k <= Zdigits2 m.
Proof.
  intros Hm Hk.
  assert (0 < m) by (pose proof (pow2_pos (k - 1) ltac:(lia)); lia).
  destruct (Zdigits2_bounds m ltac:(lia)) as [_ Hhi].
  pose proof (Zdigits2_pos m ltac:(lia)).
  destruct (Z_le_gt_dec k (Zdigits2 m)) as [|Hgt]; [assumption|].
  pose proof (pow2_le (Zdigits2 m) (k - 1) ltac:(lia)). lia.
Qed.

Lemma rec_of_1 (m : Z) : shr_record_of_loc m loc_Exact = rec_of m 1.
Proof.
  unfold rec_of. rewrite Z.div_1_r, Z.mod_1_r. reflexivity.
Qed.

Lemma shr_rec_of (N D e n : Z) :
  0 <= N -> 0 < D ->
  shr (rec_of N D) e n = (rec_of N (D * 2 ^ Z.max 0 n), e + Z.max 0 n).
Proof.
  intros HN HD. unfold shr.
  destruct n as [|p|p].
  - simpl Z.max. rewrite Z.mul_1_r, Z.add_0_r. reflexivity.
  - rewrite iter_pos_shr_1 by assumption.
    replace (Z.max 0 (Z.pos p)) with (Z.pos p) by lia. reflexivity.
  - replace (Z.max 0 (Z.neg p)) with 0 by lia.
    rewrite Z.mul_1_r, Z.add_0_r. reflexivity.
Qed.

Lemma rne_bounds (N D : Z) :
  0 < D -> N / D <= rne N D <= N / D + 1.
Proof.
  intros HD. unfold rne, round_nearest_even.
  destruct (loc_of (N mod D) D) as [|[| |]]; try lia.
  destruct (Z.even (N / D)); lia.
Qed.

Lemma shr_m_rec_of (N D : Z) : shr_m (rec_of N D) = N / D.
Proof. unfold rec_of. apply shr_record_of_loc_inv. Qed.

Lemma rne_rec_of (N D : Z) :
  round_nearest_even (shr_m (rec_of N D)) (loc_of_shr_record (rec_of N D)) =
  rne N D.
Proof.
  unfold rec_of, rne.
  destruct (shr_record_of_loc_inv (N / D) (loc_of (N mod D) D)) as [-> ->].
  reflexivity.
Qed.

Lemma rne_nonneg (N D : Z) : 0 <= N -> 0 < D -> 0 <= rne N D.
Proof.
  intros HN HD. pose proof (rne_bounds N D HD).
  assert (0 <= N / D) by (apply Z.div_pos; lia). lia.
Qed.

Lemma binary_round_aux_eq (s : bool) (N D e : Z) :
  0 <= N -> 0 < D ->
  binary_round_aux prec emax s (N / D) e (loc_of (N mod D) D) =
  let n1 := shift_of (N / D) e in
  normalize s (rne N (D * 2 ^ n1)) (e + n1).
Proof.
  intros HN HD. cbv zeta.
  unfold binary_round_aux, shr_fexp.
  change (shr_record_of_loc (N / D) (loc_of (N mod D) D)) with (rec_of N D).
  rewrite shr_rec_of by assumption.
  fold (shift_of (N / D) e).
  set (n1 := shift_of (N / D) e).
  assert (Hn1 : 0 <= n1) by (unfold n1, shift_of; lia).
  assert (HD1 : 0 < D * 2 ^ n1).
  { apply Z.mul_pos_pos; [lia|apply pow2_pos; lia]. }
  rewrite rne_rec_of.
  pose proof (rne_nonneg N (D * 2 ^ n1) HN HD1) as Hm2.
  set (m2 := rne N (D * 2 ^ n1)) in *.
  rewrite rec_of_1, shr_rec_of by lia.
  fold (shift_of m2 (e + n1)).
  rewrite shr_m_rec_of, Z.mul_1_l.
  reflexivity.
Qed.

Lemma shift_of_eq (m e : Z) :
  shift_of m e = Z.max 0 (Z.max (Zdigits2 m + e - 53) (-1074) - e).
Proof. reflexivity. Qed.

Lemma Zdigits2_pow2 (k : Z) : 0 <= k -> Zdigits2 (2 ^ k) = k + 1.
Proof.
  intros Hk. pose proof (pow2_pos k Hk).
  apply Z.le_antisymm.
  - apply Zdigits2_le; [lia|lia|].
    apply pow2_lt; lia.
  - apply Zdigits2_ge; [|lia].
    replace (k + 1 - 1) with k by lia. lia.
Qed.

(** The result of [normalize] on a rounded mantissa of at most 54 bits. *)
Lemma normalize_cases (s : bool) (m2 E1 : Z) :
  0 <= m2 <= 2 ^ 53 -> -1074 <= E1 ->
  normalize s m2 E1 =
  if m2 =? 0 then S754_zero s
  else if m2 <? 2 ^ 53 then
    (if E1 <=? 971 then S754_finite s (Z.to_pos m2) E1 else S754_infinity s)
  else
    (if E1 + 1 <=? 971 then S754_finite s (Z.to_pos (2 ^ 52)) (E1 + 1)
     else S754_infinity s).
Proof.
  intros Hm2 HE1. unfold normalize. cbv zeta.
  rewrite shift_of_eq.
  destruct (Z.eqb_spec m2 0) as [-> | Hnz].
  - simpl Zdigits2. rewrite Z.div_0_l; [reflexivity|].
    apply Z.pow_nonzero; lia.
  - destruct (Z.ltb_spec m2 (2 ^ 53)) as [Hlt | Hge].
    + pose proof (Zdigits2_le m2 53 ltac:(lia) ltac:(lia) Hlt).
      replace (Z.max 0 (Z.max (Zdigits2 m2 + E1 - 53) (-1074) - E1)) with 0
        by lia.
      rewrite Z.div_1_r, Z.add_0_r.
      destruct m2 as [|p|p]; try lia. reflexivity.
    + assert (m2 = 2 ^ 53) as -> by lia.
      rewrite (Zdigits2_pow2 53) by lia.
      replace (Z.max 0 (Z.max (53 + 1 + E1 - 53) (-1074) - E1)) with 1 by lia.
      reflexivity.
Qed.

(** Facts on the first shift of [binary_round_aux]. *)
Lemma first_shift_facts (N D e : Z) :
  0 <= N -> 0 < D ->
  let n1 := shift_of (N / D) e in
  0 <= n1 /\ 0 < D * 2 ^ n1 /\ -1074 <= e + n1 /\
  N / (D * 2 ^ n1) < 2 ^ 53 /\
  0 <= rne N (D * 2 ^ n1) <= 2 ^ 53.
Proof.
  intros HN HD n1.
  assert (Hn1 : 0 <= n1) by (unfold n1; rewrite shift_of_eq; lia).
  assert (Hp : 0 < 2 ^ n1) by (apply pow2_pos; lia).
  assert (HD1 : 0 < D * 2 ^ n1) by (apply Z.mul_pos_pos; lia).
  assert (HE : -1074 <= e + n1) by (unfold n1; rewrite shift_of_eq; lia).
  assert (Hq : 0 <= N / D) by (apply Z.div_pos; lia).
  assert (Hm1 : N / (D * 2 ^ n1) < 2 ^ 53).
  { rewrite <- Z.div_div by lia.
    apply Z.div_lt_upper_bound; [lia|].
    destruct (Z.eq_dec (N / D) 0) as [H0 | H0].
    - rewrite H0. apply Z.mul_pos_pos; [lia|]. apply pow2_pos; lia.
    - destruct (Zdigits2_bounds (N / D) ltac:(lia)) as [_ Hhi].
      pose proof (Zdigits2_pos (N / D) ltac:(lia)) as Hd.
      assert (Hle : Zdigits2 (N / D) <= n1 + 53)
        by (unfold n1; rewrite shift_of_eq; lia).
      pose proof (pow2_le (Zdigits2 (N / D)) (n1 + 53) ltac:(lia)) as Hpw.
      rewrite Z.pow_add_r in Hpw by lia. lia. }
  pose proof (rne_bounds N (D * 2 ^ n1) HD1).
  assert (0 <= N / (D * 2 ^ n1)) by (apply Z.div_pos; lia).
  repeat split; try assumption; lia.
Qed.

Lemma round_aux_cases (s : bool) (N D e : Z) :
  0 <= N -> 0 < D ->
  let n1 := shift_of (N / D) e in
  let m2 := rne N (D * 2 ^ n1) in
  let E1 := e + n1 in
  binary_round_aux prec emax s (N / D) e (loc_of (N mod D) D) =
  if m2 =? 0 then S754_zero s
  else if m2 <? 2 ^ 53 then
    (if E1 <=? 971 then S754_finite s (Z.to_pos m2) E1 else S754_infinity s)
  else
    (if E1 + 1 <=? 971 then S754_finite s (Z.to_pos (2 ^ 52)) (E1 + 1)
     else S754_infinity s).
Proof.
  intros HN HD n1 m2 E1.
  rewrite binary_round_aux_eq by assumption. cbv zeta.
  destruct (first_shift_facts N D e HN HD) as (_ & _ & HE & _ & Hm2).
  apply normalize_cases; assumption.
Qed.

Ltac round_cases N D e HN HD :=
  rewrite (round_aux_cases _ N D e HN HD); cbv zeta;
  destruct (first_shift_facts N D e HN HD) as (?Hn1 & ?HD1 & ?HE1 & ?Hm1 & ?Hm2);
  repeat match goal with
         | |- context [Z.eqb ?a ?b] => destruct (Z.eqb_spec a b)
         | |- context [Z.ltb ?a ?b] => destruct (Z.ltb_spec a b)
         | |- context [Z.leb ?a ?b] => destruct (Z.leb_spec a b)
         end.

(** [binary_round_aux] never returns NaN and keeps the sign it is given. *)
Lemma round_class (s : bool) (N D e : Z) :
  0 <= N -> 0 < D ->
  let R := binary_round_aux prec emax s (N / D) e (loc_of (N mod D) D) in
  is_nan R = false /\ sign R = s.
Proof.
  intros HN HD R. unfold R.
  round_cases N D e HN HD; split; reflexivity.
Qed.

Lemma valid_finite_iff (s : bool) (m : positive) (e : Z) :
  valid (S754_finite s m e) = true <->
  Z.max (Z.pos (digits2_pos m) + e - 53) (-1074) = e /\ e <= 971.
Proof.
  unfold valid, valid_binary, bounded, canonical_mantissa.
  rewrite andb_true_iff, Z.eqb_eq, Z.leb_le, fexp_eq. reflexivity.
Qed.

Lemma Zdigits2_to_pos (m : Z) :
  0 < m -> Z.pos (digits2_pos (Z.to_pos m)) = Zdigits2 m.
Proof. destruct m; simpl; intros; try lia; reflexivity. Qed.

(** The mantissa before rounding has 53 bits as soon as the exponent chosen
    by the first shift is above the subnormal one. *)
Lemma first_shift_normal (N D e : Z) :
  0 <= N -> 0 < D ->
  e <= Z.max (Zdigits2 (N / D) + e - 53) (-1074) ->
  let n1 := shift_of (N / D) e in
  e + n1 = Z.max (Zdigits2 (N / D) + e - 53) (-1074) /\
  (-1074 < e + n1 -> 2 ^ 52 <= N / (D * 2 ^ n1)).
Proof.
  intros HN HD Hc n1.
  assert (Hn1 : n1 = Z.max (Zdigits2 (N / D) + e - 53) (-1074) - e).
  { unfold n1. rewrite shift_of_eq. lia. }
  split; [lia|]. intros Hnorm.
  assert (Hd : n1 = Zdigits2 (N / D) - 53) by lia.
  assert (Hq : 0 < N / D).
  { assert (0 <= N / D) by (apply Z.div_pos; lia).
    destruct (Z.eq_dec (N / D) 0) as [H0|]; [|lia].
    rewrite H0 in *. simpl in *. lia. }
  destruct (Zdigits2_bounds (N / D) Hq) as [Hlo _].
  rewrite <- Z.div_div by lia.
  apply Z.div_le_lower_bound; [apply pow2_pos; lia|].
  rewrite <- Z.pow_add_r by lia.
  replace (n1 + 52) with (Zdigits2 (N / D) - 1) by lia. exact Hlo.
Qed.

(** The result of [binary_round_aux] is a valid binary64 value when the
    input exponent is not above the canonical one. *)
Lemma round_valid (s : bool) (N D e : Z) :
  0 <= N -> 0 < D ->
  e <= Z.max (Zdigits2 (N / D) + e - 53) (-1074) ->
  valid (binary_round_aux prec emax s (N / D) e (loc_of (N mod D) D)) = true.
Proof.
  intros HN HD Hc.
  destruct (first_shift_normal N D e HN HD Hc) as [HE Hnorm].
  pose proof (rne_bounds N (D * 2 ^ shift_of (N / D) e)) as Hb.
  round_cases N D e HN HD; try reflexivity.
  - apply valid_finite_iff. split; [|lia].
    rewrite Zdigits2_to_pos by lia.
    set (m2 := rne N (D * 2 ^ shift_of (N / D) e)) in *.
    assert (Hd53 : Zdigits2 m2 <= 53) by (apply Zdigits2_le; lia).
    pose proof (Zdigits2_pos m2 ltac:(lia)).
    destruct (Z.eq_dec (e + shift_of (N / D) e) (-1074)) as [Hsub | Hsub].
    + lia.
    + specialize (Hnorm ltac:(lia)). specialize (Hb HD1).
      assert (53 <= Zdigits2 m2) by (apply Zdigits2_ge; [simpl Z.sub|]; lia).
      lia.
  - apply valid_finite_iff. split; [|lia].
    rewrite Zdigits2_to_pos by (apply pow2_pos; lia).
    rewrite Zdigits2_pow2 by lia. lia.
Qed.

(** The result is not a zero when the truncated input is at least the
    smallest subnormal. *)
Lemma round_nonzero (s : bool) (N D e : Z) :
  0 <= N -> 0 < D ->
  0 < N / D -> -1074 < Zdigits2 (N / D) + e ->
  let R := binary_round_aux prec emax s (N / D) e (loc_of (N mod D) D) in
  R = S754_infinity s \/ exists m E, R = S754_finite s m E.
Proof.
  intros HN HD Hq Hmag R. unfold R.
  assert (Hm1' : 1 <= N / (D * 2 ^ shift_of (N / D) e)).
  { pose proof (Zdigits2_pos (N / D) Hq) as Hd.
    assert (Hn : 0 <= shift_of (N / D) e <= Zdigits2 (N / D) - 1)
      by (rewrite shift_of_eq; lia).
    pose proof (pow2_pos (shift_of (N / D) e) ltac:(lia)).
    rewrite <- Z.div_div by lia.
    destruct (Zdigits2_bounds (N / D) Hq) as [Hlo _].
    apply Z.div_le_lower_bound; [apply pow2_pos; lia|].
    pose proof (pow2_le (shift_of (N / D) e) (Zdigits2 (N / D) - 1) Hn). lia. }
  pose proof (rne_bounds N (D * 2 ^ shift_of (N / D) e)) as Hb.
  round_cases N D e HN HD; try (now left); try (right; eauto).
  specialize (Hb HD1). lia.
Qed.

Lemma rne_exact (N D : Z) : N mod D = 0 -> rne N D = N / D.
Proof. intros H. unfold rne. rewrite H. reflexivity. Qed.

Lemma rne_le (N D K : Z) : 0 < D -> N <= K * D -> rne N D <= K.
Proof.
  intros HD HK.
  pose proof (Z.div_mod N D ltac:(lia)) as Hdm.
  pose proof (Z.mod_pos_bound N D HD) as Hr.
  destruct (Z.eq_dec (N mod D) 0) as [Hz | Hz].
  - rewrite (rne_exact N D Hz). nia.
  - pose proof (rne_bounds N D HD). nia.
Qed.

(** No overflow: an input of at most the largest finite value rounds to a
    finite value. *)
Lemma round_no_overflow (s : bool) (N D e : Z) :
  0 <= N -> 0 < D -> e <= 971 ->
  N <= (2 ^ 53 - 1) * 2 ^ (971 - e) * D ->
  is_finite (binary_round_aux prec emax s (N / D) e (loc_of (N mod D) D)) = true.
Proof.
  intros HN HD He Hbound.
  assert (Hq : 0 <= N / D) by (apply Z.div_pos; lia).
  assert (Hqb : N / D < 2 ^ (1024 - e)).
  { apply Z.div_lt_upper_bound; [lia|].
    replace (1024 - e) with (53 + (971 - e)) by lia.
    rewrite Z.pow_add_r by lia.
    pose proof (pow2_pos (971 - e) ltac:(lia)). nia. }
  pose proof (Zdigits2_le (N / D) (1024 - e) Hq ltac:(lia) Hqb) as Hd.
  remember (shift_of (N / D) e) as n1 eqn:Hn1def.
  assert (HE : e + n1 <= 971) by (subst n1; rewrite shift_of_eq; lia).
  assert (Hn1' : 0 <= n1) by (subst n1; rewrite shift_of_eq; lia).
  assert (Hr : rne N (D * 2 ^ n1) <= (2 ^ 53 - 1) * 2 ^ (971 - (e + n1))).
  { apply rne_le.
    - apply Z.mul_pos_pos; [lia|apply pow2_pos; lia].
    - replace (971 - e) with ((971 - (e + n1)) + n1) in Hbound by lia.
      rewrite Z.pow_add_r in Hbound by lia. nia. }
  rewrite (round_aux_cases _ N D e HN HD). cbv zeta.
  rewrite <- Hn1def.
  destruct (Z.eqb_spec (rne N (D * 2 ^ n1)) 0); [reflexivity|].
  destruct (Z.ltb_spec (rne N (D * 2 ^ n1)) (2 ^ 53)).
  - destruct (Z.leb_spec (e + n1) 971); [reflexivity|lia].
  - destruct (Z.leb_spec (e + n1 + 1) 971); [reflexivity|].
    exfalso. assert (e + n1 = 971) as Heq by lia.
    rewrite Heq in Hr. replace (971 - 971) with 0 in Hr by lia.
    simpl in Hr. lia.
Qed.

Lemma even_or_odd (m : Z) :
  (Z.even m = true /\ exists h, m = 2 * h) \/
  (Z.even m = false /\ exists h, m = 2 * h + 1).
Proof.
  destruct (Z.even m) eqn:He.
  - left. split; [reflexivity|]. apply Z.even_spec in He. exact He.
  - right. split; [reflexivity|].
    assert (Ho : Z.odd m = true) by (rewrite <- Z.negb_even, He; reflexivity).
    apply Z.odd_spec in Ho. exact Ho.
Qed.

(** Rounding to nearest even reaches an even integer [K] exactly from
    [K - 1/2] on. *)
Lemma rne_ge_even (N D K : Z) :
  0 < D -> Z.even K = true ->
  (K <= rne N D <-> (2 * K - 1) * D <= 2 * N).
Proof.
  intros HD HK.
  apply Z.even_spec in HK. destruct HK as [k HK].
  pose proof (Z.div_mod N D ltac:(lia)) as Hdm.
  pose proof (Z.mod_pos_bound N D HD) as Hr.
  unfold rne, loc_of, round_nearest_even.
  set (m1 := N / D) in *. set (r := N mod D) in *.
  destruct (Z.eqb_spec r 0) as [Hz | Hz].
  - split; intros H; nia.
  - destruct (Z.compare_spec (2 * r) D) as [Hc | Hc | Hc].
    + destruct (even_or_odd m1) as [[-> [h Hh]] | [-> [h Hh]]];
        split; intros H; nia.
    + split; intros H; nia.
    + split; intros H; nia.
Qed.

Lemma P52_eq : Z.pos P52 = 2 ^ 52.
Proof. reflexivity. Qed.

(** Value side of the threshold test: [N / D * 2 ^ e] is at least
    [(2 ^ 54 - 1) * 2 ^ (k - 54)] exactly when the first shift lands above the
    binade below [2 ^ k], or in it with a round-up to [2 ^ 53]. *)
Lemma threshold_value (N D e k a b : Z) :
  0 <= N -> 0 < D ->
  e <= Z.max (Zdigits2 (N / D) + e - 53) (-1074) ->
  -1021 <= k ->
  0 <= a -> 0 <= b -> a - b = e + 54 - k ->
  let n1 := shift_of (N / D) e in
  ((2 ^ 54 - 1) * D * 2 ^ b <= N * 2 ^ a <->
   (k - 52 <= e + n1 \/ (e + n1 = k - 53 /\ 2 ^ 53 <= rne N (D * 2 ^ n1)))).
Proof.
  intros HN HD Hc Hk Ha Hb Hab n1.
  destruct (first_shift_normal N D e HN HD Hc) as [HE _].
  fold n1 in HE.
  assert (Hn1 : 0 <= n1) by (unfold n1; rewrite shift_of_eq; lia).
  pose proof (Z.div_mod N D ltac:(lia)) as Hdm.
  pose proof (Z.mod_pos_bound N D HD) as Hr.
  assert (Hq : 0 <= N / D) by (apply Z.div_pos; lia).
  pose proof (Zdigits2_nonneg (N / D)) as Hd0.
  pose proof (pow2_pos a Ha) as HA. pose proof (pow2_pos b Hb) as HB.
  remember (N / D) as q eqn:Hqdef.
  remember (Zdigits2 q) as d eqn:Hddef.
  assert (Hqhi : q < 2 ^ d).
  { destruct (Z.eq_dec q 0) as [-> | Hq0].
    - pose proof (pow2_pos d Hd0). lia.
    - subst d. apply Zdigits2_bounds. lia. }
  assert (Hqlo : 0 < q -> 2 ^ (d - 1) <= q).
  { intros Hq0. subst d. apply Zdigits2_bounds. lia. }
  assert (Hq0d : q = 0 -> d = 0) by (intros ->; subst d; reflexivity).
  split.
  - intros Hval.
    destruct (Z_lt_le_dec k (d + e)) as [Hhi | Hlo]; [left; lia|].
    destruct (Z.eq_dec (d + e) k) as [Heq | Hne].
    + right. split; [lia|].
      change (2 ^ 53) with (2 ^ 53).
      apply (rne_ge_even N (D * 2 ^ n1) (2 ^ 53));
        [apply Z.mul_pos_pos; [lia|apply pow2_pos; lia]|reflexivity|].
      assert (Hpw : 2 ^ n1 * 2 ^ a = 2 * 2 ^ b).
      { rewrite <- Z.pow_add_r by lia.
        replace (n1 + a) with (1 + b) by lia.
        rewrite Z.pow_add_r by lia. reflexivity. }
      change (2 * 2 ^ 53 - 1) with (2 ^ 54 - 1).
      apply (Z.mul_le_mono_pos_r _ _ (2 ^ a) HA).
      replace ((2 ^ 54 - 1) * (D * 2 ^ n1) * 2 ^ a)
        with ((2 ^ 54 - 1) * D * (2 ^ n1 * 2 ^ a)) by ring.
      rewrite Hpw. nia.
    + exfalso.
      assert (Hpw : 2 ^ d * 2 ^ a <= 2 ^ 53 * 2 ^ b).
      { rewrite <- !Z.pow_add_r by lia. apply pow2_le. lia. }
      assert (N < D * 2 ^ d) by nia.
      assert (N * 2 ^ a < D * 2 ^ d * 2 ^ a) by nia.
      change (2 ^ 54 - 1) with (2 * 2 ^ 53 - 1) in Hval.
      change (2 ^ 53) with 9007199254740992 in *.
      nia.
  - intros [Hhi | [Heq Hup]].
    + assert (Hq0 : 0 < q).
      { destruct (Z.eq_dec q 0) as [H0|]; [|lia].
        specialize (Hq0d H0). lia. }
      specialize (Hqlo Hq0).
      assert (Hpw : 2 ^ 54 * 2 ^ b <= 2 ^ (d - 1) * 2 ^ a).
      { rewrite <- !Z.pow_add_r by lia. apply pow2_le. lia. }
      assert (D * 2 ^ (d - 1) <= N) by nia.
      assert (D * 2 ^ (d - 1) * 2 ^ a <= N * 2 ^ a) by nia.
      change (2 ^ 54) with 18014398509481984 in *.
      nia.
    + apply (rne_ge_even N (D * 2 ^ n1) (2 ^ 53)) in Hup;
        [|apply Z.mul_pos_pos; [lia|apply pow2_pos; lia]|reflexivity].
      assert (Hpw : 2 ^ n1 * 2 ^ a = 2 * 2 ^ b).
      { rewrite <- Z.pow_add_r by lia.
        replace (n1 + a) with (1 + b) by lia.
        rewrite Z.pow_add_r by lia. reflexivity. }
      change (2 * 2 ^ 53 - 1) with (2 ^ 54 - 1) in Hup.
      apply (Z.mul_le_mono_pos_r _ _ (2 ^ a) HA) in Hup.
      assert (Heq2 : (2 ^ 54 - 1) * (D * 2 ^ n1) * 2 ^ a =
                     2 * ((2 ^ 54 - 1) * D * 2 ^ b)).
      { replace ((2 ^ 54 - 1) * (D * 2 ^ n1) * 2 ^ a)
          with ((2 ^ 54 - 1) * D * (2 ^ n1 * 2 ^ a)) by ring.
        rewrite Hpw. ring. }
      rewrite Heq2 in Hup. lia.
Qed.

Lemma SFleb_finite_pos (m1 m2 : positive) (e1 e2 : Z) :
  SFleb (S754_finite false m1 e1) (S754_finite false m2 e2) = true <->
  (e1 < e2 \/ (e1 = e2 /\ Z.pos m1 <= Z.pos m2)).
Proof.
  unfold SFleb, SFcompare.
  change (Pos.compare_cont Eq m1 m2) with (Pos.compare m1 m2).
  destruct (Z.compare_spec e1 e2) as [He | He | He].
  - destruct (Pos.compare_spec m1 m2) as [Hm | Hm | Hm];
      split; try reflexivity; try lia; intros; right; split; lia.
  - split; [intros; left; lia|reflexivity].
  - split; [discriminate|lia].
Qed.

(** Float side of the threshold test. *)
Lemma threshold_float (N D e k : Z) :
  0 <= N -> 0 < D ->
  e <= Z.max (Zdigits2 (N / D) + e - 53) (-1074) ->
  -1021 <= k <= 1023 ->
  let n1 := shift_of (N / D) e in
  (SFleb (S754_finite false P52 (k - 52))
         (binary_round_aux prec emax false (N / D) e (loc_of (N mod D) D))
   = true <->
   (k - 52 <= e + n1 \/ (e + n1 = k - 53 /\ 2 ^ 53 <= rne N (D * 2 ^ n1)))).
Proof.
  intros HN HD Hc Hk n1.
  destruct (first_shift_normal N D e HN HD Hc) as [HE Hnorm].
  fold n1 in HE, Hnorm.
  rewrite (round_aux_cases _ N D e HN HD). cbv zeta. fold n1.
  destruct (first_shift_facts N D e HN HD) as (Hn1 & HD1 & HE1 & Hm1 & Hm2).
  fold n1 in Hn1, HD1, HE1, Hm1, Hm2.
  pose proof (rne_bounds N (D * 2 ^ n1) HD1) as Hb.
  remember (rne N (D * 2 ^ n1)) as m2 eqn:Hm2def.
  destruct (Z.eqb_spec m2 0) as [Hz | Hz].
  - split; [discriminate|]. intros [H | [H1 H2]]; [|lia].
    specialize (Hnorm ltac:(lia)). lia.
  - destruct (Z.ltb_spec m2 (2 ^ 53)) as [Hlt | Hge].
    + destruct (Z.leb_spec (e + n1) 971) as [Hle | Hgt].
      * rewrite SFleb_finite_pos, P52_eq, Z2Pos.id by lia.
        split.
        -- intros [H | [H _]]; left; lia.
        -- intros [H | [_ H]]; [|lia].
           destruct (Z.eq_dec (k - 52) (e + n1)) as [Heq | Hne]; [|left; lia].
           right. split; [exact Heq|].
           specialize (Hnorm ltac:(lia)). lia.
      * split; [intros _; left; lia|reflexivity].
    + destruct (Z.leb_spec (e + n1 + 1) 971) as [Hle | Hgt].
      * rewrite SFleb_finite_pos, P52_eq, Z2Pos.id by (apply pow2_pos; lia).
        split.
        -- intros [H | [H _]].
           ++ destruct (Z.eq_dec (e + n1) (k - 53)); [right; split; lia|left; lia].
           ++ right. split; lia.
        -- intros [H | [H _]]; [left; lia|right; split; lia].
      * split; [intros _; left; lia|reflexivity].
Qed.

(** The rounded result is at least [2 ^ k] exactly when the exact input is
    at least [(2 ^ 54 - 1) * 2 ^ (k - 54)], half an ulp below [2 ^ k]. *)
Lemma round_ge_pow2 (N D e k a b : Z) :
  0 <= N -> 0 < D ->
  e <= Z.max (Zdigits2 (N / D) + e - 53) (-1074) ->
  -1021 <= k <= 1023 ->
  0 <= a -> 0 <= b -> a - b = e + 54 - k ->
  (SFleb (S754_finite false P52 (k - 52))
         (binary_round_aux prec emax false (N / D) e (loc_of (N mod D) D))
   = true <->
   (2 ^ 54 - 1) * D * 2 ^ b <= N * 2 ^ a).
Proof.
  intros HN HD Hc Hk Ha Hb Hab.
  rewrite (threshold_float N D e k HN HD Hc Hk).
  rewrite (threshold_value N D e k a b HN HD Hc ltac:(lia) Ha Hb Hab).
  reflexivity.
Qed.

(** ** Division *)

Lemma new_location_loc_of (D r : Z) :
  0 < D -> 0 <= r < D -> new_location D r = loc_of r D.
Proof.
  intros HD Hr. unfold new_location, new_location_even, new_location_odd, loc_of.
  destruct (even_or_odd D) as [[-> _] | [-> [h Hh]]]; [reflexivity|].
  destruct (Z.eqb_spec r 0); [reflexivity|]. f_equal.
  destruct (Z.compare_spec (2 * r + 1) D), (Z.compare_spec (2 * r) D);
    try reflexivity; lia.
Qed.

Lemma div_exp_le (mx my : positive) (ex ey : Z) :
  0 <= ex - ey - div_exp mx my ex ey.
Proof. unfold div_exp. lia. Qed.

Lemma div_num_pos (mx my : positive) (ex ey : Z) : 0 < div_num mx my ex ey.
Proof.
  unfold div_num. apply Z.mul_pos_pos; [lia|].
  apply pow2_pos, div_exp_le.
Qed.

Lemma SFdiv_core_eq (mx my : positive) (ex ey : Z) :
  SFdiv_core_binary prec emax (Z.pos mx) ex (Z.pos my) ey =
  (div_num mx my ex ey / Z.pos my, div_exp mx my ex ey,
   loc_of (div_num mx my ex ey mod Z.pos my) (Z.pos my)).
Proof.
  unfold SFdiv_core_binary. cbv zeta.
  rewrite fexp_eq. simpl Zdigits2.
  fold (div_exp mx my ex ey).
  pose proof (div_exp_le mx my ex ey) as Hs.
  assert (Hm : match ex - ey - div_exp mx my ex ey with
               | 0 => Z.pos mx
               | Z.pos _ => Z.shiftl (Z.pos mx) (ex - ey - div_exp mx my ex ey)
               | Z.neg _ => 0
               end = div_num mx my ex ey).
  { unfold div_num.
    destruct (ex - ey - div_exp mx my ex ey) as [|p|p] eqn:Hse.
    - rewrite Z.mul_1_r. reflexivity.
    - rewrite Z.shiftl_mul_pow2 by lia. reflexivity.
    - lia. }
  rewrite Hm.
  pose proof (div_num_pos mx my ex ey) as HN.
  pose proof (Z.mod_pos_bound (div_num mx my ex ey) (Z.pos my) ltac:(lia)) as Hr.
  unfold Z.div, Z.modulo in *.
  destruct (Z.div_eucl (div_num mx my ex ey) (Z.pos my)) as [q r].
  rewrite new_location_loc_of by lia. reflexivity.
Qed.

Lemma SFdiv_finite_eq (sx sy : bool) (mx my : positive) (ex ey : Z) :
  SFdiv prec emax (S754_finite sx mx ex) (S754_finite sy my ey) =
  binary_round_aux prec emax (xorb sx sy)
    (div_num mx my ex ey / Z.pos my) (div_exp mx my ex ey)
    (loc_of (div_num mx my ex ey mod Z.pos my) (Z.pos my)).
Proof.
  unfold SFdiv. rewrite SFdiv_core_eq. reflexivity.
Qed.

Lemma div_digits_lower (mx my : positive) (s : Z) :
  0 <= s -> 1 <= Z.pos mx * 2 ^ s / Z.pos my ->
  Z.pos (digits2_pos mx) + s - Z.pos (digits2_pos my)
  <= Zdigits2 (Z.pos mx * 2 ^ s / Z.pos my).
Proof.
  intros Hs Hq.
  pose proof (digits2_pos_bounds mx) as [Hx _].
  pose proof (digits2_pos_bounds my) as [_ Hy].
  set (d1 := Z.pos (digits2_pos mx)) in *.
  set (d2 := Z.pos (digits2_pos my)) in *.
  destruct (Z_le_gt_dec (d1 + s - d2) 1) as [Hsmall | Hbig].
  - pose proof (Zdigits2_pos (Z.pos mx * 2 ^ s / Z.pos my) ltac:(lia)).
    lia.
  - apply Zdigits2_ge; [|lia].
    apply Z.div_le_lower_bound; [lia|].
    assert (Hpw : 2 ^ (d1 + s - d2 - 1) * 2 ^ d2 = 2 ^ (d1 - 1) * 2 ^ s).
    { rewrite <- !Z.pow_add_r by lia. f_equal. lia. }
    pose proof (pow2_pos (d1 + s - d2 - 1) ltac:(lia)).
    pose proof (pow2_pos s Hs).
    nia.
Qed.

(** The exponent [SFdiv_core_binary] chooses is never above the canonical
    exponent of the truncated quotient. *)
Lemma div_canonical_input (mx my : positive) (ex ey : Z) :
  let q := div_num mx my ex ey / Z.pos my in
  div_exp mx my ex ey <= Z.max (Zdigits2 q + div_exp mx my ex ey - 53) (-1074).
Proof.
  intros q.
  pose proof (div_exp_le mx my ex ey) as Hs.
  pose proof (div_num_pos mx my ex ey) as HN.
  assert (Hq : 0 <= q) by (apply Z.div_pos; lia).
  destruct (Z.eq_dec q 0) as [Hq0 | Hq0].
  - rewrite Hq0. simpl Zdigits2.
    assert (Hlt : div_num mx my ex ey < Z.pos my).
    { apply Z.div_small_iff in Hq0; lia. }
    unfold div_num in Hlt.
    pose proof (digits2_pos_bounds mx) as [Hx _].
    pose proof (digits2_pos_bounds my) as [_ Hy].
    set (s := ex - ey - div_exp mx my ex ey) in *.
    assert (Hds : Z.pos (digits2_pos mx) - 1 + s < Z.pos (digits2_pos my)).
    { apply (Z.pow_lt_mono_r_iff 2); [lia|lia|].
      rewrite Z.pow_add_r by lia.
      pose proof (pow2_pos s Hs). nia. }
    unfold s, div_exp in *. lia.
  - assert (Hq1 : 1 <= div_num mx my ex ey / Z.pos my) by (fold q; lia).
    pose proof (div_digits_lower mx my _ Hs Hq1) as Hd.
    fold (div_num mx my ex ey) in Hd. fold q in Hd.
    unfold div_exp in *. lia.
Qed.

(** The quotient of two finite values is a valid value, never NaN, with the
    exclusive or of the signs. *)
Lemma div_finite_class (sx sy : bool) (mx my : positive) (ex ey : Z) :
  let R := SFdiv prec emax (S754_finite sx mx ex) (S754_finite sy my ey) in
  valid R = true /\ is_nan R = false /\ sign R = xorb sx sy.
Proof.
  intros R. unfold R. rewrite SFdiv_finite_eq.
  pose proof (div_num_pos mx my ex ey) as HN.
  split.
  - apply round_valid; [lia|lia|]. apply div_canonical_input.
  - apply round_class; lia.
Qed.

(** What validity says of a finite value. *)
Lemma valid_finite_facts (s : bool) (m : positive) (e : Z) :
  valid (S754_finite s m e) = true ->
  -1074 <= e <= 971 /\ Z.pos (digits2_pos m) <= 53 /\ Z.pos m < 2 ^ 53 /\
  (-1074 < e -> Z.pos (digits2_pos m) = 53 /\ 2 ^ 52 <= Z.pos m).
Proof.
  intros Hv. apply valid_finite_iff in Hv. destruct Hv as [Hc He].
  pose proof (digits2_pos_bounds m) as [Hlo Hhi].
  assert (Hd : Z.pos (digits2_pos m) <= 53) by lia.
  split; [lia|]. split; [exact Hd|]. split.
  - pose proof (pow2_le (Z.pos (digits2_pos m)) 53 ltac:(lia)). lia.
  - intros Hn. assert (Hd53 : Z.pos (digits2_pos m) = 53) by lia.
    split; [exact Hd53|]. rewrite Hd53 in Hlo. exact Hlo.
Qed.

(** Order of two valid positive finite values, on scaled mantissas. *)
Lemma SFleb_value (m1 m2 : positive) (e1 e2 : Z) :
  valid (S754_finite false m1 e1) = true ->
  valid (S754_finite false m2 e2) = true ->
  SFleb (S754_finite false m1 e1) (S754_finite false m2 e2) = true ->
  Z.pos m1 * 2 ^ (e1 + 1074) <= Z.pos m2 * 2 ^ (e2 + 1074).
Proof.
  intros Hv1 Hv2 Hle.
  apply valid_finite_facts in Hv1, Hv2.
  destruct Hv1 as (He1 & _ & Hm1 & _), Hv2 as (He2 & _ & _ & Hn2).
  apply SFleb_finite_pos in Hle. destruct Hle as [Hlt | [-> Hm]].
  - destruct (Hn2 ltac:(lia)) as [_ Hm2].
    pose proof (pow2_pos (e1 + 1074) ltac:(lia)).
    assert (Hpw : 2 ^ 53 * 2 ^ (e1 + 1074) <= 2 ^ 52 * 2 ^ (e2 + 1074)).
    { rewrite <- !Z.pow_add_r by lia. apply pow2_le. lia. }
    pose proof (pow2_pos (e2 + 1074) ltac:(lia)).
    nia.
  - pose proof (pow2_pos (e2 + 1074) ltac:(lia)). nia.
Qed.

(** A finite value divided by a finite value of magnitude at least one is
    finite. *)
Lemma div_finite_by_ge_one (sx sy : bool) (mx my : positive) (ex ey : Z) :
  valid (S754_finite sx mx ex) = true ->
  valid (S754_finite sy my ey) = true ->
  -52 <= ey -> 2 ^ 52 <= Z.pos my ->
  is_finite (SFdiv prec emax (S754_finite sx mx ex) (S754_finite sy my ey))
  = true.
Proof.
  intros Hvx Hvy Hey Hmy. rewrite SFdiv_finite_eq.
  apply valid_finite_facts in Hvx, Hvy.
  destruct Hvx as (Hex & Hdx & Hmx & _), Hvy as (Hey' & Hdy & _ & _).
  pose proof (div_num_pos mx my ex ey) as HN.
  pose proof (div_exp_le mx my ex ey) as Hs.
  assert (He' : div_exp mx my ex ey <= 971).
  { unfold div_exp.
    pose proof (Zdigits2_ge (Z.pos my) 53 Hmy ltac:(lia)) as Hd2.
    simpl Zdigits2 in Hd2. lia. }
  apply round_no_overflow; [lia|lia|exact He'|].
  unfold div_num.
  set (e' := div_exp mx my ex ey) in *.
  assert (Hpw : 2 ^ (ex - ey - e') <= 2 ^ (971 - e') * 2 ^ 52).
  { rewrite <- Z.pow_add_r by lia. apply pow2_le. lia. }
  pose proof (pow2_pos (ex - ey - e') Hs).
  pose proof (pow2_pos (971 - e') ltac:(lia)).
  change (2 ^ 53) with 9007199254740992 in *.
  change (2 ^ 52) with 4503599627370496 in *.
  nia.
Qed.

(** Dividing by a fixed positive value keeps the test [>= 2 ^ k] monotone in
    the dividend. *)
Lemma div_threshold_value (mx my : positive) (ex ey k : Z) :
  valid (S754_finite false mx ex) = true ->
  valid (S754_finite false my ey) = true ->
  -1021 <= k <= 1023 ->
  (SFleb (S754_finite false P52 (k - 52))
         (SFdiv prec emax (S754_finite false mx ex) (S754_finite false my ey))
   = true <->
   (2 ^ 54 - 1) * Z.pos my * 2 ^ 4000 <=
   Z.pos mx * 2 ^ (ex + 1074) * 2 ^ (2980 - ey - k)).
Proof.
  intros Hvx Hvy Hk. rewrite SFdiv_finite_eq.
  apply valid_finite_facts in Hvx, Hvy.
  destruct Hvx as (Hex & _), Hvy as (Hey & _).
  pose proof (div_num_pos mx my ex ey) as HN.
  pose proof (div_exp_le mx my ex ey) as Hs.
  assert (He' : -2045 <= div_exp mx my ex ey) by (unfold div_exp; lia).
  rewrite (round_ge_pow2 (div_num mx my ex ey) (Z.pos my)
             (div_exp mx my ex ey) k
             (div_exp mx my ex ey + 54 - k + 4000) 4000);
    try lia; [|apply div_canonical_input].
  unfold div_num.
  rewrite <- !Z.mul_assoc, <- !Z.pow_add_r by lia.
  replace (ex - ey - div_exp mx my ex ey +
           (div_exp mx my ex ey + 54 - k + 4000))
    with (ex + 1074 + (2980 - ey - k)) by lia.
  reflexivity.
Qed.

Lemma div_threshold_mono (m1 m2 my : positive) (e1 e2 ey k : Z) :
  valid (S754_finite false m1 e1) = true ->
  valid (S754_finite false m2 e2) = true ->
  valid (S754_finite false my ey) = true ->
  -1021 <= k <= 1023 ->
  SFleb (S754_finite false m1 e1) (S754_finite false m2 e2) = true ->
  SFleb (S754_finite false P52 (k - 52))
        (SFdiv prec emax (S754_finite false m1 e1) (S754_finite false my ey))
  = true ->
  SFleb (S754_finite false P52 (k - 52))
        (SFdiv prec emax (S754_finite false m2 e2) (S754_finite false my ey))
  = true.
Proof.
  intros Hv1 Hv2 Hvy Hk Hle H1.
  pose proof (SFleb_value m1 m2 e1 e2 Hv1 Hv2 Hle) as Hval.
  rewrite div_threshold_value in H1 |- * by assumption.
  apply valid_finite_facts in Hvy. destruct Hvy as (Hey & _).
  pose proof (pow2_pos (2980 - ey - k) ltac:(lia)).
  eapply Z.le_trans; [exact H1|].
  apply Z.mul_le_mono_nonneg_r; lia.
Qed.

(** ** Exact inputs *)

Lemma round_exact_form (s : bool) (N e : Z) :
  binary_round_aux prec emax s N e loc_Exact =
  binary_round_aux prec emax s (N / 1) e (loc_of (N mod 1) 1).
Proof. rewrite Z.div_1_r, Z.mod_1_r. reflexivity. Qed.

Lemma round_exact_class (s : bool) (N e : Z) :
  0 <= N ->
  let R := binary_round_aux prec emax s N e loc_Exact in
  is_nan R = false /\ sign R = s.
Proof.
  intros HN R. unfold R. rewrite round_exact_form.
  apply round_class; lia.
Qed.

Lemma round_exact_valid (s : bool) (N e : Z) :
  0 <= N -> e <= Z.max (Zdigits2 N + e - 53) (-1074) ->
  valid (binary_round_aux prec emax s N e loc_Exact) = true.
Proof.
  intros HN Hc. rewrite round_exact_form.
  apply round_valid; [lia|lia|]. rewrite Z.div_1_r. exact Hc.
Qed.

Lemma round_exact_nonzero (s : bool) (N e : Z) :
  0 < N -> -1074 < Zdigits2 N + e ->
  let R := binary_round_aux prec emax s N e loc_Exact in
  R = S754_infinity s \/ exists m E, R = S754_finite s m E.
Proof.
  intros HN Hmag R. unfold R. rewrite round_exact_form.
  apply round_nonzero; rewrite ?Z.div_1_r; lia.
Qed.

Lemma round_exact_no_overflow (s : bool) (N e : Z) :
  0 <= N -> e <= 971 -> N <= (2 ^ 53 - 1) * 2 ^ (971 - e) ->
  is_finite (binary_round_aux prec emax s N e loc_Exact) = true.
Proof.
  intros HN He Hb. rewrite round_exact_form.
  apply round_no_overflow; lia.
Qed.

(** ** Multiplication *)

Lemma digits_mul_lower (mx my : positive) :
  Z.pos (digits2_pos mx) + Z.pos (digits2_pos my) - 1
  <= Zdigits2 (Z.pos (mx * my)).
Proof.
  pose proof (digits2_pos_bounds mx) as [Hx _].
  pose proof (digits2_pos_bounds my) as [Hy _].
  set (d1 := Z.pos (digits2_pos mx)) in *.
  set (d2 := Z.pos (digits2_pos my)) in *.
  assert (0 < d1) by (unfold d1; lia). assert (0 < d2) by (unfold d2; lia).
  apply Zdigits2_ge; [|lia].
  replace (d1 + d2 - 1 - 1) with ((d1 - 1) + (d2 - 1)) by lia.
  rewrite Z.pow_add_r, Pos2Z.inj_mul by lia.
  pose proof (pow2_pos (d1 - 1) ltac:(lia)).
  pose proof (pow2_pos (d2 - 1) ltac:(lia)).
  nia.
Qed.

Lemma mul_canonical_input (sx sy : bool) (mx my : positive) (ex ey : Z) :
  valid (S754_finite sx mx ex) = true ->
  valid (S754_finite sy my ey) = true ->
  ex + ey <= Z.max (Zdigits2 (Z.pos (mx * my)) + (ex + ey) - 53) (-1074).
Proof.
  intros Hvx Hvy.
  apply valid_finite_facts in Hvx, Hvy.
  destruct Hvx as (Hex & Hdx & _ & Hnx), Hvy as (Hey & Hdy & _ & Hny).
  pose proof (digits_mul_lower mx my) as Hd.
  pose proof (Pos2Z.is_pos (digits2_pos mx)).
  pose proof (Pos2Z.is_pos (digits2_pos my)).
  destruct (Z.eq_dec ex (-1074)) as [Hsx | Hsx].
  - destruct (Z.eq_dec ey (-1074)) as [Hsy | Hsy]; [lia|].
    destruct (Hny ltac:(lia)) as [Hd53 _]. lia.
  - destruct (Hnx ltac:(lia)) as [Hd53 _]. lia.
Qed.

(** The product of two valid finite values is a valid value, never NaN,
    with the exclusive or of the signs. *)
Lemma mul_finite_class (sx sy : bool) (mx my : positive) (ex ey : Z) :
  valid (S754_finite sx mx ex) = true ->
  valid (S754_finite sy my ey) = true ->
  let R := SFmul prec emax (S754_finite sx mx ex) (S754_finite sy my ey) in
  valid R = true /\ is_nan R = false /\ sign R = xorb sx sy.
Proof.
  intros Hvx Hvy R. unfold R, SFmul. split.
  - apply round_exact_valid; [lia|].
    eapply mul_canonical_input; eassumption.
  - apply round_exact_class. lia.
Qed.

(** The product does not underflow to zero when the magnitudes add up to
    more than the smallest subnormal. *)
Lemma mul_finite_nonzero (sx sy : bool) (mx my : positive) (ex ey : Z) :
  -1074 < Z.pos (digits2_pos mx) + ex + (Z.pos (digits2_pos my) + ey) - 1 ->
  let R := SFmul prec emax (S754_finite sx mx ex) (S754_finite sy my ey) in
  R = S754_infinity (xorb sx sy) \/
  exists m E, R = S754_finite (xorb sx sy) m E.
Proof.
  intros Hmag R. unfold R, SFmul.
  apply round_exact_nonzero; [lia|].
  pose proof (digits_mul_lower mx my). lia.
Qed.

(** ** Subtraction *)

Lemma iter_xO_eq (d m : positive) :
  Z.pos (Pos.iter xO m d) = Z.pos m * 2 ^ Z.pos d.
Proof.
  induction d as [|d IH] using Pos.peano_ind.
  - simpl. lia.
  - rewrite Pos.iter_succ, Pos2Z.inj_xO, IH, Pos2Z.inj_succ.
    rewrite Z.pow_succ_r by lia. ring.
Qed.

Lemma shl_align_eq (m : positive) (e e' : Z) :
  let r := shl_align m e e' in
  snd r = Z.min e e' /\ Z.pos (fst r) = Z.pos m * 2 ^ (e - Z.min e e').
Proof.
  unfold shl_align.
  destruct (e' - e) as [|d|d] eqn:Hd; simpl fst; simpl snd.
  - replace (Z.min e e') with e by lia.
    rewrite Z.sub_diag. split; [reflexivity|lia].
  - replace (Z.min e e') with e by lia.
    rewrite Z.sub_diag. split; [reflexivity|lia].
  - replace (Z.min e e') with e' by lia.
    split; [reflexivity|]. rewrite iter_xO_eq. f_equal. f_equal. lia.
Qed.

Lemma Zdigits2_shift (m j : Z) :
  0 < m -> 0 <= j -> Zdigits2 (m * 2 ^ j) = Zdigits2 m + j.
Proof.
  intros Hm Hj.
  destruct (Zdigits2_bounds m Hm) as [Hlo Hhi].
  pose proof (Zdigits2_pos m Hm) as Hd.
  pose proof (pow2_pos j Hj) as Hp.
  apply Z.le_antisymm.
  - apply Zdigits2_le; [nia|lia|].
    rewrite Z.pow_add_r by lia. nia.
  - apply Zdigits2_ge; [|lia].
    replace (Zdigits2 m + j - 1) with (Zdigits2 m - 1 + j) by lia.
    rewrite Z.pow_add_r by lia. nia.
Qed.

(** [binary_round] yields a valid value with the given sign, finite when
    the input is at most the largest finite value. *)
Lemma binary_round_props (s : bool) (m : positive) (e : Z) :
  let R := binary_round prec emax s m e in
  valid R = true /\ is_nan R = false /\ sign R = s /\
  (e <= 971 -> Z.pos m <= (2 ^ 53 - 1) * 2 ^ (971 - e) ->
   is_finite R = true).
Proof.
  intros R. unfold R, binary_round.
  pose proof (shl_align_eq m e (fexp prec emax (Z.pos (digits2_pos m) + e)))
    as [He Hm].
  destruct (shl_align m e (fexp prec emax (Z.pos (digits2_pos m) + e)))
    as [mz ez].
  simpl fst in Hm. simpl snd in He. rewrite fexp_eq in He, Hm.
  set (d := Z.pos (digits2_pos m)) in *.
  assert (Hdz : Zdigits2 (Z.pos mz) = d + (e - ez)).
  { rewrite Hm, He. apply (Zdigits2_shift (Z.pos m)); lia. }
  split; [|split; [|split]].
  - apply round_exact_valid; [lia|]. rewrite Hdz. lia.
  - apply round_exact_class. lia.
  - apply round_exact_class. lia.
  - intros He971 Hb.
    apply round_exact_no_overflow; [lia|lia|].
    rewrite Hm, <- He.
    replace (971 - ez) with ((971 - e) + (e - ez)) by lia.
    rewrite Z.pow_add_r by lia.
    pose proof (pow2_pos (e - ez) ltac:(lia)). nia.
Qed.

Lemma binary_normalize_props (M e : Z) :
  let R := binary_normalize prec emax M e false in
  valid R = true /\ is_nan R = false /\
  (e <= 971 -> Z.abs M <= (2 ^ 53 - 1) * 2 ^ (971 - e) ->
   is_finite R = true).
Proof.
  intros R. unfold R, binary_normalize.
  destruct M as [|m|m].
  - repeat split.
  - destruct (binary_round_props false m e) as (Hv & Hn & _ & Hf).
    repeat split; assumption.
  - destruct (binary_round_props true m e) as (Hv & Hn & _ & Hf).
    repeat split; assumption.
Qed.

Lemma aligned_bound (m : positive) (e ez : Z) (s : bool) :
  valid (S754_finite s m e) = true -> ez <= e ->
  Z.pos m * 2 ^ (e - ez) <= (2 ^ 53 - 1) * 2 ^ (971 - ez).
Proof.
  intros Hv Hez. apply valid_finite_facts in Hv.
  destruct Hv as (He & _ & Hm & _).
  assert (Hpw : 2 ^ (e - ez) <= 2 ^ (971 - ez)) by (apply pow2_le; lia).
  pose proof (pow2_pos (e - ez) ltac:(lia)). nia.
Qed.

(** The difference of two finite values is a valid value and never NaN. *)
Lemma sub_finite_class (x y : spec_float) :
  valid x = true -> valid y = true ->
  is_finite x = true -> is_finite y = true ->
  valid (SFsub prec emax x y) = true /\ is_nan (SFsub prec emax x y) = false.
Proof.
  intros Hvx Hvy Hfx Hfy.
  destruct x as [sx|sx| |sx mx ex], y as [sy|sy| |sy my ey];
    try discriminate; simpl SFsub.
  - destruct sx, sy; split; reflexivity.
  - split; [exact Hvy|reflexivity].
  - split; [exact Hvx|reflexivity].
  - edestruct binary_normalize_props as (Hv & Hn & _).
    split; [exact Hv|exact Hn].
Qed.

(** The difference of two non-negative finite values is finite. *)
Lemma sub_finite_nonneg (x y : spec_float) :
  valid x = true -> valid y = true ->
  is_finite x = true -> is_finite y = true ->
  SFleb (S754_zero false) x = true -> SFleb (S754_zero false) y = true ->
  is_finite (SFsub prec emax x y) = true.
Proof.
  intros Hvx Hvy Hfx Hfy Hx Hy.
  destruct x as [sx|sx| |sx mx ex], y as [sy|sy| |sy my ey];
    try discriminate; simpl SFsub.
  - destruct sx, sy; reflexivity.
  - reflexivity.
  - reflexivity.
  - destruct sx; [discriminate|]. destruct sy; [discriminate|].
    pose proof (shl_align_eq mx ex (Z.min ex ey)) as [_ Hmx].
    pose proof (shl_align_eq my ey (Z.min ex ey)) as [_ Hmy].
    replace (Z.min ex (Z.min ex ey)) with (Z.min ex ey) in Hmx by lia.
    replace (Z.min ey (Z.min ex ey)) with (Z.min ex ey) in Hmy by lia.
    pose proof (aligned_bound mx ex (Z.min ex ey) false Hvx ltac:(lia)) as Hbx.
    pose proof (aligned_bound my ey (Z.min ex ey) false Hvy ltac:(lia)) as Hby.
    apply valid_finite_facts in Hvx, Hvy.
    edestruct binary_normalize_props as (_ & _ & Hfin).
    apply Hfin; [lia|].
    unfold cond_Zopp. lia.
Qed.

(** Multiplying a value of at least [2 ^ k] by [1.2] keeps it at least
    [2 ^ k]. *)
Lemma mul_1_2_ge_pow2 (mx : positive) (ex k : Z) :
  valid (S754_finite false mx ex) = true ->
  -1021 <= k <= 1023 ->
  SFleb (S754_finite false P52 (k - 52)) (S754_finite false mx ex) = true ->
  SFleb (S754_finite false P52 (k - 52))
        (SFmul prec emax (S754_finite false mx ex) num_1_2) = true.
Proof.
  intros Hv Hk Hle.
  pose proof (mul_canonical_input false false mx 5404319552844595 ex (-52)
                Hv eq_refl) as Hc.
  apply valid_finite_facts in Hv. destruct Hv as (Hex & _ & _ & Hn).
  apply SFleb_finite_pos in Hle. rewrite P52_eq in Hle.
  assert (Hex' : k - 52 <= ex) by lia.
  destruct (Hn ltac:(lia)) as [_ Hmx].
  unfold num_1_2, SFmul. simpl xorb.
  rewrite round_exact_form.
  apply (round_ge_pow2 _ 1 _ k (ex + 54 - k) 52); try lia.
  - rewrite Z.div_1_r. exact Hc.
  - rewrite Pos2Z.inj_mul.
    assert (Hpw : 2 ^ 2 <= 2 ^ (ex + 54 - k)) by (apply pow2_le; lia).
    change (2 ^ 2) with 4 in Hpw.
    change (2 ^ 54) with 18014398509481984.
    change (2 ^ 52) with 4503599627370496 in *.
    nia.
Qed.

(** Dividing by a power of two does not underflow to zero as long as the
    exact quotient is at least the smallest subnormal. *)
Lemma div_pow2_nonzero (mx : positive) (ex ey : Z) :
  -1074 <= Z.pos (digits2_pos mx) + ex - 53 - ey ->
  let R := SFdiv prec emax (S754_finite false mx ex) (S754_finite false P52 ey) in
  R = S754_infinity false \/ exists m E, R = S754_finite false m E.
Proof.
  intros HA R. unfold R. rewrite SFdiv_finite_eq. simpl xorb.
  pose proof (div_num_pos mx P52 ex ey) as HN.
  pose proof (div_exp_le mx P52 ex ey) as Hs.
  pose proof (digits2_pos_bounds mx) as [Hx _].
  pose proof (Pos2Z.is_pos (digits2_pos mx)) as Hdx.
  set (dx := Z.pos (digits2_pos mx)) in *.
  set (e' := div_exp mx P52 ex ey) in *.
  assert (He' : e' = Z.min (Z.max (dx + ex - (53 + ey) - 53) (-1074)) (ex - ey))
    by reflexivity.
  assert (Hs52 : 52 <= dx - 1 + (ex - ey - e')) by lia.
  assert (Hlow : 2 ^ (dx + (ex - ey - e') - 53) <= div_num mx P52 ex ey / Z.pos P52).
  { apply Z.div_le_lower_bound; [lia|].
    unfold div_num. fold e'. rewrite P52_eq.
    rewrite <- Z.pow_add_r by lia.
    replace (52 + (dx + (ex - ey - e') - 53)) with ((dx - 1) + (ex - ey - e'))
      by lia.
    rewrite Z.pow_add_r by lia.
    pose proof (pow2_pos (ex - ey - e') Hs). nia. }
  pose proof (pow2_pos (dx + (ex - ey - e') - 53) ltac:(lia)) as Hp.
  apply round_nonzero; try lia.
  pose proof (Zdigits2_ge (div_num mx P52 ex ey / Z.pos P52)
                (dx + (ex - ey - e') - 52)) as Hd.
  replace (dx + (ex - ey - e') - 52 - 1) with (dx + (ex - ey - e') - 53) in Hd
    by lia.
  specialize (Hd Hlow ltac:(lia)). lia.
Qed.

(** ** The order of [SFcompare] *)

Ltac order_cases :=
  repeat match goal with
         | |- context [Z.compare ?a ?b] => destruct (Z.compare_spec a b)
         | |- context [Pos.compare ?a ?b] => destruct (Pos.compare_spec a b)
         end.

Lemma SFleb_key (x y : spec_float) :
  is_nan x = false -> is_nan y = false ->
  (SFleb x y = true <-> lex_le (key x) (key y)).
Proof.
  intros Hx Hy. unfold SFleb, SFcompare, lex_le.
  destruct x as [sx|sx| |sx mx ex], y as [sy|sy| |sy my ey];
    try discriminate;
    try destruct sx; try destruct sy; simpl key;
    change (Pos.compare_cont Eq ?a ?b) with (Pos.compare a b);
    order_cases; simpl; split; intros ?; try reflexivity; try discriminate;
    try lia.
Qed.

Lemma SFltb_key (x y : spec_float) :
  is_nan x = false -> is_nan y = false ->
  (SFltb x y = true <-> lex_lt (key x) (key y)).
Proof.
  intros Hx Hy. unfold SFltb, SFcompare, lex_lt.
  destruct x as [sx|sx| |sx mx ex], y as [sy|sy| |sy my ey];
    try discriminate;
    try destruct sx; try destruct sy; simpl key;
    change (Pos.compare_cont Eq ?a ?b) with (Pos.compare a b);
    order_cases; simpl; split; intros ?; try reflexivity; try discriminate;
    try lia.
Qed.

Lemma SFleb_not_nan (x y : spec_float) :
  SFleb x y = true -> is_nan x = false /\ is_nan y = false.
Proof.
  destruct x as [sx|sx| |sx mx ex], y as [sy|sy| |sy my ey];
    try discriminate; intros _; split; reflexivity.
Qed.

Lemma SFleb_refl (x : spec_float) : is_nan x = false -> SFleb x x = true.
Proof.
  intros Hx. apply SFleb_key; try assumption.
  unfold lex_le. destruct (key x) as [[a b] c]. lia.
Qed.

Lemma SFleb_trans (x y z : spec_float) :
  SFleb x y = true -> SFleb y z = true -> SFleb x z = true.
Proof.
  intros Hxy Hyz.
  destruct (SFleb_not_nan _ _ Hxy) as [Hx Hy].
  destruct (SFleb_not_nan _ _ Hyz) as [_ Hz].
  apply SFleb_key in Hxy, Hyz; try assumption.
  apply SFleb_key; try assumption.
  unfold lex_le in *.
  destruct (key x) as [[a1 a2] a3], (key y) as [[b1 b2] b3],
           (key z) as [[c1 c2] c3]. lia.
Qed.

Lemma SFltb_leb (x y : spec_float) : SFltb x y = true -> SFleb x y = true.
Proof.
  unfold SFltb, SFleb. destruct (SFcompare x y) as [[| |]|]; intros H;
    try discriminate; reflexivity.
Qed.

Lemma SFltb_false_leb (x y : spec_float) :
  is_nan x = false -> is_nan y = false ->
  SFltb x y = false -> SFleb y x = true.
Proof.
  intros Hx Hy Hlt.
  apply SFleb_key; try assumption.
  assert (Hn : ~ lex_lt (key x) (key y)).
  { intros H. apply SFltb_key in H; try assumption. congruence. }
  unfold lex_le, lex_lt in *.
  destruct (key x) as [[a1 a2] a3], (key y) as [[b1 b2] b3]. lia.
Qed.

(** * Properties of the operations of the chart *)

Lemma max_zero_eq (a : number) : Num.max zero a = max_step zero a.
Proof. reflexivity. Qed.

Lemma max_one_eq (b : number) : Num.max Num.one b = max_step Num.one b.
Proof. reflexivity. Qed.

(** [Math.max(0, a)] is NaN, [0], or [a] when [a] is positive. *)
Lemma max_zero_cases (a : number) :
  (is_nan a = true /\ Num.max zero a = nan) \/
  (is_nan a = false /\ ltb zero a = false /\ Num.max zero a = zero) \/
  (ltb zero a = true /\ Num.max zero a = a).
Proof.
  rewrite max_zero_eq. unfold max_step, zero.
  destruct a as [s|s| |s m e]; try destruct s; simpl; auto.
Qed.

(** [Math.max(1, b)] is NaN, [1], or [b] when [b] is above one. *)
Lemma max_one_cases (b : number) :
  (is_nan b = true /\ Num.max Num.one b = nan) \/
  (is_nan b = false /\ ltb Num.one b = false /\ Num.max Num.one b = Num.one) \/
  (ltb Num.one b = true /\ Num.max Num.one b = b).
Proof.
  rewrite max_one_eq. unfold max_step.
  destruct b as [s|s| |s m e]; try (left; split; reflexivity).
  - right. left. destruct s; repeat split.
  - destruct s; [right; left; repeat split|right; right; split; reflexivity].
  - change (match Num.one with
            | S754_nan => S754_nan
            | _ => if ltb Num.one (S754_finite s m e)
                   then S754_finite s m e else Num.one
            end)
      with (if ltb Num.one (S754_finite s m e)
            then S754_finite s m e else Num.one).
    destruct (ltb Num.one (S754_finite s m e)) eqn:Hlt.
    + right. right. split; reflexivity.
    + right. left. repeat split.
Qed.

Lemma sign_false_nonneg (x : number) :
  is_nan x = false -> sign x = false -> leb zero x = true.
Proof.
  destruct x as [s|s| |s m e]; simpl; intros Hn Hs; try discriminate;
    subst; reflexivity.
Qed.

Lemma ltb_zero_cases (x : number) :
  ltb zero x = true ->
  x = pos_infinity \/ exists m e, x = S754_finite false m e.
Proof.
  destruct x as [s|s| |s m e]; try destruct s; try discriminate; intros _.
  - now left.
  - right. eauto.
Qed.

Lemma leb_one_facts (s : bool) (m : positive) (e : Z) :
  valid (S754_finite s m e) = true ->
  leb Num.one (S754_finite s m e) = true ->
  s = false /\ -52 <= e /\ 2 ^ 52 <= Z.pos m.
Proof.
  intros Hv Hle. destruct s; [discriminate|].
  split; [reflexivity|].
  apply valid_finite_facts in Hv. destruct Hv as (_ & _ & _ & Hn).
  unfold leb, Num.one in Hle. apply SFleb_finite_pos in Hle.
  destruct Hle as [Hlt | [<- Hm]].
  - destruct (Hn ltac:(lia)). lia.
  - split; [lia|exact Hm].
Qed.

Lemma ge_one_cases (S : number) :
  valid S = true -> leb Num.one S = true ->
  S = pos_infinity \/
  exists ms es, S = S754_finite false ms es /\ -52 <= es /\ 2 ^ 52 <= Z.pos ms.
Proof.
  intros Hv Hle.
  destruct S as [ss|ss| |ss ms es]; try discriminate.
  - destruct ss; [discriminate|now left].
  - destruct (leb_one_facts ss ms es Hv Hle) as (-> & He & Hm).
    right. exists ms, es. auto.
Qed.

Lemma counter_cases (D : number) :
  counter D = true ->
  (exists s, D = S754_zero s) \/
  (exists m e, D = S754_finite false m e /\ valid D = true).
Proof.
  unfold counter. rewrite !andb_true_iff. intros [[Hv Hf] Hn].
  destruct D as [s|s| |s m e]; try discriminate.
  - left. eauto.
  - destruct s; [discriminate|]. right. eauto.
Qed.

Lemma counter_intro (x : number) :
  valid x = true -> is_finite x = true -> is_nan x = false ->
  sign x = false -> counter x = true.
Proof.
  intros Hv Hf Hn Hs. unfold counter. rewrite Hv, Hf. simpl.
  apply sign_false_nonneg; assumption.
Qed.

(** The division of a non-negative finite value by a value of at least one
    is a non-negative finite value. *)
Lemma div_counter (D S : number) :
  counter D = true -> valid S = true -> leb Num.one S = true ->
  counter (div D S) = true.
Proof.
  intros HD HvS HS.
  destruct (ge_one_cases S HvS HS) as [-> | (ms & es & -> & Hes & Hms)];
    destruct (counter_cases D HD) as [[sd ->] | (md & ed & -> & HvD)].
  - destruct sd; reflexivity.
  - reflexivity.
  - destruct sd; reflexivity.
  - destruct (div_finite_class false false md ms ed es) as (Hv & Hn & Hs).
    pose proof (div_finite_by_ge_one false false md ms ed es HvD HvS Hes Hms)
      as Hf.
    apply counter_intro; assumption.
Qed.

Lemma counter_facts (x : number) :
  counter x = true ->
  valid x = true /\ is_finite x = true /\ leb zero x = true.
Proof.
  unfold counter. rewrite !andb_true_iff. tauto.
Qed.

Lemma finite_number_facts (x : number) :
  finite_number x = true -> valid x = true /\ is_finite x = true.
Proof.
  unfold finite_number. rewrite andb_true_iff. tauto.
Qed.

(** The clamped byte delta of two counters is a non-negative finite
    value. *)
Lemma deltaBytes_counter (type : StatType) (s prev : SystemStatsRecord) :
  counter (getBytes type s) = true -> counter (getBytes type prev) = true ->
  counter (deltaBytes type s prev) = true.
Proof.
  intros Hs Hp.
  destruct (counter_facts _ Hs) as (Hvs & Hfs & Hns).
  destruct (counter_facts _ Hp) as (Hvp & Hfp & Hnp).
  destruct (sub_finite_class _ _ Hvs Hvp Hfs Hfp) as [Hv Hn].
  pose proof (sub_finite_nonneg _ _ Hvs Hvp Hfs Hfp Hns Hnp) as Hf.
  unfold deltaBytes.
  fold (sub (getBytes type s) (getBytes type prev)) in Hv, Hn, Hf.
  destruct (max_zero_cases (sub (getBytes type s) (getBytes type prev)))
    as [[Hnan _] | [(_ & _ & ->) | [Hpos ->]]].
  - congruence.
  - reflexivity.
  - apply counter_intro; try assumption.
    destruct (ltb_zero_cases _ Hpos) as [-> | (m & e & ->)]; reflexivity.
Qed.

Lemma div_by_1000_class (t : number) :
  valid t = true -> is_nan t = false ->
  valid (div t num_1000) = true /\ is_nan (div t num_1000) = false.
Proof.
  intros Hv Hn.
  destruct t as [s|s| |s m e]; try discriminate.
  - destruct s; split; reflexivity.
  - destruct s; split; reflexivity.
  - unfold div, num_1000.
    destruct (div_finite_class s false m 8796093022208000 e (-43))
      as (Hv' & Hn' & _).
    split; assumption.
Qed.

(** The interval in seconds between two finite timestamps, floored at one
    second, is a number of at least one. *)
Lemma deltaSeconds_ge_one (s prev : SystemStatsRecord) :
  finite_number (ts s) = true -> finite_number (ts prev) = true ->
  valid (deltaSeconds s prev) = true /\
  leb Num.one (deltaSeconds s prev) = true.
Proof.
  intros Hs Hp.
  destruct (finite_number_facts _ Hs) as (Hvs & Hfs).
  destruct (finite_number_facts _ Hp) as (Hvp & Hfp).
  destruct (sub_finite_class _ _ Hvs Hvp Hfs Hfp) as [Hv Hn].
  fold (sub (ts s) (ts prev)) in Hv, Hn.
  destruct (div_by_1000_class _ Hv Hn) as [Hv' Hn'].
  unfold deltaSeconds.
  destruct (max_one_cases (div (sub (ts s) (ts prev)) num_1000))
    as [[Hnan _] | [(_ & _ & ->) | [Hgt ->]]].
  - congruence.
  - split; reflexivity.
  - split; [assumption|]. apply SFltb_leb. exact Hgt.
Qed.

(** Raising the byte delta never lowers the rate below a power of two it
    had reached. *)
Lemma rate_threshold_mono (D1 D2 S : number) (k : Z) :
  counter D1 = true -> counter D2 = true -> leb D1 D2 = true ->
  valid S = true -> leb Num.one S = true ->
  -1021 <= k <= 1023 ->
  leb (pow2f k) (div D1 S) = true -> leb (pow2f k) (div D2 S) = true.
Proof.
  intros H1 H2 Hle HvS HS Hk Hc.
  destruct (counter_cases D1 H1) as [[s1 ->] | (m1 & e1 & -> & Hv1)].
  - exfalso.
    destruct (ge_one_cases S HvS HS) as [-> | (ms & es & -> & _)];
      destruct s1; discriminate Hc.
  - destruct (ge_one_cases S HvS HS) as [-> | (ms & es & -> & Hes & Hms)];
      [discriminate Hc|].
    destruct (counter_cases D2 H2) as [[s2 ->] | (m2 & e2 & -> & Hv2)];
      [discriminate Hle|].
    unfold leb, pow2f, div in *.
    apply (div_threshold_mono m1 m2 ms e1 e2 es k); assumption.
Qed.

Lemma ltb_pos_cases (m0 : positive) (e0 : Z) (x : number) :
  ltb (S754_finite false m0 e0) x = true ->
  x = pos_infinity \/ exists m e, x = S754_finite false m e.
Proof.
  destruct x as [s|s| |s m e]; try destruct s; try discriminate; intros _.
  - now left.
  - right. eauto.
Qed.

(** Whatever the operands, a clamped delta divided by a floored interval is
    NaN or non-negative. *)
Lemma clamped_div_nonneg (a b : number) :
  let v := div (Num.max zero a) (Num.max Num.one b) in
  is_nan v = true \/ leb zero v = true.
Proof.
  cbv zeta.
  destruct (max_zero_cases a) as [[_ ->] | [(_ & _ & ->) | [Ha ->]]];
    [left; reflexivity| |];
    (destruct (max_one_cases b) as [[_ ->] | [(_ & _ & ->) | [Hb ->]]];
     [left; destruct a as [[]|[]| |[]]; reflexivity| |]).
  - right. reflexivity.
  - destruct (ltb_pos_cases _ _ _ Hb) as [-> | (m & e & ->)];
      right; reflexivity.
  - destruct (ltb_zero_cases _ Ha) as [-> | (m & e & ->)].
    + right. reflexivity.
    + right.
      destruct (div_finite_class false false m P52 e (-52)) as (_ & Hn & Hs).
      apply sign_false_nonneg; assumption.
  - destruct (ltb_zero_cases _ Ha) as [-> | (m & e & ->)];
      destruct (ltb_pos_cases _ _ _ Hb) as [-> | (m' & e' & ->)].
    + left. reflexivity.
    + right. reflexivity.
    + right. reflexivity.
    + right.
      destruct (div_finite_class false false m m' e e') as (_ & Hn & Hs).
      apply sign_false_nonneg; assumption.
Qed.

(** * The rate series *)

Section Rate.

Variable convert : number -> number.
Variable type : StatType.

Lemma nth_error_snoc_last {A : Type} (pre : list A) (x : A) :
  nth_error (pre ++ [x]) (List.length (pre ++ [x]) - 1) = Some x.
Proof.
  rewrite length_app. simpl List.length.
  replace (List.length pre + 1 - 1)%nat with (List.length pre) by lia.
  rewrite nth_error_app2 by lia. rewrite Nat.sub_diag. reflexivity.
Qed.

Lemma map_idx_from_rate (l pre : list SystemStatsRecord)
    (prev : option SystemStatsRecord) :
  (pre = [] /\ prev = None) \/
  (exists pre', pre = pre' ++ match prev with Some p => [p] | None => [] end
                /\ prev <> None) ->
  map_idx_from (rate_point convert type (pre ++ l)) l (List.length pre) =
  Normal (rate_from convert type prev l).
Proof.
  revert pre prev.
  induction l as [|s rest IH]; intros pre prev Hpre; [reflexivity|].
  simpl map_idx_from. simpl rate_from.
  assert (Hpt : rate_point convert type (pre ++ s :: rest) s (List.length pre) =
                Normal {| date := convert (ts s);
                          value := match prev with
                                   | None => zero
                                   | Some p => div (deltaBytes type s p)
                                                   (deltaSeconds s p)
                                   end |}).
  { unfold rate_point.
    destruct Hpre as [[-> ->] | (pre' & Hp & Hn)].
    - reflexivity.
    - destruct prev as [p|]; [|congruence]. subst pre.
      replace (List.length (pre' ++ [p]) =? 0)%nat with false
        by (rewrite length_app; simpl; symmetry; apply Nat.eqb_neq; lia).
      rewrite nth_error_app1 by (rewrite length_app; simpl; lia).
      rewrite nth_error_snoc_last. reflexivity. }
  rewrite Hpt. simpl bind.
  specialize (IH (pre ++ [s]) (Some s)).
  rewrite <- app_assoc in IH. simpl app in IH.
  rewrite length_app in IH. simpl List.length in IH.
  replace (List.length pre + 1)%nat with (S (List.length pre)) in IH by lia.
  rewrite IH; [reflexivity|].
  right. exists pre. split; [reflexivity|discriminate].
Qed.

(** [rate] never throws: the predecessor looked up by index exists. *)
Lemma rate_eq (records : list SystemStatsRecord) :
  rate convert type records = Normal (rate_from convert type None records).
Proof.
  unfold rate, map_idx.
  apply (map_idx_from_rate records [] None). left. split; reflexivity.
Qed.

Lemma rate_from_length (l : list SystemStatsRecord)
    (prev : option SystemStatsRecord) :
  List.length (rate_from convert type prev l) = List.length l.
Proof.
  revert prev. induction l as [|s rest IH]; intros prev; simpl;
    [reflexivity|]. rewrite IH. reflexivity.
Qed.

Lemma rate_from_dates (l : list SystemStatsRecord)
    (prev : option SystemStatsRecord) :
  map date (rate_from convert type prev l) = map (fun s => convert (ts s)) l.
Proof.
  revert prev. induction l as [|s rest IH]; intros prev; simpl;
    [reflexivity|]. rewrite IH. reflexivity.
Qed.

Lemma rate_from_nth_S (l : list SystemStatsRecord)
    (prev : option SystemStatsRecord) (i : nat) (p s : SystemStatsRecord) :
  nth_error l i = Some p -> nth_error l (S i) = Some s ->
  nth_error (rate_from convert type prev l) (S i) =
  Some {| date := convert (ts s);
          value := div (deltaBytes type s p) (deltaSeconds s p) |}.
Proof.
  revert prev i. induction l as [|x rest IH]; intros prev i Hp Hs;
    [destruct i; discriminate|].
  destruct i as [|i].
  - simpl in Hp. injection Hp as ->.
    destruct rest as [|y rest']; [discriminate|].
    simpl in Hs. injection Hs as ->. reflexivity.
  - simpl in Hp, Hs. simpl rate_from.
    change (nth_error (?a :: ?b) (S (S i))) with (nth_error b (S i)).
    apply IH; assumption.
Qed.

Lemma rate_from_nth_0 (l : list SystemStatsRecord) (s : SystemStatsRecord) :
  nth_error l 0 = Some s ->
  nth_error (rate_from convert type None l) 0 =
  Some {| date := convert (ts s); value := zero |}.
Proof.
  destruct l as [|x rest]; [discriminate|].
  simpl. intros H. injection H as ->. reflexivity.
Qed.

(** Every value of the rate series is [0] for the first point or the rate
    from the previous record. *)
Lemma rate_from_values (l : list SystemStatsRecord)
    (prev : option SystemStatsRecord) (pt : StatDatapoint) :
  In pt (rate_from convert type prev l) ->
  (prev = None /\ value pt = zero) \/
  exists p s, (prev = Some p \/ In p l) /\ In s l /\
              value pt = div (deltaBytes type s p) (deltaSeconds s p).
Proof.
  revert prev. induction l as [|x rest IH]; intros prev Hin; [contradiction|].
  simpl in Hin. destruct Hin as [<- | Hin].
  - destruct prev as [p|].
    + right. exists p, x. simpl. auto.
    + left. split; reflexivity.
  - destruct (IH (Some x) Hin) as [[Hn _] | (p & s & Hp & Hs & Hv)];
      [discriminate|].
    right. exists p, s. split; [|split; [right; exact Hs|exact Hv]].
    right. destruct Hp as [Hp | Hp].
    + injection Hp as ->. left. reflexivity.
    + right. exact Hp.
Qed.

End Rate.

(** * [Math.max] over a list *)

Lemma max_step_spec (h y : number) :
  is_nan h = false -> is_nan y = false ->
  (h = S754_zero true /\ y = S754_zero false /\ max_step h y = y) \/
  (ltb h y = true /\ max_step h y = y) \/
  (ltb h y = false /\ max_step h y = h).
Proof.
  intros Hh Hy. unfold max_step.
  destruct h as [sh|sh| |sh mh eh]; try discriminate;
    destruct y as [sy|sy| |sy my ey]; try discriminate;
    try (destruct sh, sy; simpl; auto; fail);
    try (destruct sh; simpl; auto; fail).
  destruct (ltb (S754_finite sh mh eh) (S754_finite sy my ey)) eqn:E; auto.
Qed.

Lemma max_step_nan_r (h : number) : max_step h nan = nan.
Proof. destruct h as [[]|[]| |[]]; reflexivity. Qed.

Lemma max_step_not_nan (h y : number) :
  is_nan h = false -> is_nan y = false -> is_nan (max_step h y) = false.
Proof.
  intros Hh Hy.
  destruct (max_step_spec h y Hh Hy) as [(_ & _ & ->) | [[_ ->] | [_ ->]]];
    assumption.
Qed.

Lemma max_step_upper (h y : number) :
  is_nan h = false -> is_nan y = false ->
  leb h (max_step h y) = true /\ leb y (max_step h y) = true.
Proof.
  intros Hh Hy.
  destruct (max_step_spec h y Hh Hy) as [(-> & -> & ->) | [[Hlt ->] | [Hlt ->]]].
  - split; reflexivity.
  - split; [apply SFltb_leb; exact Hlt|apply SFleb_refl; exact Hy].
  - split; [apply SFleb_refl; exact Hh|].
    apply SFltb_false_leb; assumption.
Qed.

Lemma fold_max_not_nan (V : list number) (h : number) :
  is_nan h = false -> (forall v, In v V -> is_nan v = false) ->
  is_nan (fold_left max_step V h) = false.
Proof.
  revert h. induction V as [|y V IH]; intros h Hh HV; [exact Hh|].
  simpl. apply IH.
  - apply max_step_not_nan; [exact Hh|]. apply HV. now left.
  - intros v Hv. apply HV. now right.
Qed.

Lemma fold_max_upper (V : list number) (h : number) :
  is_nan h = false -> (forall v, In v V -> is_nan v = false) ->
  leb h (fold_left max_step V h) = true /\
  forall v, In v V -> leb v (fold_left max_step V h) = true.
Proof.
  revert h. induction V as [|y V IH]; intros h Hh HV.
  - split; [apply SFleb_refl; exact Hh|intros v []].
  - simpl fold_left.
    assert (Hy : is_nan y = false) by (apply HV; now left).
    destruct (max_step_upper h y Hh Hy) as [Hhm Hym].
    destruct (IH (max_step h y) (max_step_not_nan h y Hh Hy)
                 (fun v Hv => HV v (or_intror Hv))) as [Hm Hrest].
    split.
    + eapply SFleb_trans; eassumption.
    + intros v [<- | Hv].
      * eapply SFleb_trans; eassumption.
      * apply Hrest. exact Hv.
Qed.

Lemma fold_max_choice (V : list number) (h : number) :
  is_nan h = false -> (forall v, In v V -> is_nan v = false) ->
  fold_left max_step V h = h \/ In (fold_left max_step V h) V.
Proof.
  revert h. induction V as [|y V IH]; intros h Hh HV; [now left|].
  simpl fold_left.
  assert (Hy : is_nan y = false) by (apply HV; now left).
  destruct (IH (max_step h y) (max_step_not_nan h y Hh Hy)
               (fun v Hv => HV v (or_intror Hv))) as [-> | Hin].
  - destruct (max_step_spec h y Hh Hy) as [(_ & _ & ->) | [[_ ->] | [_ ->]]].
    + right. now left.
    + right. now left.
    + now left.
  - right. now right.
Qed.

Lemma fold_max_nan (V : list number) (h : number) :
  is_nan h = true \/ (exists v, In v V /\ is_nan v = true) ->
  fold_left max_step V h = nan.
Proof.
  revert h. induction V as [|y V IH]; intros h H.
  - destruct H as [H | (v & [] & _)].
    destruct h; try discriminate. reflexivity.
  - simpl fold_left. apply IH.
    destruct H as [H | (v & [<- | Hv] & Hn)].
    + left. destruct h; try discriminate. reflexivity.
    + left. destruct y; try discriminate. rewrite max_step_nan_r. reflexivity.
    + right. exists v. split; assumption.
Qed.

(** [Math.max(...V)] is NaN as soon as one value is. *)
Lemma max_list_nan (V : list number) :
  (exists v, In v V /\ is_nan v = true) -> max_list V = nan.
Proof. intros H. apply fold_max_nan. right. exact H. Qed.

(** [Math.max(...V)] is an upper bound of [V]. *)
Lemma max_list_upper (V : list number) :
  (forall v, In v V -> is_nan v = false) ->
  forall v, In v V -> leb v (max_list V) = true.
Proof. intros HV. apply fold_max_upper; [reflexivity|exact HV]. Qed.

(** [Math.max(...V)] is one of the values of a non-empty [V]. *)
Lemma max_list_in (V : list number) :
  V <> [] -> (forall v, In v V -> is_nan v = false) ->
  In (max_list V) V.
Proof.
  intros Hne HV.
  destruct (fold_max_choice V neg_infinity eq_refl HV) as [Heq | Hin];
    [|exact Hin].
  destruct V as [|y V]; [congruence|].
  pose proof (max_list_upper (y :: V) HV y (or_introl eq_refl)) as Hle.
  unfold max_list in *. rewrite Heq in Hle |- *.
  left. destruct y as [[]|[]| |[]]; try discriminate. reflexivity.
Qed.

(** A threshold is reached by the maximum exactly when one value reaches
    it. *)
Lemma max_list_ge_iff (c : number) (V : list number) :
  V <> [] -> (forall v, In v V -> is_nan v = false) ->
  (leb c (max_list V) = true <-> exists v, In v V /\ leb c v = true).
Proof.
  intros Hne HV. split.
  - intros Hc. exists (max_list V). split; [|exact Hc].
    apply max_list_in; assumption.
  - intros (v & Hin & Hc).
    eapply SFleb_trans; [exact Hc|]. apply max_list_upper; assumption.
Qed.

Lemma maxStatValue_nonempty (V : list number) :
  V <> [] -> maxStatValue V = max_list V.
Proof. destruct V; [congruence|reflexivity]. Qed.

(** * Rates of well-formed records *)

Lemma wf_record_facts (type : StatType) (r : SystemStatsRecord) :
  wf_record type r = true ->
  finite_number (ts r) = true /\ counter (getBytes type r) = true.
Proof. unfold wf_record. rewrite andb_true_iff. tauto. Qed.

(** The rate between two well-formed records is a non-negative finite
    value. *)
Lemma rate_counter (type : StatType) (s p : SystemStatsRecord) :
  wf_record type s = true -> wf_record type p = true ->
  counter (div (deltaBytes type s p) (deltaSeconds s p)) = true.
Proof.
  intros Hs Hp.
  destruct (wf_record_facts _ _ Hs) as [Hts Hbs].
  destruct (wf_record_facts _ _ Hp) as [Htp Hbp].
  destruct (deltaSeconds_ge_one s p Hts Htp) as [Hv Hge].
  apply div_counter; [apply deltaBytes_counter| |]; assumption.
Qed.

Lemma rates_counter (convert : number -> number) (type : StatType)
    (l : list SystemStatsRecord) :
  (forall r, In r l -> wf_record type r = true) ->
  Forall (fun pt => counter (value pt) = true)
         (rate_from convert type None l).
Proof.
  intros Hwf. apply Forall_forall. intros pt Hin.
  destruct (rate_from_values convert type l None pt Hin)
    as [[_ ->] | (p & s & Hp & Hs & ->)]; [reflexivity|].
  destruct Hp as [Hp | Hp]; [discriminate|].
  apply rate_counter; apply Hwf; assumption.
Qed.

Lemma counter_not_nan (x : number) : counter x = true -> is_nan x = false.
Proof.
  intros H. destruct (counter_facts x H) as (_ & Hf & _).
  destruct x; try discriminate; reflexivity.
Qed.

(** * The unit and the axis *)

Lemma BYTES_PER_MB_pow2 : BYTES_PER_MB = pow2f 20.
Proof. reflexivity. Qed.

Lemma BYTES_PER_KB_pow2 : BYTES_PER_KB = pow2f 10.
Proof. reflexivity. Qed.

Lemma one_pow2 : Num.one = pow2f 0.
Proof. reflexivity. Qed.

(** The unit is monotone in the observed maximum. *)
Lemma choose_monotone (m1 m2 : number) :
  leb m1 m2 = true ->
  (unit_rank (fst (choose m1)) <= unit_rank (fst (choose m2)))%nat.
Proof.
  intros Hle. unfold choose, geb. change SFleb with leb.
  destruct (leb BYTES_PER_MB m1) eqn:H1.
  - rewrite (SFleb_trans _ _ _ H1 Hle : leb _ _ = true). simpl. lia.
  - destruct (leb BYTES_PER_KB m1) eqn:H2.
    + rewrite (SFleb_trans _ _ _ H2 Hle : leb _ _ = true).
      destruct (leb BYTES_PER_MB m2); simpl; lia.
    + simpl. lia.
Qed.

(** The unit only depends on which powers of two the maximum reaches. *)
Lemma choose_rank_thresholds (m1 m2 : number) :
  (leb BYTES_PER_MB m1 = true -> leb BYTES_PER_MB m2 = true) ->
  (leb BYTES_PER_KB m1 = true -> leb BYTES_PER_KB m2 = true) ->
  (unit_rank (fst (choose m1)) <= unit_rank (fst (choose m2)))%nat.
Proof.
  intros HMB HKB. unfold choose, geb. change SFleb with leb.
  destruct (leb BYTES_PER_MB m1) eqn:H1.
  - rewrite (HMB eq_refl). simpl. lia.
  - destruct (leb BYTES_PER_KB m1) eqn:H2.
    + rewrite (HKB eq_refl).
      destruct (leb BYTES_PER_MB m2); simpl; lia.
    + simpl. lia.
Qed.

Lemma ltb_zero_intro (x : number) :
  x = pos_infinity \/ (exists m e, x = S754_finite false m e) ->
  ltb zero x = true.
Proof. intros [-> | (m & e & ->)]; reflexivity. Qed.

(** [maxStatValue * 1.2] is positive for a positive maximum. *)
Lemma headroom_finite (m : positive) (e : Z) :
  valid (S754_finite false m e) = true ->
  let h := headroom (S754_finite false m e) in
  h = mul (S754_finite false m e) num_1_2 /\ valid h = true /\
  (h = pos_infinity \/ exists mh eh, h = S754_finite false mh eh).
Proof.
  intros Hv h. unfold h, headroom.
  change (eqb (S754_finite false m e) zero) with false. cbv iota.
  split; [reflexivity|].
  destruct (mul_finite_class false false m 5404319552844595 e (-52) Hv eq_refl)
    as (Hvh & _ & _).
  split; [exact Hvh|].
  apply valid_finite_facts in Hv. destruct Hv as (He & _).
  pose proof (Pos2Z.is_pos (digits2_pos m)).
  apply (mul_finite_nonzero false false m 5404319552844595 e (-52)).
  simpl digits2_pos. lia.
Qed.

(** A positive value of at least [2 ^ k] divided by [2 ^ k] is positive. *)
Lemma div_pow2_pos (h : number) (k : Z) :
  valid h = true -> -1021 <= k <= 1023 ->
  leb (pow2f k) h = true -> ltb zero (div h (pow2f k)) = true.
Proof.
  intros Hv Hk Hle.
  destruct h as [s|s| |s mh eh]; try discriminate.
  - destruct s; [discriminate|reflexivity].
  - destruct s; [discriminate|].
    apply ltb_zero_intro. unfold div, pow2f.
    apply div_pow2_nonzero.
    unfold leb, pow2f in Hle. apply SFleb_finite_pos in Hle.
    pose proof (Pos2Z.is_pos (digits2_pos mh)). lia.
Qed.

Lemma div_one_pos (h : number) :
  valid h = true ->
  h = pos_infinity \/ (exists mh eh, h = S754_finite false mh eh) ->
  ltb zero (div h Num.one) = true.
Proof.
  intros Hv [-> | (mh & eh & ->)]; [reflexivity|].
  apply ltb_zero_intro. unfold div. rewrite one_pow2. unfold pow2f.
  apply div_pow2_nonzero.
  apply valid_finite_facts in Hv. destruct Hv as (He & _).
  pose proof (Pos2Z.is_pos (digits2_pos mh)). lia.
Qed.

(** The axis maximum is positive for a non-negative maximum. *)
Lemma axis_max_positive (type : StatType) (M : number) :
  valid M = true -> leb zero M = true ->
  ltb zero (maxUnitValue (axisUnit type M)) = true.
Proof.
  intros Hv Hn.
  destruct M as [s|s| |s m e]; try discriminate.
  - destruct type, s; reflexivity.
  - destruct s; [discriminate|]. destruct type; reflexivity.
  - destruct s; [discriminate|].
    destruct (headroom_finite m e Hv) as (Hh & Hvh & Hpos).
    assert (Hnet : ltb zero (div (headroom (S754_finite false m e))
                     (snd (choose (S754_finite false m e)))) = true).
    { unfold choose, geb. change SFleb with leb.
      destruct (leb BYTES_PER_MB (S754_finite false m e)) eqn:HMB.
      - simpl snd. rewrite BYTES_PER_MB_pow2 in *.
        apply div_pow2_pos; [exact Hvh|lia|].
        rewrite Hh. apply mul_1_2_ge_pow2; [exact Hv|lia|exact HMB].
      - destruct (leb BYTES_PER_KB (S754_finite false m e)) eqn:HKB.
        + simpl snd. rewrite BYTES_PER_KB_pow2 in *.
          apply div_pow2_pos; [exact Hvh|lia|].
          rewrite Hh. apply mul_1_2_ge_pow2; [exact Hv|lia|exact HKB].
        + simpl snd. apply div_one_pos; assumption. }
    destruct type; try reflexivity; try exact Hnet.
    simpl. apply ltb_zero_intro. exact Hpos.
Qed.

(** * The series of each kind *)

Section SeriesShape.

Variable convert : number -> number.

(** C5: for every record sequence, the Load Average kind produces exactly
    three series labelled "1m", "5m", "15m" in that order, whose values are
    [load_average.one], [.five] and [.fifteen] of each record, [0] when the
    load average is absent; every other kind produces exactly one series,
    labelled by the kind.  (Non-emptiness of the sequence is not needed.) *)
Theorem C5_series_count (stats : list SystemStatsRecord) :
  let point (proj : SystemLoadAverage -> number) (s : SystemStatsRecord) :=
    {| date := convert (ts s);
       value := match load_average s with
                | Some la => proj la
                | None => zero
                end |} in
  seriesData convert (Some stats) LoadAverage =
    Normal [ {| label := "1m"; data := map (point one) (rev stats) |};
             {| label := "5m"; data := map (point five) (rev stats) |};
             {| label := "15m"; data := map (point fifteen) (rev stats) |} ]
  /\ Forall (fun type =>
       exists pts, seriesData convert (Some stats) type =
                   Normal [ {| label := StatType_string type; data := pts |} ])
     [Cpu; Memory; Disk; NetworkIngress; NetworkEgress].
Proof.
  cbv zeta. split.
  - assert (Hload : forall proj records,
              load_series convert proj records =
              map (fun s => {| date := convert (ts s);
                               value := match load_average s with
                                        | Some la => proj la
                                        | None => zero
                                        end |}) records).
    { intros proj records. unfold load_series, load_value.
      apply map_ext. intros s. destruct (load_average s); reflexivity. }
    unfold seriesData. rewrite !Hload. reflexivity.
  - repeat constructor; try (eexists; reflexivity);
      unfold seriesData; rewrite rate_eq; eexists; reflexivity.
Qed.

(** C6: for every record sequence and every kind, the series are as many as
    the kind has (three for Load Average, one otherwise) and each holds
    exactly one point per record; point [i] of a series is derived from
    record [i] of the reversed sequence: its date is the converted timestamp
    of that record, so the dates follow the reversed sequence index by index,
    and its value is the reading of that record for the kind (the truthy
    [cpu_perc] or [0]; [100 * used / total] for memory and disk; the load
    average of the series or [0]; for the two network kinds [0] at index 0
    and otherwise the rate from record [i - 1] to record [i]). *)
Theorem C6_one_point_per_record (stats : list SystemStatsRecord)
    (type : StatType) :
  let records := rev stats in
  let rate_value (bytes : SystemStatsRecord -> number)
        (prev : option SystemStatsRecord) (r : SystemStatsRecord) : number :=
    match prev with
    | None => zero
    | Some p =>
        div (Num.max zero (sub (bytes r) (bytes p)))
            (Num.max Num.one (div (sub (ts r) (ts p)) num_1000))
    end in
  let derived (k : nat) (prev : option SystemStatsRecord)
        (r : SystemStatsRecord) : number :=
    match type with
    | Cpu => or_else (cpu_perc r) zero
    | Memory => div (mul num_100 (mem_used_gb r)) (mem_total_gb r)
    | Disk => div (mul num_100 (disk_used_gb r)) (disk_total_gb r)
    | NetworkIngress =>
        rate_value (fun s => nullish (network_ingress_bytes s) zero) prev r
    | NetworkEgress =>
        rate_value (fun s => nullish (network_egress_bytes s) zero) prev r
    | LoadAverage =>
        match load_average r with
        | Some la => nth k [one la; five la] (fifteen la)
        | None => zero
        end
    end in
  exists series,
    seriesData convert (Some stats) type = Normal series /\
    map label series =
      match type with
      | LoadAverage => ["1m"%string; "5m"%string; "15m"%string]
      | _ => [StatType_string type]
      end /\
    Forall (fun s =>
              List.length (data s) = List.length stats /\
              map date (data s) = map (fun r => convert (ts r)) records)
           series /\
    forall (k : nat) (s : Series) (i : nat) (r : SystemStatsRecord),
      nth_error series k = Some s ->
      nth_error records i = Some r ->
      nth_error (data s) i =
      Some {| date := convert (ts r);
              value := derived k match i with
                                 | O => None
                                 | S j => nth_error records j
                                 end r |}.
Proof.
  cbv zeta.
  assert (Hlen : List.length (rev stats) = List.length stats)
    by apply length_rev.
  assert (Hprev : forall i r, nth_error (rev stats) (S i) = Some r ->
                              exists p, nth_error (rev stats) i = Some p).
  { intros i r Hr.
    destruct (nth_error (rev stats) i) as [p|] eqn:Hp; [exists p; reflexivity|].
    apply nth_error_None in Hp.
    assert (Hs : nth_error (rev stats) (S i) <> None) by congruence.
    apply nth_error_Some in Hs. lia. }
  assert (Hrate : forall ty i r,
            nth_error (rev stats) i = Some r ->
            nth_error (rate_from convert ty None (rev stats)) i =
            Some {| date := convert (ts r);
                    value := match match i with
                                   | O => None
                                   | S j => nth_error (rev stats) j
                                   end with
                             | None => zero
                             | Some p => div (deltaBytes ty r p)
                                             (deltaSeconds r p)
                             end |}).
  { intros ty [|j] r Hr.
    - apply rate_from_nth_0. exact Hr.
    - destruct (Hprev j r Hr) as [p Hp]. rewrite Hp.
      apply (rate_from_nth_S convert ty _ None j p r Hp Hr). }
  destruct type; unfold seriesData; try rewrite rate_eq; simpl bind;
    eexists; (split; [reflexivity|]); (split; [reflexivity|]);
    (split;
     [ repeat constructor; simpl data; unfold load_series;
       rewrite ?length_map, ?rate_from_length, ?map_map, ?rate_from_dates;
       try exact Hlen; reflexivity
     | intros k s i r Hk Hr ]).
  - destruct k as [|k]; [|destruct k; discriminate].
    injection Hk as <-. simpl data.
    erewrite map_nth_error by exact Hr. reflexivity.
  - destruct k as [|k]; [|destruct k; discriminate].
    injection Hk as <-. simpl data.
    erewrite map_nth_error by exact Hr. reflexivity.
  - destruct k as [|k]; [|destruct k; discriminate].
    injection Hk as <-. simpl data.
    erewrite map_nth_error by exact Hr. reflexivity.
  - destruct k as [|k]; [|destruct k; discriminate].
    injection Hk as <-. simpl data.
    rewrite (Hrate NetworkIngress i r Hr).
    destruct i as [|j]; [reflexivity|].
    destruct (nth_error (rev stats) j); reflexivity.
  - destruct k as [|k]; [|destruct k; discriminate].
    injection Hk as <-. simpl data.
    rewrite (Hrate NetworkEgress i r Hr).
    destruct i as [|j]; [reflexivity|].
    destruct (nth_error (rev stats) j); reflexivity.
  - destruct k as [|[|[|k]]]; [| | |destruct k; discriminate];
      injection Hk as <-; simpl data; unfold load_series;
      (erewrite map_nth_error by exact Hr); unfold load_value;
      destruct (load_average r); reflexivity.
Qed.

(** C9: the three Load Average series are parallel: equal lengths and, index
    by index, identical dates. *)
Theorem C9_load_series_parallel (stats : list SystemStatsRecord) :
  exists s1 s5 s15,
    seriesData convert (Some stats) LoadAverage = Normal [s1; s5; s15] /\
    List.length (data s1) = List.length (data s5) /\
    List.length (data s5) = List.length (data s15) /\
    map date (data s1) = map date (data s5) /\
    map date (data s5) = map date (data s15).
Proof.
  do 3 eexists. split; [reflexivity|]. simpl data. unfold load_series.
  rewrite !length_map, !map_map. repeat split; reflexivity.
Qed.

(** C8 (as the code behaves): without the stats ([data?.stats] undefined)
    the series list is empty and nothing is rendered; for an empty record
    sequence no error is raised and there is one series (three for Load
    Average), each without points, and the chart is rendered. *)
Theorem C8_empty_input (type : StatType) :
  seriesData convert None type = Normal [] /\
  StatChart convert false None type = Normal Nothing /\
  exists series,
    seriesData convert (Some []) type = Normal series /\
    List.length series = match type with LoadAverage => 3%nat | _ => 1%nat end /\
    Forall (fun s => data s = []) series /\
    StatChart convert false (Some []) type =
      Normal (Chart (InnerStatChart type (Some []) (Some series))).
Proof.
  split; [reflexivity|]. split; [reflexivity|].
  destruct type; eexists; (split; [reflexivity|]);
    (split; [reflexivity|]); (split; [repeat constructor|reflexivity]).
Qed.

End SeriesShape.

(** C8 (as stated): an empty record sequence yields one series, not an empty
    series list. *)
Lemma C8_counterexample :
  seriesData (fun t => t) (Some []) Cpu = Normal [ {| label := "Cpu"; data := [] |} ]
  /\ seriesData (fun t => t) (Some []) Cpu <> Normal [].
Proof. split; [reflexivity|discriminate]. Qed.

(** * The network rate *)

Section NetworkRate.

Variable convert : number -> number.

Lemma leb_zero_not_negative (v : number) :
  is_nan v = true \/ leb zero v = true -> ltb v zero = false.
Proof.
  destruct v as [[]|[]| |[] m e]; intros [H | H]; try discriminate;
    reflexivity.
Qed.

Lemma network_seriesData (type : StatType) (stats : list SystemStatsRecord) :
  is_network type = true ->
  seriesData convert (Some stats) type =
  Normal [ {| label := StatType_string type;
              data := rate_from convert type None (rev stats) |} ].
Proof.
  intros Hnet. destruct type; try discriminate;
    unfold seriesData; rewrite rate_eq; reflexivity.
Qed.

(** C1: for the two network kinds the rate series has, on the reversed
    records, value [0] at index 0 and, at every later index, the byte delta
    clamped at 0 divided by the interval in seconds floored at 1; no rate is
    negative (each is non-negative or, for operands that are not numbers,
    NaN), and every rate of records with finite timestamps and non-negative
    finite counters is non-negative. *)
Theorem C1_network_rate (type : StatType) (stats : list SystemStatsRecord) :
  is_network type = true ->
  exists pts,
    seriesData convert (Some stats) type =
      Normal [ {| label := StatType_string type; data := pts |} ] /\
    List.length pts = List.length stats /\
    (forall s, nth_error (rev stats) 0 = Some s ->
       nth_error pts 0 = Some {| date := convert (ts s); value := zero |}) /\
    (forall i prev s,
       nth_error (rev stats) i = Some prev ->
       nth_error (rev stats) (S i) = Some s ->
       nth_error pts (S i) =
       Some {| date := convert (ts s);
               value :=
                 div (Num.max zero (sub (getBytes type s) (getBytes type prev)))
                     (Num.max Num.one (div (sub (ts s) (ts prev)) num_1000)) |}) /\
    Forall (fun pt => ltb (value pt) zero = false /\
                      (is_nan (value pt) = true \/ leb zero (value pt) = true))
           pts /\
    ((forall r, In r stats -> wf_record type r = true) ->
     Forall (fun pt => leb zero (value pt) = true) pts).
Proof.
  intros Hnet. exists (rate_from convert type None (rev stats)).
  split; [apply network_seriesData; exact Hnet|].
  split; [rewrite rate_from_length; apply length_rev|].
  split; [intros s Hs; apply rate_from_nth_0; exact Hs|].
  split; [intros i prev s Hp Hs;
          apply (rate_from_nth_S convert type _ None i prev s Hp Hs)|].
  split.
  - apply Forall_forall. intros pt Hin.
    assert (Hnn : is_nan (value pt) = true \/ leb zero (value pt) = true).
    { destruct (rate_from_values convert type _ None pt Hin)
        as [[_ ->] | (p & s & _ & _ & ->)].
      - right. reflexivity.
      - apply clamped_div_nonneg. }
    split; [apply leb_zero_not_negative; exact Hnn|exact Hnn].
  - intros Hwf.
    eapply Forall_impl; [|apply rates_counter].
    + intros pt Hc. apply counter_facts in Hc. tauto.
    + intros r Hr. apply Hwf. apply in_rev. exact Hr.
Qed.

(** C10 (as the code behaves): for records with finite timestamps and finite
    non-negative byte counters, every computed rate is a finite number, and
    the divisor is at least 1, hence never zero, for every pair of records,
    whatever the order of their timestamps.  The counters have to be
    non-negative: finite counters of opposite signs can overflow the byte
    delta. *)
Theorem C10_rates_finite (type : StatType) (stats : list SystemStatsRecord) :
  is_network type = true ->
  (forall r, In r stats -> wf_record type r = true) ->
  exists pts,
    seriesData convert (Some stats) type =
      Normal [ {| label := StatType_string type; data := pts |} ] /\
    Forall (fun pt => is_finite (value pt) = true) pts /\
    Forall (fun s =>
              Forall (fun prev =>
                        leb Num.one (deltaSeconds s prev) = true /\
                        eqb (deltaSeconds s prev) zero = false)
                     stats)
           stats.
Proof.
  intros Hnet Hwf. exists (rate_from convert type None (rev stats)).
  split; [apply network_seriesData; exact Hnet|]. split.
  - eapply Forall_impl; [|apply rates_counter].
    + intros pt Hc. apply counter_facts in Hc. tauto.
    + intros r Hr. apply Hwf. apply in_rev. exact Hr.
  - apply Forall_forall. intros s Hs. apply Forall_forall. intros p Hp.
    destruct (wf_record_facts _ _ (Hwf s Hs)) as [Hts _].
    destruct (wf_record_facts _ _ (Hwf p Hp)) as [Htp _].
    destruct (deltaSeconds_ge_one s p Hts Htp) as [_ Hge].
    split; [exact Hge|].
    destruct (deltaSeconds s p) as [[]|[]| |[] m e]; try discriminate;
      reflexivity.
Qed.

End NetworkRate.

(** * The unit and the axis maximum *)

Lemma allValues_series (stats : option (list StatDatapoint))
    (series : list Series) :
  allValues stats (Some series) =
  flat_map (fun s => map value (data s)) series.
Proof. reflexivity. Qed.

Lemma maxStatValue_props (V : list number) :
  (forall v, In v V -> is_nan v = false) ->
  (V = [] /\ maxStatValue V = zero) \/
  (V <> [] /\ In (maxStatValue V) V /\
   forall v, In v V -> leb v (maxStatValue V) = true).
Proof.
  intros HV. destruct V as [|y V]; [left; split; reflexivity|].
  right. split; [discriminate|].
  rewrite maxStatValue_nonempty by discriminate.
  split; [apply max_list_in; [discriminate|exact HV]|].
  apply max_list_upper. exact HV.
Qed.

(** C2: for the two network kinds the unit is chosen once, from the maximum
    of all values ([0] when there is none): MB/s with divisor 1048576 from
    1048576 on, else KB/s with divisor 1024 from 1024 on, else B/s with
    divisor 1; every plotted value is the stored value divided by that one
    divisor. *)
Theorem C2_unit_selection (type : StatType)
    (stats : option (list StatDatapoint)) (series : list Series) :
  is_network type = true ->
  let chart := InnerStatChart type stats (Some series) in
  let V := flat_map (fun s => map value (data s)) series in
  let maxRate := maxStatValue V in
  (V = [] -> maxRate = zero) /\
  ((exists v, In v V /\ is_nan v = true) -> maxRate = nan) /\
  (V <> [] -> (forall v, In v V -> is_nan v = false) ->
   In maxRate V /\ forall v, In v V -> leb v maxRate = true) /\
  (unit (axis chart), unitDivisor (axis chart)) =
    (if geb maxRate BYTES_PER_MB then (MB_per_s, BYTES_PER_MB)
     else if geb maxRate BYTES_PER_KB then (KB_per_s, BYTES_PER_KB)
     else (B_per_s, Num.one)) /\
  plotted chart =
    map (fun s => (label s,
                   map (fun d => div (value d) (unitDivisor (axis chart)))
                       (data s)))
        series.
Proof.
  intros Hnet chart V maxRate.
  split; [intros HV; unfold maxRate; rewrite HV; reflexivity|].
  split.
  { intros Hnan. unfold maxRate.
    rewrite maxStatValue_nonempty.
    - apply max_list_nan. exact Hnan.
    - destruct Hnan as (v & Hin & _). intros HV. rewrite HV in Hin.
      contradiction. }
  split.
  { intros Hne HV.
    destruct (maxStatValue_props V HV) as [[HV0 _] | (_ & Hin & Hub)];
      [contradiction|]. split; assumption. }
  assert (Hax : axis chart = axisUnit type maxRate) by reflexivity.
  split.
  - rewrite Hax. destruct type; try discriminate;
      unfold axisUnit, choose; simpl unit; simpl unitDivisor;
      destruct (geb maxRate BYTES_PER_MB); try reflexivity;
      destruct (geb maxRate BYTES_PER_KB); reflexivity.
  - unfold chart, InnerStatChart. simpl plotted.
    apply map_ext. intros s. f_equal. apply map_ext. intros d.
    destruct type; try discriminate; reflexivity.
Qed.

(** C3: the axis maximum is [(maxRate === 0 ? 1 : maxRate * 1.2) / divisor]
    for the two network kinds and [maxValue === 0 ? 1 : maxValue * 1.2] for
    Load Average, the maximum being taken over the points of all the series
    together; for values that are non-negative numbers, all-zero values
    included, it is strictly positive. *)
Theorem C3_axis_max_positive (type : StatType)
    (stats : option (list StatDatapoint)) (series : list Series) :
  (forall s pt, In s series -> In pt (data s) ->
     valid (value pt) = true /\ leb zero (value pt) = true) ->
  let ax := axis (InnerStatChart type stats (Some series)) in
  let maxValue :=
    maxStatValue (flat_map (fun s => map value (data s)) series) in
  maxUnitValue ax =
    match type with
    | NetworkIngress | NetworkEgress =>
        div (if eqb maxValue zero then Num.one else mul maxValue num_1_2)
            (unitDivisor ax)
    | LoadAverage => if eqb maxValue zero then Num.one else mul maxValue num_1_2
    | _ => num_100
    end /\
  Forall (fun s => Forall (fun pt => leb (value pt) maxValue = true) (data s))
         series /\
  ltb zero (maxUnitValue ax) = true.
Proof.
  intros Hvals ax maxValue.
  set (V := flat_map (fun s => map value (data s)) series) in *.
  assert (HV : forall v, In v V -> valid v = true /\ leb zero v = true).
  { intros v Hv. unfold V in Hv. apply in_flat_map in Hv.
    destruct Hv as (s & Hs & Hv). apply in_map_iff in Hv.
    destruct Hv as (pt & <- & Hpt). apply (Hvals s pt Hs Hpt). }
  assert (HVn : forall v, In v V -> is_nan v = false).
  { intros v Hv. destruct (HV v Hv) as [_ Hle].
    apply SFleb_not_nan in Hle. tauto. }
  split; [destruct type; reflexivity|]. split.
  - apply Forall_forall. intros s Hs. apply Forall_forall. intros pt Hpt.
    assert (Hin : In (value pt) V).
    { unfold V. apply in_flat_map. exists s. split; [exact Hs|].
      apply in_map. exact Hpt. }
    destruct (maxStatValue_props V HVn) as [[HV0 _] | (_ & _ & Hub)].
    + rewrite HV0 in Hin. contradiction.
    + apply Hub. exact Hin.
  - change (maxUnitValue ax) with (maxUnitValue (axisUnit type maxValue)).
    destruct (maxStatValue_props V HVn) as [[_ HM] | (_ & Hin & _)].
    + unfold maxValue. rewrite HM. destruct type; reflexivity.
    + destruct (HV _ Hin) as [Hv Hle].
      apply axis_max_positive; assumption.
Qed.

(** * Monotonicity of the unit *)

Section UnitMonotone.

Variable convert : number -> number.
Variable type : StatType.

Lemma nth_error_lt {A : Type} (l : list A) (n : nat) :
  (n < List.length l)%nat -> exists x, nth_error l n = Some x.
Proof.
  intros Hn. destruct (nth_error l n) as [x|] eqn:E; [eauto|].
  apply nth_error_None in E. lia.
Qed.

Lemma nth_error_ts (l1 l2 : list SystemStatsRecord) (n : nat)
    (r1 r2 : SystemStatsRecord) :
  map ts l1 = map ts l2 ->
  nth_error l1 n = Some r1 -> nth_error l2 n = Some r2 -> ts r1 = ts r2.
Proof.
  intros Hts H1 H2.
  assert (H : nth_error (map ts l1) n = nth_error (map ts l2) n)
    by (rewrite Hts; reflexivity).
  rewrite !nth_error_map, H1, H2 in H. simpl in H. congruence.
Qed.

(** A power of two reached by the largest rate of the first sequence is
    reached by the largest rate of the second. *)
Lemma rates_threshold_transfer (l1 l2 : list SystemStatsRecord) (k : Z) :
  (forall r, In r l1 -> wf_record type r = true) ->
  (forall r, In r l2 -> wf_record type r = true) ->
  map ts l1 = map ts l2 ->
  (forall i p1 s1 p2 s2,
     nth_error l1 i = Some p1 -> nth_error l1 (S i) = Some s1 ->
     nth_error l2 i = Some p2 -> nth_error l2 (S i) = Some s2 ->
     leb (deltaBytes type s1 p1) (deltaBytes type s2 p2) = true) ->
  -1021 <= k <= 1023 ->
  leb (pow2f k)
      (maxStatValue (map value (rate_from convert type None l1))) = true ->
  leb (pow2f k)
      (maxStatValue (map value (rate_from convert type None l2))) = true.
Proof.
  intros Hwf1 Hwf2 Hts Hdelta Hk Hc.
  set (R1 := rate_from convert type None l1) in *.
  set (R2 := rate_from convert type None l2) in *.
  assert (Hlen : List.length l1 = List.length l2).
  { rewrite <- (length_map ts l1), Hts. apply length_map. }
  assert (Hnan : forall l, (forall r, In r l -> wf_record type r = true) ->
            forall v, In v (map value (rate_from convert type None l)) ->
            is_nan v = false).
  { intros l Hwf v Hv. apply in_map_iff in Hv. destruct Hv as (pt & <- & Hpt).
    apply counter_not_nan.
    pose proof (rates_counter convert type l Hwf) as HF.
    rewrite Forall_forall in HF. apply HF. exact Hpt. }
  destruct (map value R1) as [|y V1] eqn:HV1; [discriminate Hc|].
  rewrite maxStatValue_nonempty in Hc by discriminate.
  rewrite <- HV1 in Hc.
  apply max_list_ge_iff in Hc;
    [|rewrite HV1; discriminate|apply Hnan; exact Hwf1].
  destruct Hc as (v & Hv & Hcv).
  apply in_map_iff in Hv. destruct Hv as (pt & <- & Hpt).
  apply In_nth_error in Hpt. destruct Hpt as (j & Hj).
  assert (Hjlt : (j < List.length l1)%nat).
  { rewrite <- (rate_from_length convert type l1 None).
    apply nth_error_Some. fold R1. congruence. }
  destruct j as [|i].
  - exfalso. destruct (nth_error_lt l1 0 Hjlt) as (s & Hs).
    pose proof (rate_from_nth_0 convert type l1 s Hs) as H0.
    fold R1 in H0. rewrite Hj in H0. injection H0 as ->.
    discriminate Hcv.
  - destruct (nth_error_lt l1 (S i) Hjlt) as (s1 & Hs1).
    destruct (nth_error_lt l1 i ltac:(lia)) as (p1 & Hp1).
    destruct (nth_error_lt l2 (S i) ltac:(lia)) as (s2 & Hs2).
    destruct (nth_error_lt l2 i ltac:(lia)) as (p2 & Hp2).
    pose proof (rate_from_nth_S convert type l1 None i p1 s1 Hp1 Hs1) as H1.
    pose proof (rate_from_nth_S convert type l2 None i p2 s2 Hp2 Hs2) as H2.
    fold R1 in H1. fold R2 in H2.
    rewrite Hj in H1. injection H1 as ->. simpl value in Hcv.
    assert (HS : deltaSeconds s1 p1 = deltaSeconds s2 p2).
    { unfold deltaSeconds.
      rewrite (nth_error_ts l1 l2 (S i) s1 s2 Hts Hs1 Hs2).
      rewrite (nth_error_ts l1 l2 i p1 p2 Hts Hp1 Hp2). reflexivity. }
    rewrite HS in Hcv.
    pose proof (Hwf1 _ (nth_error_In _ _ Hs1)) as Ws1.
    pose proof (Hwf1 _ (nth_error_In _ _ Hp1)) as Wp1.
    pose proof (Hwf2 _ (nth_error_In _ _ Hs2)) as Ws2.
    pose proof (Hwf2 _ (nth_error_In _ _ Hp2)) as Wp2.
    destruct (wf_record_facts _ _ Ws1) as [_ Cs1].
    destruct (wf_record_facts _ _ Wp1) as [_ Cp1].
    destruct (wf_record_facts _ _ Ws2) as [Ts2 Cs2].
    destruct (wf_record_facts _ _ Wp2) as [Tp2 Cp2].
    destruct (deltaSeconds_ge_one s2 p2 Ts2 Tp2) as [HvS HgeS].
    pose proof (rate_threshold_mono
                  (deltaBytes type s1 p1) (deltaBytes type s2 p2)
                  (deltaSeconds s2 p2) k
                  (deltaBytes_counter type s1 p1 Cs1 Cp1)
                  (deltaBytes_counter type s2 p2 Cs2 Cp2)
                  (Hdelta i p1 s1 p2 s2 Hp1 Hs1 Hp2 Hs2)
                  HvS HgeS Hk Hcv) as Hc2.
    assert (Hin2 : In (div (deltaBytes type s2 p2) (deltaSeconds s2 p2))
                      (map value R2)).
    { apply in_map_iff. eexists. split; [|eapply nth_error_In; exact H2].
      reflexivity. }
    assert (Hne2 : map value R2 <> []).
    { intros E. rewrite E in Hin2. contradiction. }
    rewrite maxStatValue_nonempty by exact Hne2.
    apply max_list_ge_iff; [exact Hne2|apply Hnan; exact Hwf2|].
    eexists. split; [exact Hin2|exact Hc2].
Qed.

(** C7: the unit is monotone in the maximum rate, and for two record
    sequences with the same timestamps, finite timestamps and non-negative
    finite counters, whose clamped byte deltas are pointwise at least as
    large in the second, the unit chosen for the second is never a smaller
    one. *)
Theorem C7_unit_monotone (stats1 stats2 : list SystemStatsRecord) :
  is_network type = true ->
  (forall r, In r stats1 -> wf_record type r = true) ->
  (forall r, In r stats2 -> wf_record type r = true) ->
  map ts stats1 = map ts stats2 ->
  (forall i p1 s1 p2 s2,
     nth_error (rev stats1) i = Some p1 ->
     nth_error (rev stats1) (S i) = Some s1 ->
     nth_error (rev stats2) i = Some p2 ->
     nth_error (rev stats2) (S i) = Some s2 ->
     leb (deltaBytes type s1 p1) (deltaBytes type s2 p2) = true) ->
  (forall maxRate1 maxRate2, leb maxRate1 maxRate2 = true ->
     (unit_rank (fst (choose maxRate1)) <= unit_rank (fst (choose maxRate2)))%nat)
  /\
  exists series1 series2,
    seriesData convert (Some stats1) type = Normal series1 /\
    seriesData convert (Some stats2) type = Normal series2 /\
    (unit_rank (unit (axis (InnerStatChart type
                              (Some (flat_map data series1)) (Some series1))))
     <= unit_rank (unit (axis (InnerStatChart type
                              (Some (flat_map data series2)) (Some series2)))))%nat.
Proof.
  intros Hnet Hwf1 Hwf2 Hts Hdelta.
  split; [intros m1 m2; apply choose_monotone|].
  do 2 eexists.
  split; [apply network_seriesData; exact Hnet|].
  split; [apply network_seriesData; exact Hnet|].
  assert (Hunit : forall R,
            unit (axis (InnerStatChart type
                          (Some (flat_map data
                             [ {| label := StatType_string type; data := R |} ]))
                          (Some [ {| label := StatType_string type; data := R |} ])))
            = fst (choose (maxStatValue (map value R)))).
  { intros R. unfold InnerStatChart, allValues.
    cbn [axis flat_map data]. rewrite app_nil_r.
    destruct type; try discriminate; reflexivity. }
  rewrite !Hunit.
  assert (Hts' : map ts (rev stats1) = map ts (rev stats2))
    by (rewrite !map_rev, Hts; reflexivity).
  assert (Hwf1' : forall r, In r (rev stats1) -> wf_record type r = true)
    by (intros r Hr; apply Hwf1, in_rev; exact Hr).
  assert (Hwf2' : forall r, In r (rev stats2) -> wf_record type r = true)
    by (intros r Hr; apply Hwf2, in_rev; exact Hr).
  apply choose_rank_thresholds.
  - rewrite BYTES_PER_MB_pow2.
    apply rates_threshold_transfer; try assumption. lia.
  - rewrite BYTES_PER_KB_pow2.
    apply rates_threshold_transfer; try assumption. lia.
Qed.

End UnitMonotone.

(** * Memory and disk percentages *)

(** [100 * used / 0] is NaN for a zero or NaN [used] and an infinity
    otherwise. *)
Lemma percent_of_zero_total (used : number) (st : bool) :
  valid used = true ->
  div (mul num_100 used) (S754_zero st) =
  match used with
  | S754_zero _ | S754_nan => nan
  | _ => S754_infinity (xorb (sign used) st)
  end.
Proof.
  intros Hv. destruct used as [su|su| |su m e]; try reflexivity.
  apply valid_finite_facts in Hv. destruct Hv as (He & _).
  pose proof (Pos2Z.is_pos (digits2_pos m)).
  destruct (mul_finite_nonzero false su 7036874417766400 m (-46) e)
    as [Hm | (m' & e' & Hm)].
  - simpl digits2_pos. lia.
  - unfold mul, num_100, div. rewrite Hm. reflexivity.
  - unfold mul, num_100, div. rewrite Hm. reflexivity.
Qed.

Section Percent.

Variable convert : number -> number.

(** C4 (as the code behaves): for Memory, and in the same way for Disk, the
    value of every record is [100 * used / total] with no special case; for
    a total of [0] it is NaN when [used] is [0] or NaN and otherwise an
    infinity, with the sign of [used] (flipped when the total is [-0]). *)
Theorem C4_percent_of_total (stats : list SystemStatsRecord)
    (r : SystemStatsRecord) (st st' : bool) :
  valid (mem_used_gb r) = true -> valid (disk_used_gb r) = true ->
  mem_total_gb r = S754_zero st -> disk_total_gb r = S754_zero st' ->
  seriesData convert (Some stats) Memory =
    Normal [ {| label := "Memory";
                data := map (fun s =>
                               {| date := convert (ts s);
                                  value := div (mul num_100 (mem_used_gb s))
                                               (mem_total_gb s) |})
                            (rev stats) |} ] /\
  seriesData convert (Some stats) Disk =
    Normal [ {| label := "Disk";
                data := map (fun s =>
                               {| date := convert (ts s);
                                  value := div (mul num_100 (disk_used_gb s))
                                               (disk_total_gb s) |})
                            (rev stats) |} ] /\
  getStat r Memory =
    match mem_used_gb r with
    | S754_zero _ | S754_nan => nan
    | _ => S754_infinity (xorb (sign (mem_used_gb r)) st)
    end /\
  getStat r Disk =
    match disk_used_gb r with
    | S754_zero _ | S754_nan => nan
    | _ => S754_infinity (xorb (sign (disk_used_gb r)) st')
    end.
Proof.
  intros Hvm Hvd Htm Htd.
  split; [reflexivity|]. split; [reflexivity|].
  unfold getStat. rewrite Htm, Htd.
  split; apply percent_of_zero_total; assumption.
Qed.

End Percent.

(** * The statements at the examples *)

(** C4 (as stated): with 2 GB used of a total of [0] the value is
    [+Infinity], which is not NaN. *)
Lemma C4_counterexample :
  mem_total_gb zero_total = zero /\
  getStat zero_total Memory = pos_infinity /\
  is_nan (getStat zero_total Memory) = false.
Proof. repeat split. Qed.

(** C10 (as stated): finite byte counters and timestamps do not make every
    rate finite.  For two records one second apart whose counters are the
    largest finite number and its opposite, the divisor is at least 1 but
    the byte delta overflows, and the rate is [+Infinity]. *)
Lemma C10_counterexample :
  Forall (fun r => finite_number (ts r) = true /\
                   finite_number (getBytes NetworkIngress r) = true)
         scenario_overflow /\
  Forall (fun s =>
            Forall (fun prev => leb Num.one (deltaSeconds s prev) = true)
                   scenario_overflow)
         scenario_overflow /\
  seriesData (fun t => t) (Some scenario_overflow) NetworkIngress =
    Normal [ {| label := "Network Ingress";
                data := [ {| date := of_Z 0; value := zero |};
                          {| date := of_Z 1000; value := pos_infinity |} ] |} ]
  /\ is_finite pos_infinity = false.
Proof.
  split; [repeat constructor|]. split; [repeat constructor|].
  split; reflexivity.
Qed.

(** C1 at the scenario of the spec. *)
Lemma C1_witness :
  is_network NetworkIngress = true /\
  exists pts : list StatDatapoint,
    seriesData (fun t : number => t) (Some scenario) NetworkIngress =
      Normal [ {| label := StatType_string NetworkIngress; data := pts |} ] /\
    List.length pts = List.length scenario /\
    (forall s : SystemStatsRecord,
       nth_error (rev scenario) 0 = Some s ->
       nth_error pts 0 = Some {| date := ts s; value := zero |}) /\
    (forall (i : nat) (prev s : SystemStatsRecord),
       nth_error (rev scenario) i = Some prev ->
       nth_error (rev scenario) (S i) = Some s ->
       nth_error pts (S i) =
       Some {| date := ts s;
               value :=
                 div (Num.max zero
                        (sub (getBytes NetworkIngress s)
                             (getBytes NetworkIngress prev)))
                     (Num.max Num.one (div (sub (ts s) (ts prev)) num_1000)) |}) /\
    Forall (fun pt : StatDatapoint =>
              ltb (value pt) zero = false /\
              (is_nan (value pt) = true \/ leb zero (value pt) = true))
           pts /\
    ((forall r : SystemStatsRecord,
        In r scenario -> wf_record NetworkIngress r = true) ->
     Forall (fun pt : StatDatapoint => leb zero (value pt) = true) pts).
Proof.
  split; [reflexivity|].
  apply (C1_network_rate (fun t => t) NetworkIngress scenario).
  reflexivity.
Defined.

(** C2 at the series of the scenario. *)
Lemma C2_witness :
  is_network NetworkIngress = true /\
  let chart := InnerStatChart NetworkIngress None (Some scenario_series) in
  let V := flat_map (fun s : Series => map value (data s)) scenario_series in
  let maxRate := maxStatValue V in
  (V = [] -> maxRate = zero) /\
  ((exists v : number, In v V /\ is_nan v = true) -> maxRate = nan) /\
  (V <> [] ->
   (forall v : number, In v V -> is_nan v = false) ->
   In maxRate V /\ (forall v : number, In v V -> leb v maxRate = true)) /\
  (unit (axis chart), unitDivisor (axis chart)) =
    (if geb maxRate BYTES_PER_MB then (MB_per_s, BYTES_PER_MB)
     else if geb maxRate BYTES_PER_KB then (KB_per_s, BYTES_PER_KB)
     else (B_per_s, Num.one)) /\
  plotted chart =
    map (fun s : Series =>
           (label s,
            map (fun d : StatDatapoint =>
                   div (value d) (unitDivisor (axis chart)))
                (data s)))
        scenario_series.
Proof.
  split; [reflexivity|].
  apply (C2_unit_selection NetworkIngress None scenario_series).
  reflexivity.
Defined.

(** C3 at the series of the scenario. *)
Lemma C3_witness :
  (forall (s : Series) (pt : StatDatapoint),
     In s scenario_series -> In pt (data s) ->
     valid (value pt) = true /\ leb zero (value pt) = true) /\
  let ax := axis (InnerStatChart NetworkIngress None (Some scenario_series)) in
  let maxValue :=
    maxStatValue
      (flat_map (fun s : Series => map value (data s)) scenario_series) in
  maxUnitValue ax =
    div (if eqb maxValue zero then Num.one else mul maxValue num_1_2)
        (unitDivisor ax) /\
  Forall (fun s : Series =>
            Forall (fun pt : StatDatapoint => leb (value pt) maxValue = true)
                   (data s))
         scenario_series /\
  ltb zero (maxUnitValue ax) = true.
Proof.
  assert (H : forall (s : Series) (pt : StatDatapoint),
            In s scenario_series -> In pt (data s) ->
            valid (value pt) = true /\ leb zero (value pt) = true).
  { intros s pt [<-|[]] [<-|[<-|[<-|[]]]]; split; reflexivity. }
  split; [exact H|].
  apply (C3_axis_max_positive NetworkIngress None scenario_series H).
Defined.

(** C4 at a record whose totals are zero. *)
Lemma C4_witness :
  valid (mem_used_gb zero_total) = true /\
  valid (disk_used_gb zero_total) = true /\
  mem_total_gb zero_total = S754_zero false /\
  disk_total_gb zero_total = S754_zero false /\
  seriesData (fun t : number => t) (Some [zero_total]) Memory =
    Normal [ {| label := "Memory";
                data := map (fun s : SystemStatsRecord =>
                               {| date := ts s;
                                  value := div (mul num_100 (mem_used_gb s))
                                               (mem_total_gb s) |})
                            (rev [zero_total]) |} ] /\
  seriesData (fun t : number => t) (Some [zero_total]) Disk =
    Normal [ {| label := "Disk";
                data := map (fun s : SystemStatsRecord =>
                               {| date := ts s;
                                  value := div (mul num_100 (disk_used_gb s))
                                               (disk_total_gb s) |})
                            (rev [zero_total]) |} ] /\
  getStat zero_total Memory =
    match mem_used_gb zero_total with
    | S754_zero _ | S754_nan => nan
    | _ => S754_infinity (xorb (sign (mem_used_gb zero_total)) false)
    end /\
  getStat zero_total Disk =
    match disk_used_gb zero_total with
    | S754_zero _ | S754_nan => nan
    | _ => S754_infinity (xorb (sign (disk_used_gb zero_total)) false)
    end.
Proof.
  do 4 (split; [reflexivity|]).
  apply (C4_percent_of_total (fun t => t) [zero_total] zero_total false false);
    reflexivity.
Defined.

(** C7 at the scenario and the scenario with a raised delta. *)
Lemma C7_witness :
  is_network NetworkIngress = true /\
  (forall r, In r scenario -> wf_record NetworkIngress r = true) /\
  (forall r, In r scenario_raised -> wf_record NetworkIngress r = true) /\
  map ts scenario = map ts scenario_raised /\
  (forall (i : nat) (p1 s1 p2 s2 : SystemStatsRecord),
     nth_error (rev scenario) i = Some p1 ->
     nth_error (rev scenario) (S i) = Some s1 ->
     nth_error (rev scenario_raised) i = Some p2 ->
     nth_error (rev scenario_raised) (S i) = Some s2 ->
     leb (deltaBytes NetworkIngress s1 p1) (deltaBytes NetworkIngress s2 p2)
     = true) /\
  (forall maxRate1 maxRate2 : number,
     leb maxRate1 maxRate2 = true ->
     (unit_rank (fst (choose maxRate1)) <= unit_rank (fst (choose maxRate2)))%nat)
  /\
  exists series1 series2 : list Series,
    seriesData (fun t : number => t) (Some scenario) NetworkIngress =
      Normal series1 /\
    seriesData (fun t : number => t) (Some scenario_raised) NetworkIngress =
      Normal series2 /\
    (unit_rank (unit (axis (InnerStatChart NetworkIngress
                              (Some (flat_map data series1)) (Some series1))))
     <= unit_rank (unit (axis (InnerStatChart NetworkIngress
                              (Some (flat_map data series2)) (Some series2)))))%nat.
Proof.
  assert (Hwf1 : forall r, In r scenario -> wf_record NetworkIngress r = true)
    by (intros r [<-|[<-|[<-|[]]]]; reflexivity).
  assert (Hwf2 : forall r, In r scenario_raised ->
                           wf_record NetworkIngress r = true)
    by (intros r [<-|[<-|[<-|[]]]]; reflexivity).
  assert (Hd : forall (i : nat) (p1 s1 p2 s2 : SystemStatsRecord),
            nth_error (rev scenario) i = Some p1 ->
            nth_error (rev scenario) (S i) = Some s1 ->
            nth_error (rev scenario_raised) i = Some p2 ->
            nth_error (rev scenario_raised) (S i) = Some s2 ->
            leb (deltaBytes NetworkIngress s1 p1)
                (deltaBytes NetworkIngress s2 p2) = true).
  { intros [|[|i]] p1 s1 p2 s2 H1 H2 H3 H4; simpl in H1, H2, H3, H4;
      try (destruct i; discriminate);
      injection H1 as <-; injection H2 as <-;
      injection H3 as <-; injection H4 as <-; reflexivity. }
  split; [reflexivity|]. split; [exact Hwf1|]. split; [exact Hwf2|].
  split; [reflexivity|]. split; [exact Hd|].
  apply (C7_unit_monotone (fun t => t) NetworkIngress scenario scenario_raised
           eq_refl Hwf1 Hwf2 eq_refl Hd).
Defined.

(** C10 at the scenario of the spec. *)
Lemma C10_witness :
  is_network NetworkIngress = true /\
  (forall r, In r scenario -> wf_record NetworkIngress r = true) /\
  exists pts : list StatDatapoint,
    seriesData (fun t : number => t) (Some scenario) NetworkIngress =
      Normal [ {| label := StatType_string NetworkIngress; data := pts |} ] /\
    Forall (fun pt : StatDatapoint => is_finite (value pt) = true) pts /\
    Forall (fun s : SystemStatsRecord =>
              Forall (fun prev : SystemStatsRecord =>
                        leb Num.one (deltaSeconds s prev) = true /\
                        eqb (deltaSeconds s prev) zero = false)
                     scenario)
           scenario.
Proof.
  assert (Hwf : forall r, In r scenario -> wf_record NetworkIngress r = true)
    by (intros r [<-|[<-|[<-|[]]]]; reflexivity).
  split; [reflexivity|]. split; [exact Hwf|].
  apply (C10_rates_finite (fun t => t) NetworkIngress scenario eq_refl Hwf).
Defined.

(** * The scenarios of the spec *)

(** The scenario records give the rates [0, 2000, 0] B/s. *)
Example scenario_rates :
  seriesData (fun t => t) (Some scenario) NetworkIngress =
  Normal scenario_series.
Proof. reflexivity. Qed.

(** Their maximum is 2000, the unit KB/s with divisor 1024, and the axis
    maximum [2000 * 1.2 / 1024 = 2.34375]. *)
Example scenario_axis :
  axis (InnerStatChart NetworkIngress (Some (flat_map data scenario_series))
          (Some scenario_series)) =
  {| unit := KB_per_s; unitDivisor := BYTES_PER_KB;
     maxUnitValue := S754_finite false 5277655813324800 (-51) |}.
Proof. reflexivity. Qed.

(** 2 GB used of 8 GB are 25 percent, on an axis from 0 to 100. *)
Example scenario_memory :
  getStat (sample 0 0) Memory = of_Z 25 /\
  maxUnitValue (axisUnit Memory (of_Z 25)) = num_100.
Proof. split; reflexivity. Qed.

(** * Further properties of the chart *)

Section Further.

Variable convert : number -> number.

(** [seriesData] never throws, whatever the stats and the kind: the
    predecessor the network branch reads by index always exists. *)
Theorem seriesData_never_throws (stats : option (list SystemStatsRecord))
    (type : StatType) :
  exists series, seriesData convert stats type = Normal series.
Proof.
  destruct stats as [stats|]; [|eexists; reflexivity].
  destruct type; unfold seriesData; try rewrite rate_eq; eexists; reflexivity.
Qed.

(** What [StatChart] shows: the loader while the request is pending,
    whatever the stats; otherwise nothing exactly when the stats are
    absent, and as soon as they are there (even as an empty array) the
    chart, on the points of all the series flattened. *)
Theorem StatChart_outcomes (stats : option (list SystemStatsRecord))
    (type : StatType) :
  StatChart convert true stats type = Normal Loader /\
  (StatChart convert false stats type = Normal Nothing <-> stats = None) /\
  (forall l, stats = Some l ->
     exists series,
       seriesData convert stats type = Normal series /\
       StatChart convert false stats type =
         Normal (Chart (InnerStatChart type (Some (flat_map data series))
                                       (Some series)))).
Proof.
  destruct stats as [l|].
  - destruct type; unfold StatChart, seriesData; try rewrite rate_eq;
      simpl bind; (split; [reflexivity|]);
      (split; [split; discriminate|]);
      intros l' _; eexists; split; reflexivity.
  - split; [reflexivity|]. split; [split; reflexivity|].
    intros l H. discriminate.
Qed.

(** The Cpu value is never NaN: an absent, zero or NaN [cpu_perc] reads as
    [0]. *)
Theorem getStat_cpu_not_nan (stat : SystemStatsRecord) :
  is_nan (getStat stat Cpu) = false /\
  Forall (fun absent => cpu_perc stat = absent -> getStat stat Cpu = zero)
         [None; Some nan; Some zero; Some (S754_zero true)].
Proof.
  unfold getStat, or_else. split.
  - destruct (cpu_perc stat) as [[[]|[]| |[] m e]|]; reflexivity.
  - repeat constructor; intros ->; reflexivity.
Qed.

End Further.

(** * Further properties of the numbers *)

(** ** Rounding is monotone *)

Lemma div_cross_le (N1 D1 N2 D2 : Z) :
  0 <= N1 -> 0 < D1 -> 0 <= N2 -> 0 < D2 ->
  N1 * D2 <= N2 * D1 -> N1 / D1 <= N2 / D2.
Proof.
  intros HN1 HD1 HN2 HD2 H.
  rewrite <- (Z.div_mul_cancel_r N1 D1 D2) by lia.
  rewrite <- (Z.div_mul_cancel_r N2 D2 D1) by lia.
  rewrite (Z.mul_comm D2 D1). apply Z.div_le_mono; nia.
Qed.

Lemma rne_mono (N1 D1 N2 D2 : Z) :
  0 <= N1 -> 0 < D1 -> 0 <= N2 -> 0 < D2 ->
  N1 * D2 <= N2 * D1 -> rne N1 D1 <= rne N2 D2.
Proof.
  intros HN1 HD1 HN2 HD2 H.
  pose proof (div_cross_le _ _ _ _ HN1 HD1 HN2 HD2 H) as Hq.
  pose proof (rne_bounds N1 D1 HD1) as Hb1.
  pose proof (rne_bounds N2 D2 HD2) as Hb2.
  destruct (Z.eq_dec (N1 / D1) (N2 / D2)) as [Heq | Hne]; [|lia].
  pose proof (Z.div_mod N1 D1 ltac:(lia)) as Hdm1.
  pose proof (Z.div_mod N2 D2 ltac:(lia)) as Hdm2.
  pose proof (Z.mod_pos_bound N1 D1 HD1) as Hr1.
  pose proof (Z.mod_pos_bound N2 D2 HD2) as Hr2.
  clear Hb1 Hb2 Hq.
  unfold rne, loc_of, round_nearest_even. rewrite <- Heq.
  rewrite <- Heq in Hdm2.
  set (q := N1 / D1) in *.
  set (r1 := N1 mod D1) in *. set (r2 := N2 mod D2) in *.
  assert (Hr : r1 * D2 <= r2 * D1) by nia.
  destruct (Z.eqb_spec r1 0) as [Hz1 | Hz1], (Z.eqb_spec r2 0) as [Hz2 | Hz2].
  - lia.
  - destruct (2 * r2 ?= D2); [destruct (Z.even q)| |]; lia.
  - exfalso. nia.
  - destruct (Z.compare_spec (2 * r1) D1) as [H1 | H1 | H1],
             (Z.compare_spec (2 * r2) D2) as [H2 | H2 | H2];
      try (destruct (Z.even q)); try lia; exfalso; nia.
Qed.

(** The magnitude of the truncated quotient follows the order of the
    values. *)
Lemma mag_cross_le (N1 D1 N2 D2 e1 e2 a b : Z) :
  0 <= N1 -> 0 < D1 -> 0 <= N2 -> 0 < D2 ->
  0 <= a -> 0 <= b -> a - b = e1 - e2 ->
  N1 * D2 * 2 ^ a <= N2 * D1 * 2 ^ b ->
  0 < N1 / D1 ->
  Zdigits2 (N1 / D1) + e1 <= Zdigits2 (N2 / D2) + e2.
Proof.
  intros HN1 HD1 HN2 HD2 Ha Hb Hab H Hq1.
  destruct (Zdigits2_bounds _ Hq1) as [Hlo _].
  pose proof (Zdigits2_pos _ Hq1) as Hd1.
  pose proof (Zdigits2_nonneg (N2 / D2)) as Hd2.
  pose proof (Z.div_mod N1 D1 ltac:(lia)) as Hdm1.
  pose proof (Z.div_mod N2 D2 ltac:(lia)) as Hdm2.
  pose proof (Z.mod_pos_bound N1 D1 HD1) as Hr1.
  pose proof (Z.mod_pos_bound N2 D2 HD2) as Hr2.
  assert (Hq2 : 0 <= N2 / D2) by (apply Z.div_pos; lia).
  assert (Hq2' : N2 / D2 < 2 ^ Zdigits2 (N2 / D2)).
  { destruct (Z.eq_dec (N2 / D2) 0) as [-> | Hq0]; [reflexivity|].
    apply Zdigits2_bounds. lia. }
  set (d1 := Zdigits2 (N1 / D1)) in *.
  set (d2 := Zdigits2 (N2 / D2)) in *.
  set (q1 := N1 / D1) in *. set (q2 := N2 / D2) in *.
  destruct (Z_lt_le_dec (d1 - 1 + a) (d2 + b)) as [Hlt | Hge]; [lia|].
  exfalso.
  assert (Hpw : 2 ^ d2 * 2 ^ b <= 2 ^ (d1 - 1) * 2 ^ a).
  { rewrite <- !Z.pow_add_r by lia. apply pow2_le. lia. }
  pose proof (pow2_pos a Ha) as HA. pose proof (pow2_pos b Hb) as HB.
  pose proof (pow2_pos d2 Hd2) as HP2.
  pose proof (pow2_pos (d1 - 1) ltac:(lia)) as HP1.
  assert (A1 : N2 < D2 * 2 ^ d2) by nia.
  assert (A2 : D1 * 2 ^ (d1 - 1) <= N1) by nia.
  assert (A3 : N2 * (D1 * 2 ^ b) < D2 * 2 ^ d2 * (D1 * 2 ^ b)).
  { apply Z.mul_lt_mono_pos_r; [nia|exact A1]. }
  assert (A4 : D1 * 2 ^ (d1 - 1) * (D2 * 2 ^ a) <= N1 * (D2 * 2 ^ a)).
  { apply Z.mul_le_mono_nonneg_r; [nia|exact A2]. }
  assert (A5 : (D1 * D2) * (2 ^ d2 * 2 ^ b) <= (D1 * D2) * (2 ^ (d1 - 1) * 2 ^ a)).
  { apply Z.mul_le_mono_nonneg_l; [nia|exact Hpw]. }
  replace (N2 * (D1 * 2 ^ b)) with (N2 * D1 * 2 ^ b) in A3 by ring.
  replace (D2 * 2 ^ d2 * (D1 * 2 ^ b)) with (D1 * D2 * (2 ^ d2 * 2 ^ b)) in A3
    by ring.
  replace (D1 * 2 ^ (d1 - 1) * (D2 * 2 ^ a))
    with (D1 * D2 * (2 ^ (d1 - 1) * 2 ^ a)) in A4 by ring.
  replace (N1 * (D2 * 2 ^ a)) with (N1 * D2 * 2 ^ a) in A4 by ring.
  lia.
Qed.

(** Rounding to nearest is monotone: of two inputs, the one of smaller value
    rounds to the smaller result. *)
Lemma SFleb_round_mono (N1 D1 e1 N2 D2 e2 a b : Z) :
  0 <= N1 -> 0 < D1 -> 0 <= N2 -> 0 < D2 ->
  e1 <= Z.max (Zdigits2 (N1 / D1) + e1 - 53) (-1074) ->
  e2 <= Z.max (Zdigits2 (N2 / D2) + e2 - 53) (-1074) ->
  0 <= a -> 0 <= b -> a - b = e1 - e2 ->
  N1 * D2 * 2 ^ a <= N2 * D1 * 2 ^ b ->
  SFleb (binary_round_aux prec emax false (N1 / D1) e1 (loc_of (N1 mod D1) D1))
        (binary_round_aux prec emax false (N2 / D2) e2 (loc_of (N2 mod D2) D2))
  = true.
Proof.
  intros HN1 HD1 HN2 HD2 Hc1 Hc2 Ha Hb Hab H.
  destruct (first_shift_normal N1 D1 e1 HN1 HD1 Hc1) as [HE1 Hnorm1].
  destruct (first_shift_normal N2 D2 e2 HN2 HD2 Hc2) as [HE2 Hnorm2].
  destruct (first_shift_facts N1 D1 e1 HN1 HD1)
    as (Hn1 & HD1' & HE1' & Hm1 & Hr1).
  destruct (first_shift_facts N2 D2 e2 HN2 HD2)
    as (Hn2 & HD2' & HE2' & Hm2 & Hr2).
  rewrite (round_aux_cases false N1 D1 e1 HN1 HD1),
          (round_aux_cases false N2 D2 e2 HN2 HD2). cbv zeta.
  remember (shift_of (N1 / D1) e1) as n1 eqn:Hn1def.
  remember (shift_of (N2 / D2) e2) as n2 eqn:Hn2def.
  assert (HE : e1 + n1 <= e2 + n2).
  { assert (Hq1 : 0 <= N1 / D1) by (apply Z.div_pos; lia).
    destruct (Z.eq_dec (N1 / D1) 0) as [Hq0 | Hq0].
    - rewrite Hq0 in *. simpl Zdigits2 in *. lia.
    - pose proof (mag_cross_le N1 D1 N2 D2 e1 e2 a b HN1 HD1 HN2 HD2
                    Ha Hb Hab H ltac:(lia)). lia. }
  pose proof (rne_bounds N1 (D1 * 2 ^ n1) HD1') as Hb1.
  pose proof (rne_bounds N2 (D2 * 2 ^ n2) HD2') as Hb2.
  assert (Hmono : e1 + n1 = e2 + n2 ->
                  rne N1 (D1 * 2 ^ n1) <= rne N2 (D2 * 2 ^ n2)).
  { intros Heq. apply rne_mono; try lia.
    pose proof (pow2_pos (a + n1) ltac:(lia)) as Hp.
    apply (Z.mul_le_mono_pos_r _ _ (2 ^ (a + n1)) Hp).
    replace (N1 * (D2 * 2 ^ n2) * 2 ^ (a + n1))
      with (N1 * D2 * 2 ^ a * (2 ^ n2 * 2 ^ n1)).
    2:{ rewrite (Z.pow_add_r 2 a n1) by lia. ring. }
    replace (N2 * (D1 * 2 ^ n1) * 2 ^ (a + n1))
      with (N2 * D1 * 2 ^ b * (2 ^ n2 * 2 ^ n1)).
    2:{ replace (a + n1) with (b + n2) by lia.
        rewrite (Z.pow_add_r 2 b n2) by lia. ring. }
    apply Z.mul_le_mono_nonneg_r; [|exact H].
    pose proof (pow2_pos n1 Hn1). pose proof (pow2_pos n2 Hn2). nia. }
  set (m1 := rne N1 (D1 * 2 ^ n1)) in *.
  set (m2 := rne N2 (D2 * 2 ^ n2)) in *.
  assert (Hbig2 : e1 + n1 < e2 + n2 -> 2 ^ 52 <= m2).
  { intros Hlt. specialize (Hnorm2 ltac:(lia)). lia. }
  clear Hnorm1 Hnorm2 HE1 HE2 Hc1 Hc2 H.
  repeat match goal with
         | |- context [Z.eqb ?a ?b] => destruct (Z.eqb_spec a b)
         | |- context [Z.ltb ?a ?b] => destruct (Z.ltb_spec a b)
         | |- context [Z.leb ?a ?b] => destruct (Z.leb_spec a b)
         end;
    try reflexivity;
    try (exfalso; lia);
    try (apply SFleb_finite_pos; rewrite ?Z2Pos.id by lia; lia).
Qed.

Lemma round_exact_mono (N1 e1 N2 e2 a b : Z) :
  0 <= N1 -> 0 <= N2 ->
  e1 <= Z.max (Zdigits2 N1 + e1 - 53) (-1074) ->
  e2 <= Z.max (Zdigits2 N2 + e2 - 53) (-1074) ->
  0 <= a -> 0 <= b -> a - b = e1 - e2 ->
  N1 * 2 ^ a <= N2 * 2 ^ b ->
  SFleb (binary_round_aux prec emax false N1 e1 loc_Exact)
        (binary_round_aux prec emax false N2 e2 loc_Exact) = true.
Proof.
  intros HN1 HN2 Hc1 Hc2 Ha Hb Hab H.
  rewrite (round_exact_form false N1), (round_exact_form false N2).
  apply (SFleb_round_mono N1 1 e1 N2 1 e2 a b);
    rewrite ?Z.div_1_r; try assumption; lia.
Qed.

(** A valid finite value is the rounding of its own mantissa. *)
Lemma round_canonical (s : bool) (m : positive) (e : Z) :
  valid (S754_finite s m e) = true ->
  binary_round_aux prec emax s (Z.pos m) e loc_Exact = S754_finite s m e.
Proof.
  intros Hv. pose proof Hv as Hv'.
  apply valid_finite_iff in Hv. destruct Hv as [Hc He].
  apply valid_finite_facts in Hv'. destruct Hv' as (_ & _ & Hm & _).
  rewrite round_exact_form.
  rewrite (round_aux_cases s (Z.pos m) 1 e ltac:(lia) ltac:(lia)). cbv zeta.
  rewrite Z.div_1_r.
  assert (Hn : shift_of (Z.pos m) e = 0).
  { rewrite shift_of_eq. simpl Zdigits2. lia. }
  rewrite Hn. rewrite Z.mul_1_r, Z.add_0_r.
  rewrite rne_exact by apply Z.mod_1_r. rewrite Z.div_1_r.
  destruct (Z.eqb_spec (Z.pos m) 0); [lia|].
  destruct (Z.ltb_spec (Z.pos m) (2 ^ 53)); [|lia].
  destruct (Z.leb_spec e 971); [|lia].
  reflexivity.
Qed.

(** The sign given to [binary_round_aux] only sets the sign of the result. *)
Lemma round_opp (N D e : Z) :
  0 <= N -> 0 < D ->
  binary_round_aux prec emax true (N / D) e (loc_of (N mod D) D) =
  SFopp (binary_round_aux prec emax false (N / D) e (loc_of (N mod D) D)).
Proof.
  intros HN HD.
  rewrite !(round_aux_cases _ N D e HN HD). cbv zeta.
  repeat match goal with
         | |- context [Z.eqb ?a ?b] => destruct (Z.eqb_spec a b)
         | |- context [Z.ltb ?a ?b] => destruct (Z.ltb_spec a b)
         | |- context [Z.leb ?a ?b] => destruct (Z.leb_spec a b)
         end; reflexivity.
Qed.

Lemma round_exact_opp (N e : Z) :
  0 <= N ->
  binary_round_aux prec emax true N e loc_Exact =
  SFopp (binary_round_aux prec emax false N e loc_Exact).
Proof.
  intros HN. rewrite !round_exact_form. apply round_opp; lia.
Qed.

(** Negation reverses the order. *)
Lemma SFleb_opp (x y : spec_float) :
  SFleb x y = true -> SFleb (SFopp y) (SFopp x) = true.
Proof.
  intros H. destruct (SFleb_not_nan x y H) as [Hx Hy].
  apply SFleb_key in H; [|assumption|assumption].
  apply SFleb_key.
  - destruct y; try discriminate; reflexivity.
  - destruct x; try discriminate; reflexivity.
  - destruct x as [[]|[]| |[] mx ex], y as [[]|[]| |[] my ey];
      try discriminate; simpl in *; lia.
Qed.

(** Two values each at most the other are the same finite value. *)
Lemma SFleb_antisym_finite (s : bool) (m : positive) (e : Z) (R : spec_float) :
  SFleb (S754_finite s m e) R = true -> SFleb R (S754_finite s m e) = true ->
  R = S754_finite s m e.
Proof.
  intros H1 H2.
  destruct (SFleb_not_nan _ _ H1) as [_ HR].
  apply SFleb_key in H1; [|reflexivity|assumption].
  apply SFleb_key in H2; [|assumption|reflexivity].
  destruct s, R as [[]|[]| |[] m' e']; try discriminate; simpl in *;
    try lia.
  - assert (e' = e) by lia. assert (Z.pos m' = Z.pos m) by lia.
    subst e'. f_equal. lia.
  - assert (e' = e) by lia. assert (Z.pos m' = Z.pos m) by lia.
    subst e'. f_equal. lia.
Qed.

(** ** Sums and differences against a representable value *)

(** [binary_round] is [binary_round_aux] on the mantissa aligned to the
    canonical exponent. *)
Lemma binary_round_eq (s : bool) (m : positive) (e : Z) :
  exists N e',
    binary_round prec emax s m e =
      binary_round_aux prec emax s N e' loc_Exact /\
    0 < N /\ e' <= e /\ N = Z.pos m * 2 ^ (e - e') /\
    e' <= Z.max (Zdigits2 N + e' - 53) (-1074).
Proof.
  unfold binary_round.
  pose proof (shl_align_eq m e (fexp prec emax (Z.pos (digits2_pos m) + e)))
    as [He Hm].
  destruct (shl_align m e (fexp prec emax (Z.pos (digits2_pos m) + e)))
    as [mz ez].
  simpl fst in Hm. simpl snd in He. rewrite fexp_eq in He, Hm.
  exists (Z.pos mz), ez.
  split; [reflexivity|]. split; [lia|]. split; [lia|]. split.
  - rewrite Hm, He. reflexivity.
  - assert (Hdz : Zdigits2 (Z.pos mz) = Z.pos (digits2_pos m) + (e - ez)).
    { rewrite Hm, He. apply (Zdigits2_shift (Z.pos m)); lia. }
    rewrite Hdz. lia.
Qed.

Lemma valid_canonical_input (s : bool) (m : positive) (e : Z) :
  valid (S754_finite s m e) = true ->
  e <= Z.max (Zdigits2 (Z.pos m) + e - 53) (-1074).
Proof.
  intros Hv. apply valid_finite_iff in Hv. simpl Zdigits2. lia.
Qed.

Lemma sign_true_nonpos (x : number) :
  is_nan x = false -> sign x = true -> leb x zero = true.
Proof.
  destruct x as [[]|[]| |[] m e]; intros Hn Hs; try discriminate; reflexivity.
Qed.

Lemma negative_le_nonneg (m : positive) (e : Z) (R : spec_float) :
  is_nan R = false -> sign R = false ->
  SFleb (S754_finite true m e) R = true.
Proof.
  destruct R as [[]|[]| |[] m' e']; intros Hn Hs; try discriminate; reflexivity.
Qed.

Lemma nonpos_le_positive (m : positive) (e : Z) (R : spec_float) :
  is_nan R = false -> sign R = true ->
  SFleb R (S754_finite false m e) = true.
Proof.
  destruct R as [[]|[]| |[] m' e']; intros Hn Hs; try discriminate; reflexivity.
Qed.

(** The value [M * 2 ^ ez] normalized is at least every representable value
    it is at least, and at most every representable value it is at most. *)
Lemma normalize_ge (sx : bool) (mx : positive) (ex ez M : Z) :
  valid (S754_finite sx mx ex) = true -> ez <= ex ->
  cond_Zopp sx (Z.pos mx * 2 ^ (ex - ez)) <= M ->
  SFleb (S754_finite sx mx ex) (binary_normalize prec emax M ez false) = true.
Proof.
  intros Hv Hez HM.
  pose proof (pow2_pos (ex - ez) ltac:(lia)) as Hp.
  pose proof (valid_canonical_input _ _ _ Hv) as Hcx.
  destruct M as [|p|p]; unfold binary_normalize.
  - destruct sx; unfold cond_Zopp in HM; [reflexivity|nia].
  - destruct (binary_round_eq false p ez) as (N & e' & -> & HN & He' & HNeq & Hc).
    destruct sx.
    + destruct (round_exact_class false N e' ltac:(lia)) as [Hnan Hs].
      apply negative_le_nonneg; assumption.
    + rewrite <- (round_canonical false mx ex Hv).
      apply (round_exact_mono (Z.pos mx) ex N e' (ex - e') 0); try lia.
      unfold cond_Zopp in HM. rewrite HNeq.
      replace (ex - e') with ((ex - ez) + (ez - e')) by lia.
      rewrite Z.pow_add_r by lia.
      pose proof (pow2_pos (ez - e') ltac:(lia)). simpl (2 ^ 0). nia.
  - destruct sx; unfold cond_Zopp in HM; [|nia].
    destruct (binary_round_eq true p ez) as (N & e' & -> & HN & He' & HNeq & Hc).
    rewrite round_exact_opp by lia.
    change (S754_finite true mx ex) with (SFopp (S754_finite false mx ex)).
    apply SFleb_opp.
    rewrite <- (round_canonical false mx ex Hv).
    apply (round_exact_mono N e' (Z.pos mx) ex 0 (ex - e')); try lia.
    rewrite HNeq.
    replace (ex - e') with ((ex - ez) + (ez - e')) by lia.
    rewrite Z.pow_add_r by lia.
    pose proof (pow2_pos (ez - e') ltac:(lia)). simpl (2 ^ 0). nia.
Qed.

Lemma normalize_le (sx : bool) (mx : positive) (ex ez M : Z) :
  valid (S754_finite sx mx ex) = true -> ez <= ex ->
  M <= cond_Zopp sx (Z.pos mx * 2 ^ (ex - ez)) ->
  SFleb (binary_normalize prec emax M ez false) (S754_finite sx mx ex) = true.
Proof.
  intros Hv Hez HM.
  pose proof (pow2_pos (ex - ez) ltac:(lia)) as Hp.
  pose proof (valid_canonical_input _ _ _ Hv) as Hcx.
  destruct M as [|p|p]; unfold binary_normalize.
  - destruct sx; unfold cond_Zopp in HM; [nia|reflexivity].
  - destruct sx; unfold cond_Zopp in HM; [nia|].
    destruct (binary_round_eq false p ez) as (N & e' & -> & HN & He' & HNeq & Hc).
    rewrite <- (round_canonical false mx ex Hv).
    apply (round_exact_mono N e' (Z.pos mx) ex 0 (ex - e')); try lia.
    rewrite HNeq.
    replace (ex - e') with ((ex - ez) + (ez - e')) by lia.
    rewrite Z.pow_add_r by lia.
    pose proof (pow2_pos (ez - e') ltac:(lia)). simpl (2 ^ 0). nia.
  - destruct (binary_round_eq true p ez) as (N & e' & -> & HN & He' & HNeq & Hc).
    destruct sx.
    + rewrite round_exact_opp by lia.
      change (S754_finite true mx ex) with (SFopp (S754_finite false mx ex)).
      apply SFleb_opp.
      rewrite <- (round_canonical false mx ex Hv).
      apply (round_exact_mono (Z.pos mx) ex N e' (ex - e') 0); try lia.
      unfold cond_Zopp in HM. rewrite HNeq.
      replace (ex - e') with ((ex - ez) + (ez - e')) by lia.
      rewrite Z.pow_add_r by lia.
      pose proof (pow2_pos (ez - e') ltac:(lia)). simpl (2 ^ 0). nia.
    + destruct (round_exact_class true N e' ltac:(lia)) as [Hnan Hs].
      apply nonpos_le_positive; assumption.
Qed.

(** The sign of a normalized value is that of its mantissa. *)
Lemma normalize_sign (M e : Z) :
  let R := binary_normalize prec emax M e false in
  (0 <= M -> leb zero R = true) /\ (M <= 0 -> leb R zero = true).
Proof.
  intros R. unfold R, binary_normalize.
  destruct M as [|p|p].
  - split; reflexivity.
  - destruct (binary_round_props false p e) as (_ & Hn & Hs & _).
    split; [intros _|lia]. apply sign_false_nonneg; assumption.
  - destruct (binary_round_props true p e) as (_ & Hn & Hs & _).
    split; [lia|intros _]. apply sign_true_nonpos; assumption.
Qed.

(** The mantissas [SFadd] and [SFsub] align. *)
Lemma aligned_mantissa (m : positive) (e e' : Z) :
  Z.pos (fst (shl_align m e (Z.min e e'))) = Z.pos m * 2 ^ (e - Z.min e e') /\
  Z.pos (fst (shl_align m e (Z.min e' e))) = Z.pos m * 2 ^ (e - Z.min e' e).
Proof.
  split.
  - destruct (shl_align_eq m e (Z.min e e')) as [_ H].
    replace (Z.min e (Z.min e e')) with (Z.min e e') in H by lia. exact H.
  - destruct (shl_align_eq m e (Z.min e' e)) as [_ H].
    replace (Z.min e (Z.min e' e)) with (Z.min e' e) in H by lia. exact H.
Qed.

(** The order of two valid finite values, on aligned signed mantissas. *)
Lemma SFleb_aligned_pos (m1 m2 : positive) (e1 e2 : Z) :
  valid (S754_finite false m1 e1) = true ->
  valid (S754_finite false m2 e2) = true ->
  SFleb (S754_finite false m1 e1) (S754_finite false m2 e2) = true ->
  Z.pos m1 * 2 ^ (e1 - Z.min e1 e2) <= Z.pos m2 * 2 ^ (e2 - Z.min e1 e2).
Proof.
  intros Hv1 Hv2 Hle.
  apply valid_finite_facts in Hv1, Hv2.
  destruct Hv1 as (He1 & _ & Hm1 & _), Hv2 as (He2 & _ & _ & Hn2).
  apply SFleb_finite_pos in Hle. destruct Hle as [Hlt | [-> Hm]].
  - replace (Z.min e1 e2) with e1 by lia.
    rewrite Z.sub_diag. simpl (2 ^ 0).
    destruct (Hn2 ltac:(lia)) as [_ Hm2].
    assert (Hpw : 2 ^ 1 <= 2 ^ (e2 - e1)) by (apply pow2_le; lia).
    change (2 ^ 1) with 2 in Hpw.
    assert (Z.pos m2 * 2 <= Z.pos m2 * 2 ^ (e2 - e1))
      by (apply Z.mul_le_mono_nonneg_l; lia).
    lia.
  - replace (Z.min e2 e2) with e2 by lia.
    rewrite Z.sub_diag. simpl (2 ^ 0). lia.
Qed.

Lemma SFleb_aligned (sx sy : bool) (mx my : positive) (ex ey : Z) :
  valid (S754_finite sx mx ex) = true ->
  valid (S754_finite sy my ey) = true ->
  SFleb (S754_finite sx mx ex) (S754_finite sy my ey) = true ->
  cond_Zopp sx (Z.pos mx * 2 ^ (ex - Z.min ex ey)) <=
  cond_Zopp sy (Z.pos my * 2 ^ (ey - Z.min ex ey)).
Proof.
  intros Hvx Hvy Hle.
  pose proof (pow2_pos (ex - Z.min ex ey) ltac:(lia)).
  pose proof (pow2_pos (ey - Z.min ex ey) ltac:(lia)).
  destruct sx, sy; unfold cond_Zopp.
  - apply SFleb_opp in Hle. simpl SFopp in Hle.
    pose proof (SFleb_aligned_pos my mx ey ex Hvy Hvx Hle) as Ha.
    rewrite (Z.min_comm ey ex) in Ha. lia.
  - nia.
  - discriminate.
  - apply SFleb_aligned_pos; assumption.
Qed.

(** ** Subtraction and addition keep the order *)

(** [x - y] is not negative when [y <= x], and not positive when
    [x <= y]. *)
Lemma sub_sign (x y : number) :
  valid x = true -> valid y = true ->
  is_finite x = true -> is_finite y = true ->
  (leb y x = true -> leb zero (sub x y) = true) /\
  (leb x y = true -> leb (sub x y) zero = true).
Proof.
  intros Hvx Hvy Hfx Hfy.
  destruct x as [sx|sx| |sx mx ex], y as [sy|sy| |sy my ey];
    try discriminate; unfold sub; simpl SFsub.
  - destruct sx, sy; split; reflexivity.
  - destruct sy; split; intros H; try reflexivity; discriminate.
  - destruct sx; split; intros H; try reflexivity; discriminate.
  - destruct (aligned_mantissa mx ex ey) as [-> _].
    destruct (aligned_mantissa my ey ex) as [_ ->].
    edestruct normalize_sign as [Hpos Hneg].
    split; intros H.
    + apply Hpos. pose proof (SFleb_aligned _ _ _ _ _ _ Hvy Hvx H) as Ha.
      rewrite (Z.min_comm ey ex) in Ha. lia.
    + apply Hneg. pose proof (SFleb_aligned _ _ _ _ _ _ Hvx Hvy H) as Ha. lia.
Qed.

Lemma leb_zero_cases (p : number) :
  leb zero p = true ->
  (exists s, p = S754_zero s) \/ p = pos_infinity \/
  exists m e, p = S754_finite false m e.
Proof.
  destruct p as [s|[]| |[] m e]; intros H; try discriminate; eauto.
Qed.

(** Adding a non-negative value does not decrease a finite value, and
    subtracting one does not increase it. *)
Lemma add_nonneg_ge (x p : number) :
  valid x = true -> valid p = true -> is_finite x = true ->
  leb zero p = true -> leb x (add x p) = true.
Proof.
  intros Hvx Hvp Hfx Hp.
  destruct (leb_zero_cases p Hp) as [[sp ->] | [-> | (mp & ep & ->)]];
    destruct x as [sx|sx| |sx mx ex]; try discriminate;
    unfold add; simpl SFadd.
  - destruct sx, sp; reflexivity.
  - apply SFleb_refl. reflexivity.
  - reflexivity.
  - destruct sx; reflexivity.
  - reflexivity.
  - destruct (aligned_mantissa mx ex ep) as [-> _].
    destruct (aligned_mantissa mp ep ex) as [_ ->].
    apply normalize_ge; [assumption|lia|].
    pose proof (pow2_pos (ep - Z.min ex ep) ltac:(lia)).
    unfold cond_Zopp. nia.
Qed.

Lemma sub_nonneg_le (x p : number) :
  valid x = true -> valid p = true -> is_finite x = true ->
  leb zero p = true -> leb (sub x p) x = true.
Proof.
  intros Hvx Hvp Hfx Hp.
  destruct (leb_zero_cases p Hp) as [[sp ->] | [-> | (mp & ep & ->)]];
    destruct x as [sx|sx| |sx mx ex]; try discriminate;
    unfold sub; simpl SFsub.
  - destruct sx, sp; reflexivity.
  - apply SFleb_refl. reflexivity.
  - reflexivity.
  - destruct sx; reflexivity.
  - reflexivity.
  - destruct (aligned_mantissa mx ex ep) as [-> _].
    destruct (aligned_mantissa mp ep ex) as [_ ->].
    apply normalize_le; [assumption|lia|].
    pose proof (pow2_pos (ep - Z.min ex ep) ltac:(lia)).
    unfold cond_Zopp. nia.
Qed.

(** ** Products and quotients keep the order *)

Lemma zero_le_nonneg (s : bool) (R : spec_float) :
  is_nan R = false -> sign R = false -> SFleb (S754_zero s) R = true.
Proof.
  destruct R as [[]|[]| |[] m e]; intros Hn Hs; try discriminate;
    destruct s; reflexivity.
Qed.

Lemma le_infinity (R : spec_float) :
  is_nan R = false -> SFleb R (S754_infinity false) = true.
Proof.
  destruct R as [[]|[]| |[] m e]; intros Hn; try discriminate; reflexivity.
Qed.

(** The product of a non-negative value and a positive finite one is a
    valid non-negative value. *)
Lemma mul_nonneg (d : number) (mc : positive) (ec : Z) :
  valid d = true -> valid (S754_finite false mc ec) = true ->
  leb zero d = true ->
  valid (mul d (S754_finite false mc ec)) = true /\
  leb zero (mul d (S754_finite false mc ec)) = true.
Proof.
  intros Hvd Hvc Hd.
  destruct (leb_zero_cases d Hd) as [[s ->] | [-> | (m & e & ->)]].
  - destruct s; split; reflexivity.
  - split; reflexivity.
  - destruct (mul_finite_class false false m mc e ec Hvd Hvc) as (Hv & Hn & Hs).
    split; [exact Hv|]. apply sign_false_nonneg; assumption.
Qed.

(** Multiplying a positive finite value by [1.2] does not decrease it. *)
Lemma mul_1_2_ge (m : positive) (e : Z) :
  valid (S754_finite false m e) = true ->
  leb (S754_finite false m e) (mul (S754_finite false m e) num_1_2) = true.
Proof.
  intros Hv.
  pose proof (mul_canonical_input false false m 5404319552844595 e (-52)
                Hv eq_refl) as Hc.
  pose proof (valid_canonical_input _ _ _ Hv) as Hcx.
  unfold leb, mul, num_1_2, SFmul. simpl xorb.
  rewrite <- (round_canonical false m e Hv) at 1.
  apply (round_exact_mono (Z.pos m) e _ (e + -52) 52 0); lia.
Qed.

(** Dividing by a fixed positive finite value keeps the order of positive
    finite dividends. *)
Lemma div_exp_lower (mx my : positive) (ex ey : Z) :
  -1074 <= ex <= 971 -> -1074 <= ey <= 971 ->
  -2045 <= div_exp mx my ex ey.
Proof. unfold div_exp. lia. Qed.

Lemma div_mono_pos (m1 m2 my : positive) (e1 e2 ey : Z) :
  valid (S754_finite false m1 e1) = true ->
  valid (S754_finite false m2 e2) = true ->
  valid (S754_finite false my ey) = true ->
  SFleb (S754_finite false m1 e1) (S754_finite false m2 e2) = true ->
  SFleb (SFdiv prec emax (S754_finite false m1 e1) (S754_finite false my ey))
        (SFdiv prec emax (S754_finite false m2 e2) (S754_finite false my ey))
  = true.
Proof.
  intros Hv1 Hv2 Hvy Hle.
  pose proof (SFleb_value m1 m2 e1 e2 Hv1 Hv2 Hle) as Hval.
  rewrite !SFdiv_finite_eq. simpl xorb.
  apply valid_finite_facts in Hv1, Hv2, Hvy.
  destruct Hv1 as (He1 & _), Hv2 as (He2 & _), Hvy as (Hey & _).
  pose proof (div_num_pos m1 my e1 ey) as HN1.
  pose proof (div_num_pos m2 my e2 ey) as HN2.
  pose proof (div_exp_le m1 my e1 ey) as Hs1.
  pose proof (div_exp_le m2 my e2 ey) as Hs2.
  pose proof (div_exp_lower m1 my e1 ey He1 Hey) as Hl1.
  pose proof (div_exp_lower m2 my e2 ey He2 Hey) as Hl2.
  apply (SFleb_round_mono _ _ _ _ _ _
           (div_exp m1 my e1 ey + 4000) (div_exp m2 my e2 ey + 4000));
    try lia; try apply div_canonical_input.
  unfold div_num.
  set (d1 := div_exp m1 my e1 ey) in *. set (d2 := div_exp m2 my e2 ey) in *.
  replace (Z.pos m1 * 2 ^ (e1 - ey - d1) * Z.pos my * 2 ^ (d1 + 4000))
    with (Z.pos my * (Z.pos m1 * (2 ^ (e1 - ey - d1) * 2 ^ (d1 + 4000))))
    by ring.
  replace (Z.pos m2 * 2 ^ (e2 - ey - d2) * Z.pos my * 2 ^ (d2 + 4000))
    with (Z.pos my * (Z.pos m2 * (2 ^ (e2 - ey - d2) * 2 ^ (d2 + 4000))))
    by ring.
  rewrite <- !Z.pow_add_r by lia.
  replace (e1 - ey - d1 + (d1 + 4000)) with ((e1 + 1074) + (2926 - ey)) by lia.
  replace (e2 - ey - d2 + (d2 + 4000)) with ((e2 + 1074) + (2926 - ey)) by lia.
  rewrite (Z.pow_add_r 2 (e1 + 1074) (2926 - ey)),
          (Z.pow_add_r 2 (e2 + 1074) (2926 - ey)) by lia.
  pose proof (pow2_pos (2926 - ey) ltac:(lia)) as Hp.
  apply Z.mul_le_mono_nonneg_l; [lia|].
  rewrite !Z.mul_assoc.
  apply Z.mul_le_mono_nonneg_r; [lia|exact Hval].
Qed.

(** Dividing by a fixed positive finite value keeps the order of
    non-negative dividends. *)
Lemma div_mono (x1 x2 : number) (my : positive) (ey : Z) :
  valid x1 = true -> valid x2 = true ->
  valid (S754_finite false my ey) = true ->
  leb zero x1 = true -> leb x1 x2 = true ->
  leb (div x1 (S754_finite false my ey)) (div x2 (S754_finite false my ey))
  = true.
Proof.
  intros Hv1 Hv2 Hvy H0 Hle.
  assert (H02 : leb zero x2 = true) by (eapply SFleb_trans; eassumption).
  destruct (leb_zero_cases x1 H0) as [[s1 ->] | [-> | (m1 & e1 & ->)]];
    destruct (leb_zero_cases x2 H02) as [[s2 ->] | [-> | (m2 & e2 & ->)]];
    try discriminate; unfold leb, div in *.
  - destruct s1, s2; reflexivity.
  - destruct s1; reflexivity.
  - destruct (div_finite_class false false m2 my e2 ey) as (_ & Hn & Hs).
    simpl (SFdiv _ _ (S754_zero _) _).
    apply zero_le_nonneg; assumption.
  - reflexivity.
  - destruct (div_finite_class false false m1 my e1 ey) as (_ & Hn & Hs).
    simpl (SFdiv _ _ pos_infinity _). apply le_infinity. exact Hn.
  - apply div_mono_pos; assumption.
Qed.

(** The quotient of a non-negative value and a positive finite one is not
    negative. *)
Lemma div_nonneg (x : number) (my : positive) (ey : Z) :
  leb zero x = true ->
  leb zero (div x (S754_finite false my ey)) = true.
Proof.
  intros H0.
  destruct (leb_zero_cases x H0) as [[s ->] | [-> | (m & e & ->)]].
  - destruct s; reflexivity.
  - reflexivity.
  - destruct (div_finite_class false false m my e ey) as (_ & Hn & Hs).
    apply sign_false_nonneg; assumption.
Qed.

(** Dividing by [1] changes nothing. *)
Lemma div_one_finite_pos (m : positive) (e : Z) :
  valid (S754_finite false m e) = true ->
  SFdiv prec emax (S754_finite false m e) Num.one = S754_finite false m e.
Proof.
  intros Hv.
  pose proof (valid_canonical_input _ _ _ Hv) as Hcx.
  pose proof (round_canonical false m e Hv) as Hx.
  rewrite round_exact_form in Hx.
  change Num.one with (S754_finite false P52 (-52)).
  rewrite SFdiv_finite_eq. simpl xorb.
  pose proof (div_num_pos m P52 e (-52)) as HN.
  pose proof (div_exp_le m P52 e (-52)) as Hs.
  pose proof (div_canonical_input m P52 e (-52)) as Hc. cbv zeta in Hc.
  apply valid_finite_facts in Hv. destruct Hv as (He & _).
  pose proof (div_exp_lower m P52 e (-52) He ltac:(lia)) as Hl.
  set (d := div_exp m P52 e (-52)) in *.
  assert (Hval : div_num m P52 e (-52) * 2 ^ (d + 4000) =
                 Z.pos m * Z.pos P52 * 2 ^ (e + 4000)).
  { unfold div_num. fold d. rewrite P52_eq.
    rewrite <- !Z.mul_assoc, <- !Z.pow_add_r by lia.
    f_equal. f_equal. lia. }
  apply SFleb_antisym_finite; rewrite <- Hx.
  - apply (SFleb_round_mono (Z.pos m) 1 e _ (Z.pos P52) d (e + 4000) (d + 4000));
      rewrite ?Z.div_1_r; lia.
  - apply (SFleb_round_mono _ (Z.pos P52) d (Z.pos m) 1 e (d + 4000) (e + 4000));
      rewrite ?Z.div_1_r; lia.
Qed.

Lemma div_one_id (x : number) : valid x = true -> div x Num.one = x.
Proof.
  intros Hv. destruct x as [s|s| |s m e]; unfold div.
  - destruct s; reflexivity.
  - destruct s; reflexivity.
  - reflexivity.
  - destruct s; [|apply div_one_finite_pos; exact Hv].
    change Num.one with (S754_finite false P52 (-52)).
    rewrite SFdiv_finite_eq. simpl xorb.
    pose proof (div_num_pos m P52 e (-52)) as HN.
    rewrite round_opp by lia.
    pose proof (div_one_finite_pos m e Hv) as H.
    change Num.one with (S754_finite false P52 (-52)) in H.
    rewrite SFdiv_finite_eq in H. simpl xorb in H. rewrite H. reflexivity.
Qed.

Lemma leb_ltb_false (x y : number) : leb x y = true -> ltb y x = false.
Proof.
  intros H. destruct (SFleb_not_nan x y H) as [Hx Hy].
  apply SFleb_key in H; [|assumption|assumption].
  destruct (ltb y x) eqn:E; [|reflexivity].
  apply SFltb_key in E; [|assumption|assumption].
  destruct (key x) as [[a1 a2] a3], (key y) as [[b1 b2] b3].
  simpl in *. lia.
Qed.

(** Dividing a fixed positive finite value by a larger positive finite
    value gives a smaller quotient. *)
Lemma div_antitone_pos (mx m1 m2 : positive) (ex e1 e2 : Z) :
  valid (S754_finite false mx ex) = true ->
  valid (S754_finite false m1 e1) = true ->
  valid (S754_finite false m2 e2) = true ->
  SFleb (S754_finite false m1 e1) (S754_finite false m2 e2) = true ->
  SFleb (SFdiv prec emax (S754_finite false mx ex) (S754_finite false m2 e2))
        (SFdiv prec emax (S754_finite false mx ex) (S754_finite false m1 e1))
  = true.
Proof.
  intros Hvx Hv1 Hv2 Hle.
  pose proof (SFleb_value m1 m2 e1 e2 Hv1 Hv2 Hle) as Hval.
  rewrite !SFdiv_finite_eq. simpl xorb.
  apply valid_finite_facts in Hvx, Hv1, Hv2.
  destruct Hvx as (Hex & _), Hv1 as (He1 & _), Hv2 as (He2 & _).
  pose proof (div_num_pos mx m1 ex e1) as HN1.
  pose proof (div_num_pos mx m2 ex e2) as HN2.
  pose proof (div_exp_le mx m1 ex e1) as Hs1.
  pose proof (div_exp_le mx m2 ex e2) as Hs2.
  pose proof (div_exp_lower mx m1 ex e1 Hex He1) as Hl1.
  pose proof (div_exp_lower mx m2 ex e2 Hex He2) as Hl2.
  apply (SFleb_round_mono _ _ _ _ _ _
           (div_exp mx m2 ex e2 + 5000) (div_exp mx m1 ex e1 + 5000));
    try lia; try apply div_canonical_input.
  unfold div_num.
  set (d1 := div_exp mx m1 ex e1) in *. set (d2 := div_exp mx m2 ex e2) in *.
  replace (Z.pos mx * 2 ^ (ex - e2 - d2) * Z.pos m1 * 2 ^ (d2 + 5000))
    with (Z.pos mx * (Z.pos m1 * (2 ^ (ex - e2 - d2) * 2 ^ (d2 + 5000))))
    by ring.
  replace (Z.pos mx * 2 ^ (ex - e1 - d1) * Z.pos m2 * 2 ^ (d1 + 5000))
    with (Z.pos mx * (Z.pos m2 * (2 ^ (ex - e1 - d1) * 2 ^ (d1 + 5000))))
    by ring.
  rewrite <- !Z.pow_add_r by lia.
  replace (ex - e2 - d2 + (d2 + 5000))
    with ((e1 + 1074) + (ex - e1 - e2 + 3926)) by lia.
  replace (ex - e1 - d1 + (d1 + 5000))
    with ((e2 + 1074) + (ex - e1 - e2 + 3926)) by lia.
  rewrite (Z.pow_add_r 2 (e1 + 1074) (ex - e1 - e2 + 3926)),
          (Z.pow_add_r 2 (e2 + 1074) (ex - e1 - e2 + 3926)) by lia.
  pose proof (pow2_pos (ex - e1 - e2 + 3926) ltac:(lia)) as Hp.
  apply Z.mul_le_mono_nonneg_l; [lia|].
  rewrite !Z.mul_assoc.
  apply Z.mul_le_mono_nonneg_r; [lia|exact Hval].
Qed.

(** A non-negative finite value divided by a value of at least [1] is at
    most itself. *)
Lemma div_by_ge_one_le (D S : number) :
  counter D = true -> valid S = true -> leb Num.one S = true ->
  leb (div D S) D = true.
Proof.
  intros HD HvS HS.
  destruct (counter_cases D HD) as [[s ->] | (m & e & -> & Hv)];
    destruct (ge_one_cases S HvS HS) as [-> | (ms & es & -> & _)].
  - destruct s; reflexivity.
  - destruct s; reflexivity.
  - reflexivity.
  - unfold leb, div.
    rewrite <- (div_one_finite_pos m e Hv) at 2.
    apply (div_antitone_pos m P52 ms e (-52) es);
      first [assumption | reflexivity].
Qed.

Lemma ltb_of_not_leb (x y : number) :
  is_nan x = false -> is_nan y = false -> leb y x = false -> ltb x y = true.
Proof.
  intros Hx Hy H. destruct (ltb x y) eqn:E; [reflexivity|].
  apply SFltb_false_leb in E; [|assumption|assumption].
  unfold leb in H. congruence.
Qed.

Lemma leb_ltb_trans (x y z : number) :
  leb x y = true -> ltb y z = true -> ltb x z = true.
Proof.
  intros H1 H2.
  destruct (SFleb_not_nan x y H1) as [Hx Hy].
  assert (Hz : is_nan z = false).
  { apply SFltb_leb in H2. apply SFleb_not_nan in H2. tauto. }
  apply SFleb_key in H1; [|assumption|assumption].
  apply SFltb_key in H2; [|assumption|assumption].
  apply SFltb_key; [assumption|assumption|].
  destruct (key x) as [[a1 a2] a3], (key y) as [[b1 b2] b3],
           (key z) as [[c1 c2] c3].
  simpl in *. lia.
Qed.

(** A value below [2 ^ 20] divided by [2 ^ 10] is below [2 ^ 10]. *)
Lemma div_KB_below (m : positive) (e : Z) :
  valid (S754_finite false m e) = true ->
  ltb (S754_finite false m e) BYTES_PER_MB = true ->
  ltb (div (S754_finite false m e) BYTES_PER_KB) BYTES_PER_KB = true.
Proof.
  intros Hv Hlt.
  destruct (div_finite_class false false m P52 e (-42)) as (_ & Hn & _).
  apply ltb_of_not_leb; [exact Hn|reflexivity|].
  destruct (leb BYTES_PER_KB (div (S754_finite false m e) BYTES_PER_KB))
    eqn:E; [|reflexivity].
  exfalso.
  change BYTES_PER_KB with (S754_finite false P52 (10 - 52)) in E at 1.
  change BYTES_PER_KB with (S754_finite false P52 (-42)) in E.
  unfold leb, div in E.
  apply (div_threshold_value m P52 e (-42) 10 Hv eq_refl ltac:(lia)) in E.
  apply SFltb_key in Hlt; [|reflexivity|reflexivity].
  apply valid_finite_facts in Hv. destruct Hv as (He & _ & Hm & Hnorm).
  simpl in Hlt.
  assert (Hex : e <= -33).
  { destruct (Z_le_gt_dec e (-33)) as [|Hgt]; [assumption|].
    destruct (Hnorm ltac:(lia)) as [_ Hm52].
    change (2 ^ 52) with 4503599627370496 in Hm52. lia. }
  rewrite P52_eq in E.
  replace (2980 - -42 - 10) with 3012 in E by lia.
  replace ((2 ^ 54 - 1) * 2 ^ 52 * 2 ^ 4000) with ((2 ^ 54 - 1) * 2 ^ 4052) in E
    by (rewrite <- Z.mul_assoc, <- Z.pow_add_r by lia; reflexivity).
  replace (Z.pos m * 2 ^ (e + 1074) * 2 ^ 3012)
    with (Z.pos m * 2 ^ (e + 1074 + 3012)) in E
    by (rewrite <- Z.mul_assoc, <- Z.pow_add_r by lia; reflexivity).
  assert (Hpw : 2 ^ (e + 1074 + 3012) <= 2 ^ 4053) by (apply pow2_le; lia).
  assert (H4053 : 2 ^ 4053 = 2 * 2 ^ 4052).
  { change 4053 with (1 + 4052). rewrite Z.pow_add_r by lia. reflexivity. }
  pose proof (pow2_pos 4052 ltac:(lia)) as HP.
  pose proof (pow2_pos (e + 1074 + 3012) ltac:(lia)) as HQ.
  set (P := 2 ^ 4052) in *. set (Q := 2 ^ (e + 1074 + 3012)) in *.
  change (2 ^ 54) with 18014398509481984 in E.
  change (2 ^ 53) with 9007199254740992 in Hm.
  assert (Z.pos m * Q <= 9007199254740991 * (2 * P)).
  { apply Z.mul_le_mono_nonneg; lia. }
  lia.
Qed.

Lemma leb_positive (c M : number) :
  leb c M = true -> ltb zero c = true -> ltb zero M = true.
Proof.
  intros H1 H2.
  destruct (SFleb_not_nan c M H1) as [Hc HM].
  apply SFleb_key in H1; [|assumption|assumption].
  apply SFltb_key in H2; [|reflexivity|assumption].
  apply SFltb_key; [reflexivity|assumption|].
  destruct (key c) as [[a1 a2] a3], (key M) as [[b1 b2] b3].
  simpl in *. lia.
Qed.

(** Multiplying a fixed positive finite value by a larger positive finite
    value gives a larger product. *)
Lemma mul_mono_pos (mc m1 m2 : positive) (ec e1 e2 : Z) :
  valid (S754_finite false mc ec) = true ->
  valid (S754_finite false m1 e1) = true ->
  valid (S754_finite false m2 e2) = true ->
  SFleb (S754_finite false m1 e1) (S754_finite false m2 e2) = true ->
  SFleb (SFmul prec emax (S754_finite false mc ec) (S754_finite false m1 e1))
        (SFmul prec emax (S754_finite false mc ec) (S754_finite false m2 e2))
  = true.
Proof.
  intros Hvc Hv1 Hv2 Hle.
  pose proof (SFleb_value m1 m2 e1 e2 Hv1 Hv2 Hle) as Hval.
  pose proof (mul_canonical_input false false mc m1 ec e1 Hvc Hv1) as Hc1.
  pose proof (mul_canonical_input false false mc m2 ec e2 Hvc Hv2) as Hc2.
  apply valid_finite_facts in Hvc, Hv1, Hv2.
  destruct Hvc as (Hec & _), Hv1 as (He1 & _), Hv2 as (He2 & _).
  unfold SFmul. simpl xorb.
  apply (round_exact_mono _ (ec + e1) _ (ec + e2) (e1 + 1074) (e2 + 1074));
    try lia; try assumption.
  rewrite !Pos2Z.inj_mul, <- !Z.mul_assoc.
  apply Z.mul_le_mono_nonneg_l; [lia|exact Hval].
Qed.

(** Multiplying a fixed positive finite value by non-negative values keeps
    their order, and the product is a valid non-negative value. *)
Lemma mul_mono (mc : positive) (ec : Z) (x1 x2 : number) :
  valid (S754_finite false mc ec) = true ->
  valid x1 = true -> valid x2 = true ->
  leb zero x1 = true -> leb x1 x2 = true ->
  valid (mul (S754_finite false mc ec) x1) = true /\
  leb zero (mul (S754_finite false mc ec) x1) = true /\
  leb (mul (S754_finite false mc ec) x1) (mul (S754_finite false mc ec) x2)
  = true.
Proof.
  intros Hvc Hv1 Hv2 H0 Hle.
  assert (H02 : leb zero x2 = true) by (eapply SFleb_trans; eassumption).
  destruct (leb_zero_cases x1 H0) as [[s1 ->] | [-> | (m1 & e1 & ->)]];
    destruct (leb_zero_cases x2 H02) as [[s2 ->] | [-> | (m2 & e2 & ->)]];
    try discriminate; unfold leb, mul in *.
  - destruct s1, s2; repeat split.
  - destruct s1; repeat split.
  - destruct (mul_finite_class false false mc m2 ec e2 Hvc Hv2)
      as (_ & Hn & Hs).
    simpl (SFmul _ _ _ (S754_zero _)).
    split; [reflexivity|]. split; [destruct s1; reflexivity|].
    apply zero_le_nonneg; assumption.
  - repeat split.
  - destruct (mul_finite_class false false mc m1 ec e1 Hvc Hv1)
      as (Hv & Hn & Hs).
    split; [exact Hv|]. split; [apply sign_false_nonneg; assumption|].
    simpl (SFmul _ _ _ pos_infinity). apply le_infinity. exact Hn.
  - destruct (mul_finite_class false false mc m1 ec e1 Hvc Hv1)
      as (Hv & Hn & Hs).
    split; [exact Hv|]. split; [apply sign_false_nonneg; assumption|].
    apply mul_mono_pos; assumption.
Qed.

(** ** Exact results on integers *)

(** Two values each at most the other, of the same sign, are the same. *)
Lemma SFleb_antisym (a b : spec_float) :
  SFleb a b = true -> SFleb b a = true -> sign a = sign b -> a = b.
Proof.
  intros H1 H2 Hs.
  destruct (SFleb_not_nan _ _ H1) as [Ha Hb].
  apply SFleb_key in H1; [|assumption|assumption].
  apply SFleb_key in H2; [|assumption|assumption].
  destruct a as [[]|[]| |[] ma ea], b as [[]|[]| |[] mb eb];
    try discriminate; try reflexivity; simpl in *; try lia.
  - assert (ea = eb) by lia. assert (Z.pos ma = Z.pos mb) by lia.
    subst eb. f_equal. lia.
  - assert (ea = eb) by lia. assert (Z.pos ma = Z.pos mb) by lia.
    subst eb. f_equal. lia.
Qed.

(** Exact inputs of the same value round to the same result. *)
Lemma round_exact_value_eq (s : bool) (N1 e1 N2 e2 a b : Z) :
  0 <= N1 -> 0 <= N2 ->
  e1 <= Z.max (Zdigits2 N1 + e1 - 53) (-1074) ->
  e2 <= Z.max (Zdigits2 N2 + e2 - 53) (-1074) ->
  0 <= a -> 0 <= b -> a - b = e1 - e2 ->
  N1 * 2 ^ a = N2 * 2 ^ b ->
  binary_round_aux prec emax s N1 e1 loc_Exact =
  binary_round_aux prec emax s N2 e2 loc_Exact.
Proof.
  intros HN1 HN2 Hc1 Hc2 Ha Hb Hab Hval.
  assert (Hpos : binary_round_aux prec emax false N1 e1 loc_Exact =
                 binary_round_aux prec emax false N2 e2 loc_Exact).
  { destruct (round_exact_class false N1 e1 HN1) as [_ Hs1].
    destruct (round_exact_class false N2 e2 HN2) as [_ Hs2].
    apply SFleb_antisym.
    - apply (round_exact_mono N1 e1 N2 e2 a b); try assumption; lia.
    - apply (round_exact_mono N2 e2 N1 e1 b a); try assumption; lia.
    - rewrite Hs1, Hs2. reflexivity. }
  destruct s; [|exact Hpos].
  rewrite !round_exact_opp by assumption. rewrite Hpos. reflexivity.
Qed.

(** [binary_round] only depends on the value [m * 2 ^ e]. *)
Lemma binary_round_value_eq (s : bool) (m1 m2 : positive) (e1 e2 e0 : Z) :
  e0 <= e1 -> e0 <= e2 ->
  Z.pos m1 * 2 ^ (e1 - e0) = Z.pos m2 * 2 ^ (e2 - e0) ->
  binary_round prec emax s m1 e1 = binary_round prec emax s m2 e2.
Proof.
  intros H1 H2 Hval.
  destruct (binary_round_eq s m1 e1) as (N1 & e1' & -> & HN1 & He1 & HN1eq & Hc1).
  destruct (binary_round_eq s m2 e2) as (N2 & e2' & -> & HN2 & He2 & HN2eq & Hc2).
  set (c := Z.min e0 (Z.min e1' e2')).
  apply (round_exact_value_eq s N1 e1' N2 e2' (e1' - c) (e2' - c));
    try lia.
  rewrite HN1eq, HN2eq, <- !Z.mul_assoc, <- !Z.pow_add_r by lia.
  replace (e1 - e1' + (e1' - c)) with ((e1 - e0) + (e0 - c)) by lia.
  replace (e2 - e2' + (e2' - c)) with ((e2 - e0) + (e0 - c)) by lia.
  rewrite !Z.pow_add_r by lia. rewrite !Z.mul_assoc, Hval. reflexivity.
Qed.

Lemma binary_normalize_value_eq (M1 M2 e1 e2 e0 : Z) :
  e0 <= e1 -> e0 <= e2 ->
  M1 * 2 ^ (e1 - e0) = M2 * 2 ^ (e2 - e0) ->
  binary_normalize prec emax M1 e1 false =
  binary_normalize prec emax M2 e2 false.
Proof.
  intros H1 H2 Hval.
  pose proof (pow2_pos (e1 - e0) ltac:(lia)) as Hp1.
  pose proof (pow2_pos (e2 - e0) ltac:(lia)) as Hp2.
  destruct M1 as [|p1|p1], M2 as [|p2|p2]; unfold binary_normalize;
    try reflexivity; try (exfalso; nia).
  - apply (binary_round_value_eq false p1 p2 e1 e2 e0); assumption.
  - apply (binary_round_value_eq true p1 p2 e1 e2 e0); try assumption.
    lia.
Qed.

(** A positive integer below [2 ^ 53] is a number, with its own value. *)
Lemma of_Z_finite (a : Z) :
  0 < a < 2 ^ 53 ->
  exists m e, of_Z a = S754_finite false m e /\
              valid (S754_finite false m e) = true /\
              e <= 0 /\ Z.pos m = a * 2 ^ (- e).
Proof.
  intros Ha. destruct a as [|p|p]; try lia.
  unfold of_Z, binary_normalize, binary_round.
  pose proof (shl_align_eq p 0 (fexp prec emax (Z.pos (digits2_pos p) + 0)))
    as [He Hm].
  destruct (shl_align p 0 (fexp prec emax (Z.pos (digits2_pos p) + 0)))
    as [mz ez].
  simpl fst in Hm. simpl snd in He. rewrite fexp_eq in He, Hm.
  pose proof (Pos2Z.is_pos (digits2_pos p)) as Hd0.
  assert (Hd : Z.pos (digits2_pos p) <= 53).
  { change (Z.pos (digits2_pos p)) with (Zdigits2 (Z.pos p)).
    apply Zdigits2_le; lia. }
  assert (Hez : ez = Z.pos (digits2_pos p) - 53) by lia.
  assert (Hdz : Zdigits2 (Z.pos mz) = 53).
  { rewrite Hm. rewrite (Zdigits2_shift (Z.pos p)) by lia.
    simpl Zdigits2. lia. }
  assert (Hv : valid (S754_finite false mz ez) = true).
  { apply valid_finite_iff. simpl Zdigits2 in Hdz. lia. }
  exists mz, ez. split; [apply round_canonical; exact Hv|].
  split; [exact Hv|]. split; [lia|].
  rewrite Hm. f_equal. f_equal. lia.
Qed.

Lemma of_Z_opp (a : Z) : a <> 0 -> of_Z (- a) = SFopp (of_Z a).
Proof.
  intros Ha.
  destruct a as [|p|p]; [contradiction| |];
    unfold of_Z, binary_normalize; simpl Z.opp; unfold binary_round;
    destruct (shl_align p 0 (fexp prec emax (Z.pos (digits2_pos p) + 0)))
      as [mz ez].
  - apply round_exact_opp. lia.
  - rewrite round_exact_opp by lia.
    destruct (binary_round_aux prec emax false (Z.pos mz) ez loc_Exact)
      as [[]|[]| |[] m e]; reflexivity.
Qed.

(** The difference of two non-negative integers below [2 ^ 53] is
    exact. *)
Lemma sub_of_Z (a b : Z) :
  0 <= a < 2 ^ 53 -> 0 <= b < 2 ^ 53 ->
  sub (of_Z a) (of_Z b) = of_Z (a - b).
Proof.
  intros Ha Hb.
  destruct (Z.eq_dec b 0) as [-> | Hb0].
  { rewrite Z.sub_0_r. destruct (Z.eq_dec a 0) as [-> | Ha0]; [reflexivity|].
    destruct (of_Z_finite a ltac:(lia)) as (m & e & -> & _). reflexivity. }
  destruct (of_Z_finite b ltac:(lia)) as (mb & eb & Hbe & Hvb & Heb & Hmb).
  destruct (Z.eq_dec a 0) as [-> | Ha0].
  { rewrite Z.sub_0_l, of_Z_opp, Hbe by exact Hb0. reflexivity. }
  destruct (of_Z_finite a ltac:(lia)) as (ma & ea & Hae & Hva & Hea & Hma).
  rewrite Hae, Hbe. unfold sub.
  change (SFsub prec emax (S754_finite false ma ea) (S754_finite false mb eb))
    with (binary_normalize prec emax
            (cond_Zopp false (Z.pos (fst (shl_align ma ea (Z.min ea eb)))) -
             cond_Zopp false (Z.pos (fst (shl_align mb eb (Z.min ea eb)))))
            (Z.min ea eb) false).
  destruct (aligned_mantissa ma ea eb) as [-> _].
  destruct (aligned_mantissa mb eb ea) as [_ ->].
  unfold of_Z. unfold cond_Zopp.
  set (ez := Z.min ea eb).
  apply (binary_normalize_value_eq _ _ ez 0 ez); try lia.
  rewrite Z.sub_diag, Z.mul_1_r, Hma, Hmb.
  rewrite <- !Z.mul_assoc, <- !Z.pow_add_r by lia.
  replace (- ea + (ea - ez)) with (0 - ez) by lia.
  replace (- eb + (eb - ez)) with (0 - ez) by lia.
  ring.
Qed.

(** The quotient of two positive integers below [2 ^ 53], when it is an
    integer, is exact. *)
Lemma div_of_Z_exact (d q : Z) :
  0 < d -> 0 < q -> d * q < 2 ^ 53 ->
  div (of_Z (d * q)) (of_Z d) = of_Z q.
Proof.
  intros Hd Hq Hn.
  assert (Hd53 : d < 2 ^ 53) by nia.
  assert (Hq53 : q < 2 ^ 53) by nia.
  destruct (of_Z_finite (d * q) ltac:(nia)) as (mn & en & -> & Hvn & Hen & Hmn).
  destruct (of_Z_finite d ltac:(lia)) as (md & ed & -> & Hvd & Hed & Hmd).
  destruct (of_Z_finite q ltac:(lia)) as (mq & eq & -> & Hvq & Heq & Hmq).
  unfold div. rewrite SFdiv_finite_eq. simpl xorb.
  pose proof (valid_canonical_input _ _ _ Hvq) as Hcq.
  pose proof (round_canonical false mq eq Hvq) as Hx.
  rewrite round_exact_form in Hx.
  pose proof (div_num_pos mn md en ed) as HN.
  pose proof (div_exp_le mn md en ed) as Hs.
  pose proof (div_canonical_input mn md en ed) as Hc. cbv zeta in Hc.
  pose proof Hvn as Hvn'. pose proof Hvd as Hvd'. pose proof Hvq as Hvq'.
  apply valid_finite_facts in Hvn', Hvd', Hvq'.
  destruct Hvn' as (Hen' & _), Hvd' as (Hed' & _), Hvq' as (Heq' & _).
  pose proof (div_exp_lower mn md en ed Hen' Hed') as Hl.
  set (e' := div_exp mn md en ed) in *.
  assert (Hval : div_num mn md en ed * 2 ^ (e' + 5000) =
                 Z.pos mq * Z.pos md * 2 ^ (eq + 5000)).
  { unfold div_num. fold e'. rewrite Hmn, Hmq, Hmd.
    rewrite <- !Z.mul_assoc, <- !Z.pow_add_r by lia.
    replace (d * (q * 2 ^ (- en + (en - ed - e' + (e' + 5000)))))
      with (d * q * 2 ^ (5000 - ed)) by (rewrite <- Z.mul_assoc; do 3 f_equal; lia).
    replace (q * (2 ^ (- eq) * (d * 2 ^ (- ed + (eq + 5000)))))
      with (d * q * (2 ^ (- eq) * 2 ^ (- ed + (eq + 5000)))) by ring.
    rewrite <- Z.pow_add_r by lia. do 2 f_equal. lia. }
  apply SFleb_antisym_finite; rewrite <- Hx.
  - apply (SFleb_round_mono (Z.pos mq) 1 eq _ (Z.pos md) e'
             (eq + 5000) (e' + 5000));
      rewrite ?Z.div_1_r; try lia.
  - apply (SFleb_round_mono _ (Z.pos md) e' (Z.pos mq) 1 eq
             (e' + 5000) (eq + 5000));
      rewrite ?Z.div_1_r; try lia.
Qed.

Lemma max_zero_of_Z (d : Z) :
  - 2 ^ 53 < d < 2 ^ 53 -> Num.max zero (of_Z d) = of_Z (Z.max 0 d).
Proof.
  intros Hd.
  destruct (Z_le_gt_dec d 0) as [Hle | Hgt].
  - replace (Z.max 0 d) with 0 by lia.
    destruct (Z.eq_dec d 0) as [-> | Hne]; [reflexivity|].
    replace d with (- (- d)) by lia.
    rewrite of_Z_opp by lia.
    destruct (of_Z_finite (- d) ltac:(lia)) as (m & e & -> & _).
    reflexivity.
  - replace (Z.max 0 d) with d by lia.
    destruct (of_Z_finite d ltac:(lia)) as (m & e & -> & _).
    reflexivity.
Qed.

Lemma max_one_of_Z (k : Z) :
  1 <= k < 2 ^ 53 -> Num.max Num.one (of_Z k) = of_Z k.
Proof.
  intros Hk.
  destruct (Z.eq_dec k 1) as [-> | Hne]; [reflexivity|].
  destruct (of_Z_finite k ltac:(lia)) as (m & e & Hke & Hv & He & Hm).
  rewrite Hke.
  assert (Hlt : ltb Num.one (S754_finite false m e) = true).
  { apply SFltb_key; [reflexivity|reflexivity|]. simpl.
    apply valid_finite_facts in Hv. destruct Hv as (_ & _ & Hm53 & _).
    assert (Hp : 2 ^ 53 <= 2 ^ (- e) -> False).
    { intros Hp. rewrite Hm in Hm53. nia. }
    assert (He52 : -53 < e).
    { destruct (Z_lt_le_dec (-53) e) as [|Hle]; [assumption|].
      exfalso. apply Hp. apply pow2_le. lia. }
    destruct (Z.eq_dec e (-52)) as [-> | Hne52]; [|lia].
    right. split; [reflexivity|]. right. split; [reflexivity|].
    rewrite Hm. change (- -52) with 52.
    change (2 ^ 52) with 4503599627370496. lia. }
  destruct (max_one_cases (S754_finite false m e))
    as [[Hn _] | [(_ & Hf & _) | [_ ->]]]; [discriminate|congruence|reflexivity].
Qed.

(** * Lists and strings *)

Lemma list_eq_dec_nil {A : Type} (l : list A) : l = [] \/ l <> [].
Proof. destruct l; [left; reflexivity|right; discriminate]. Qed.

Lemma string_length_append (a b : string) :
  String.length (String.append a b) =
  (String.length a + String.length b)%nat.
Proof. induction a as [|c a IH]; simpl; [reflexivity|]. rewrite IH. reflexivity. Qed.

(** * The time axis *)

(** The padded bounds enclose the interval they pad. *)
Lemma time_bounds (lo hi : number) :
  finite_number lo = true -> finite_number hi = true -> leb lo hi = true ->
  let pad := mul (sub hi lo) num_0_02 in
  leb (sub lo pad) lo = true /\ leb hi (add hi pad) = true.
Proof.
  intros Hlo Hhi Hle pad.
  destruct (finite_number_facts _ Hlo) as [Hvl Hfl].
  destruct (finite_number_facts _ Hhi) as [Hvh Hfh].
  destruct (sub_finite_class hi lo Hvh Hvl Hfh Hfl) as [Hvd _].
  destruct (sub_sign hi lo Hvh Hvl Hfh Hfl) as [Hd _]. specialize (Hd Hle).
  destruct (mul_nonneg (sub hi lo) 5764607523034235 (-58) Hvd eq_refl Hd)
    as [Hvp Hp].
  split; [apply sub_nonneg_le | apply add_nonneg_ge]; assumption.
Qed.

Lemma time_min_hd (l : list StatDatapoint) :
  TimeAxis.min (Some l) = hd zero (map date l).
Proof. destruct l; reflexivity. Qed.

Lemma time_max_last (l : list StatDatapoint) :
  TimeAxis.max (Some l) = last (map date l) zero.
Proof.
  destruct (list_eq_dec_nil l) as [-> | Hne]; [reflexivity|].
  destruct (exists_last Hne) as (l' & a & ->).
  unfold TimeAxis.max.
  rewrite nth_error_snoc_last.
  destruct (Nat.eqb_spec (List.length (l' ++ [a])) 0) as [H0 | _].
  { rewrite length_app in H0. simpl in H0. lia. }
  simpl option_map. unfold nullish.
  rewrite map_app. simpl (map date [a]). rewrite last_last. reflexivity.
Qed.

Lemma last_app_nonempty {A : Type} (l m : list A) (d : A) :
  m <> [] -> last (l ++ m) d = last m d.
Proof.
  intros Hm. destruct (exists_last Hm) as (m' & a & ->).
  rewrite app_assoc, !last_last. reflexivity.
Qed.

(** The first and the last date of the points of all the series, when every
    series has the dates [L]. *)
Lemma flattened_dates (series : list Series) (L : list number) :
  series <> [] ->
  Forall (fun s => map date (data s) = L) series ->
  hd zero (map date (flat_map data series)) = hd zero L /\
  last (map date (flat_map data series)) zero = last L zero.
Proof.
  induction series as [|s rest IH]; [contradiction|].
  intros _ Hall. inversion Hall as [|? ? Hs Hrest]; subst.
  simpl flat_map. rewrite map_app.
  destruct (list_eq_dec_nil rest) as [-> | Hne].
  - simpl. rewrite app_nil_r. split; reflexivity.
  - destruct (IH Hne Hrest) as [IHhd IHlast].
    destruct (map date (data s)) as [|x L'] eqn:EL.
    + simpl app. split; assumption.
    + split; [reflexivity|].
      destruct (map date (flat_map data rest)) as [|y M] eqn:EM.
      * rewrite app_nil_r. reflexivity.
      * rewrite last_app_nonempty by discriminate. exact IHlast.
Qed.

Section TimeAxisFacts.

Variable convert : number -> number.

(** Every series of every kind has one point per record, dated in the order
    of the reversed records. *)
Lemma seriesData_dates (stats : list SystemStatsRecord) (type : StatType) :
  exists series,
    seriesData convert (Some stats) type = Normal series /\
    series <> [] /\
    Forall (fun s => map date (data s) =
                     map (fun r => convert (ts r)) (rev stats)) series.
Proof.
  destruct type; unfold seriesData; try rewrite rate_eq; simpl bind;
    eexists; (split; [reflexivity|]); (split; [discriminate|]);
    repeat constructor; simpl data;
    unfold load_series;
    rewrite ?map_map, ?rate_from_dates; reflexivity.
Qed.

Lemma point_date_of_record (stats : list SystemStatsRecord)
    (series : list Series) (s : Series) (pt : StatDatapoint) :
  Forall (fun s => map date (data s) =
                   map (fun r => convert (ts r)) (rev stats)) series ->
  In s series -> In pt (data s) ->
  exists r, In r stats /\ date pt = convert (ts r).
Proof.
  intros Hall Hs Hpt.
  rewrite Forall_forall in Hall. specialize (Hall s Hs).
  assert (Hin : In (date pt) (map date (data s))) by (apply in_map; exact Hpt).
  rewrite Hall in Hin. apply in_map_iff in Hin.
  destruct Hin as (r & Hr & Hin). exists r.
  split; [apply in_rev; exact Hin|symmetry; exact Hr].
Qed.

Lemma chart_time_span (stats : list SystemStatsRecord) (type : StatType) :
  exists series,
    seriesData convert (Some stats) type = Normal series /\
    Forall (fun s => map date (data s) =
                     map (fun r => convert (ts r)) (rev stats)) series /\
    forall newest rest, stats = newest :: rest ->
      TimeAxis.min (Some (flat_map data series)) =
        convert (ts (last stats newest)) /\
      TimeAxis.max (Some (flat_map data series)) = convert (ts newest).
Proof.
  destruct (seriesData_dates stats type) as (series & Hsd & Hne & Hall).
  exists series. split; [exact Hsd|]. split; [exact Hall|].
  intros newest rest Hst.
  destruct (flattened_dates series _ Hne Hall) as [Hhd Hlast].
  rewrite time_min_hd, time_max_last, Hhd, Hlast.
  split.
  - assert (Hne' : stats <> []) by (rewrite Hst; discriminate).
    destruct (exists_last Hne') as (l' & oldest & ->).
    rewrite rev_unit, last_last. reflexivity.
  - rewrite Hst. simpl rev. rewrite map_app. simpl (map _ [newest]).
    apply last_last.
Qed.

End TimeAxisFacts.

Lemma last_in {A : Type} (l : list A) (d : A) : In (last l d) (d :: l).
Proof.
  destruct (list_eq_dec_nil l) as [-> | Hne]; [left; reflexivity|].
  destruct (exists_last Hne) as (l' & a & ->).
  rewrite last_last. right. apply in_or_app. right. left. reflexivity.
Qed.

Lemma number_eqb_refl (x : number) : is_nan x = false -> eqb x x = true.
Proof.
  destruct x as [[]|[]| |[] m e]; intros H; try discriminate;
    try reflexivity; unfold eqb, SFeqb, SFcompare;
    rewrite Z.compare_refl, Pos.compare_cont_refl; reflexivity.
Qed.

Section TimeAxisTheorems.

Variable convert : number -> number.

(** Whatever the kind, the time axis is computed from the converted
    timestamps of the oldest and of the newest record: [min] is the date of
    the last record of the response (it comes newest first) and [max] that
    of its first record, also when the points of the three Load Average
    series are flattened into one array. *)
Theorem time_axis_spans_records (newest : SystemStatsRecord)
    (rest : list SystemStatsRecord) (type : StatType) :
  exists series,
    seriesData convert (Some (newest :: rest)) type = Normal series /\
    TimeAxis.min (Some (flat_map data series)) =
      convert (ts (last rest newest)) /\
    TimeAxis.max (Some (flat_map data series)) = convert (ts newest).
Proof.
  destruct (chart_time_span convert (newest :: rest) type)
    as (series & Hsd & _ & Hspan).
  exists series. split; [exact Hsd|].
  destruct (Hspan newest rest eq_refl) as [Hmin Hmax].
  split; [|exact Hmax].
  rewrite Hmin. f_equal. f_equal.
  destruct rest; reflexivity.
Qed.

(** When the converted timestamps are finite and lie between those of the
    oldest and of the newest record, the date of every point of every
    series lies between the numbers [hardMin] and [hardMax] are built from:
    the 2 % padding never cuts a point off the time axis, rounding
    included. *)
Theorem time_axis_encloses_points (newest : SystemStatsRecord)
    (rest : list SystemStatsRecord) (type : StatType) :
  let stats := newest :: rest in
  let oldest := last rest newest in
  (forall r, In r stats ->
     finite_number (convert (ts r)) = true /\
     leb (convert (ts oldest)) (convert (ts r)) = true /\
     leb (convert (ts r)) (convert (ts newest)) = true) ->
  exists series,
    seriesData convert (Some stats) type = Normal series /\
    let axis := TimeAxis.timeAxis (Some (flat_map data series)) in
    Forall (fun s =>
              Forall (fun pt =>
                        leb (argument (hardMin axis)) (date pt) = true /\
                        leb (date pt) (argument (hardMax axis)) = true)
                     (data s))
           series.
Proof.
  intros stats oldest Hdates.
  destruct (chart_time_span convert stats type)
    as (series & Hsd & Hall & Hspan).
  exists series. split; [exact Hsd|].
  destruct (Hspan newest rest eq_refl) as [Hmin Hmax].
  assert (Hold : last stats newest = oldest)
    by (unfold stats, oldest; destruct rest; reflexivity).
  rewrite Hold in Hmin.
  assert (Hin_new : In newest stats) by (left; reflexivity).
  assert (Hin_old : In oldest stats) by apply last_in.
  destruct (Hdates newest Hin_new) as (Hfn & Hon & _).
  destruct (Hdates oldest Hin_old) as (Hfo & _ & _).
  destruct (time_bounds _ _ Hfo Hfn Hon) as [Hlo Hhi].
  cbv zeta. unfold TimeAxis.timeAxis, TimeAxis.diff.
  simpl argument. rewrite Hmin, Hmax.
  apply Forall_forall. intros s Hs. apply Forall_forall. intros pt Hpt.
  destruct (point_date_of_record convert stats series s pt Hall Hs Hpt)
    as (r & Hr & ->).
  destruct (Hdates r Hr) as (_ & Hge & Hle).
  split; eapply SFleb_trans; eassumption.
Qed.

End TimeAxisTheorems.

(** When the first and the last point carry the same finite date (a single
    point; no point at all, where the date is [0]), the padding is [0] and
    both hard bounds are built from that date: the time axis has no
    width. *)
Theorem time_axis_zero_width (stats : option (list StatDatapoint)) :
  TimeAxis.max stats = TimeAxis.min stats ->
  is_finite (TimeAxis.min stats) = true ->
  let axis := TimeAxis.timeAxis stats in
  eqb (argument (hardMin axis)) (TimeAxis.min stats) = true /\
  eqb (argument (hardMax axis)) (TimeAxis.min stats) = true.
Proof.
  intros Heq Hfin. cbv zeta.
  unfold TimeAxis.timeAxis, TimeAxis.diff. simpl argument. rewrite Heq.
  destruct (TimeAxis.min stats) as [s|s| |s m e]; try discriminate.
  - destruct s; split; reflexivity.
  - assert (Hd : sub (S754_finite s m e) (S754_finite s m e) = zero).
    { unfold sub. simpl SFsub. rewrite Z.sub_diag. reflexivity. }
    rewrite Hd.
    split; apply (number_eqb_refl (S754_finite s m e)); reflexivity.
Qed.

(** * The value axis holds the points *)

(** The axis maximum before the division is valid and not below the
    maximum it is computed from. *)
Lemma headroom_ge (M : number) :
  valid M = true -> leb zero M = true ->
  valid (headroom M) = true /\ leb M (headroom M) = true.
Proof.
  intros Hv H0.
  destruct (leb_zero_cases M H0) as [[s ->] | [-> | (m & e & ->)]].
  - destruct s; split; reflexivity.
  - split; reflexivity.
  - destruct (headroom_finite m e Hv) as (-> & Hvh & _).
    split; [exact Hvh|]. apply mul_1_2_ge. exact Hv.
Qed.

Lemma choose_divisor (M : number) :
  exists (my : positive) (ey : Z),
    snd (choose M) = S754_finite false my ey /\
    valid (S754_finite false my ey) = true.
Proof.
  unfold choose.
  destruct (geb M BYTES_PER_MB); [|destruct (geb M BYTES_PER_KB)];
    eexists _, _; split; reflexivity.
Qed.

(** A non-negative value that is at most the maximum is plotted between
    [0] and the axis maximum. *)
Lemma plotted_within (type : StatType) (M : number) (d : StatDatapoint) :
  scaled_axis type = true ->
  valid M = true -> leb zero M = true ->
  valid (value d) = true -> leb zero (value d) = true ->
  leb (value d) M = true ->
  let ax := axisUnit type M in
  leb zero (getValue type (unitDivisor ax) d) = true /\
  leb (getValue type (unitDivisor ax) d) (maxUnitValue ax) = true.
Proof.
  intros Hty HvM H0M Hv H0 Hle ax.
  destruct (headroom_ge M HvM H0M) as [Hvh Hh].
  assert (Hvh' : leb (value d) (headroom M) = true)
    by (eapply SFleb_trans; eassumption).
  destruct type; try discriminate; unfold ax, axisUnit, getValue;
    simpl unitDivisor; simpl maxUnitValue.
  - destruct (choose_divisor M) as (my & ey & -> & Hvy).
    split; [apply div_nonneg; exact H0|apply div_mono; assumption].
  - destruct (choose_divisor M) as (my & ey & -> & Hvy).
    split; [apply div_nonneg; exact H0|apply div_mono; assumption].
  - split; assumption.
Qed.

(** For the kinds whose axis follows the data (the two network kinds and
    Load Average) and values that are non-negative numbers, every plotted
    value lies between the axis minimum [0] and the axis maximum: the
    headroom of 1.2 and the division by the unit never let a point fall
    off the value axis, rounding included. *)
Theorem plotted_within_value_axis (type : StatType)
    (stats : option (list StatDatapoint)) (series : list Series) :
  scaled_axis type = true ->
  (forall s pt, In s series -> In pt (data s) ->
     valid (value pt) = true /\ leb zero (value pt) = true) ->
  let chart := InnerStatChart type stats (Some series) in
  Forall (fun shown =>
            Forall (fun y => leb (axisMin chart) y = true /\
                             leb y (maxUnitValue (axis chart)) = true)
                   (snd shown))
         (plotted chart).
Proof.
  intros Hty Hvals chart.
  set (V := flat_map (fun s => map value (data s)) series).
  assert (HV : forall v, In v V -> valid v = true /\ leb zero v = true).
  { intros v Hv. unfold V in Hv. apply in_flat_map in Hv.
    destruct Hv as (s & Hs & Hv). apply in_map_iff in Hv.
    destruct Hv as (pt & <- & Hpt). apply (Hvals s pt Hs Hpt). }
  assert (HVn : forall v, In v V -> is_nan v = false).
  { intros v Hv. destruct (HV v Hv) as [_ Hle].
    apply SFleb_not_nan in Hle. tauto. }
  unfold chart, InnerStatChart. simpl plotted. simpl axisMin. simpl axis.
  change (allValues stats (Some series)) with V.
  apply Forall_forall. intros shown Hshown.
  apply in_map_iff in Hshown. destruct Hshown as (s & <- & Hs).
  simpl snd. apply Forall_forall. intros y Hy.
  apply in_map_iff in Hy. destruct Hy as (pt & <- & Hpt).
  destruct (Hvals s pt Hs Hpt) as [Hv H0].
  assert (Hin : In (value pt) V).
  { unfold V. apply in_flat_map. exists s. split; [exact Hs|].
    apply in_map. exact Hpt. }
  destruct (maxStatValue_props V HVn) as [[HV0 _] | (_ & HinM & Hub)].
  - rewrite HV0 in Hin. contradiction.
  - destruct (HV _ HinM) as [HvM H0M].
    apply plotted_within; auto.
Qed.

(** In the unit B/s the divisor is [1]: the rates are plotted as they are
    stored. *)
Theorem plotted_unchanged_in_bytes (type : StatType)
    (stats : option (list StatDatapoint)) (series : list Series) :
  is_network type = true ->
  (forall s pt, In s series -> In pt (data s) -> valid (value pt) = true) ->
  let chart := InnerStatChart type stats (Some series) in
  unit (axis chart) = B_per_s ->
  plotted chart = map (fun s => (label s, map value (data s))) series.
Proof.
  intros Hnet Hvals chart Hunit.
  assert (Hdiv : unitDivisor (axis chart) = Num.one).
  { unfold chart, InnerStatChart in Hunit |- *. simpl axis in Hunit |- *.
    destruct type; try discriminate; unfold axisUnit, choose in Hunit |- *;
      simpl unit in Hunit; simpl unitDivisor;
      destruct (geb _ BYTES_PER_MB); try discriminate;
      destruct (geb _ BYTES_PER_KB); try discriminate; reflexivity. }
  unfold chart, InnerStatChart in Hdiv |- *. simpl axis in Hdiv.
  simpl plotted. rewrite Hdiv.
  apply map_ext_in. intros s Hs. f_equal.
  apply map_ext_in. intros pt Hpt.
  destruct type; try discriminate; unfold getValue;
    apply div_one_id; apply (Hvals s pt Hs Hpt).
Qed.

(** ** The unit keeps the numbers readable *)

Lemma choose_cases (M : number) :
  (leb BYTES_PER_MB M = true /\ choose M = (MB_per_s, BYTES_PER_MB)) \/
  (leb BYTES_PER_MB M = false /\ leb BYTES_PER_KB M = true /\
   choose M = (KB_per_s, BYTES_PER_KB)) \/
  (leb BYTES_PER_MB M = false /\ leb BYTES_PER_KB M = false /\
   choose M = (B_per_s, Num.one)).
Proof.
  unfold choose, geb. change SFleb with leb.
  destruct (leb BYTES_PER_MB M); [left; split; reflexivity|].
  destruct (leb BYTES_PER_KB M); right; [left|right]; repeat split.
Qed.

(** For the two network kinds and values that are non-negative numbers:
    in KB/s and in MB/s the largest plotted value is at least [1], and in
    B/s and in KB/s every plotted value is below [1024]. *)
Theorem unit_keeps_values_readable (type : StatType)
    (stats : option (list StatDatapoint)) (series : list Series) :
  is_network type = true ->
  (forall s pt, In s series -> In pt (data s) ->
     valid (value pt) = true /\ leb zero (value pt) = true) ->
  let chart := InnerStatChart type stats (Some series) in
  (unit (axis chart) <> B_per_s ->
   exists shown y, In shown (plotted chart) /\ In y (snd shown) /\
                   leb Num.one y = true) /\
  (unit (axis chart) <> MB_per_s ->
   Forall (fun shown =>
             Forall (fun y => ltb y BYTES_PER_KB = true) (snd shown))
          (plotted chart)).
Proof.
  intros Hnet Hvals chart.
  set (V := flat_map (fun s => map value (data s)) series).
  assert (HV : forall v, In v V -> valid v = true /\ leb zero v = true).
  { intros v Hv. unfold V in Hv. apply in_flat_map in Hv.
    destruct Hv as (s & Hs & Hv). apply in_map_iff in Hv.
    destruct Hv as (pt & <- & Hpt). apply (Hvals s pt Hs Hpt). }
  assert (HVn : forall v, In v V -> is_nan v = false).
  { intros v Hv. destruct (HV v Hv) as [_ Hle].
    apply SFleb_not_nan in Hle. tauto. }
  assert (Hax : axis chart = {| unit := fst (choose (maxStatValue V));
                                unitDivisor := snd (choose (maxStatValue V));
                                maxUnitValue :=
                                  div (headroom (maxStatValue V))
                                      (snd (choose (maxStatValue V))) |}).
  { unfold chart, InnerStatChart. simpl axis.
    destruct type; try discriminate; reflexivity. }
  assert (Hpl : plotted chart =
                map (fun s => (label s,
                               map (fun d => div (value d)
                                               (snd (choose (maxStatValue V))))
                                   (data s))) series).
  { unfold chart, InnerStatChart. simpl plotted.
    apply map_ext. intros s. f_equal. apply map_ext. intros d.
    destruct type; try discriminate; reflexivity. }
  rewrite Hax, Hpl. simpl unit. clear Hax Hpl.
  set (M := maxStatValue V) in *.
  split.
  - intros Hunit.
    destruct (maxStatValue_props V HVn) as [[HV0 HM] | (_ & HinM & _)].
    { exfalso. apply Hunit. fold M in HM. rewrite HM. reflexivity. }
    fold M in HinM. destruct (HV _ HinM) as [HvM H0M].
    unfold V in HinM. apply in_flat_map in HinM.
    destruct HinM as (s & Hs & HinM). apply in_map_iff in HinM.
    destruct HinM as (pt & Hpt & Hin).
    set (g := fun d : StatDatapoint => div (value d) (snd (choose M))).
    set (f := fun s : Series => (label s, map g (data s))).
    exists (f s), (g pt).
    split; [apply (in_map f); exact Hs|].
    split; [simpl snd; apply (in_map g); exact Hin|].
    unfold g.
    rewrite Hpt.
    destruct (choose_cases M) as [[Hmb Hc] | [(Hmb & Hkb & Hc) | (_ & _ & Hc)]];
      rewrite Hc in Hunit |- *; simpl fst in Hunit; simpl snd.
    + change Num.one with (div BYTES_PER_MB BYTES_PER_MB).
      apply (div_mono BYTES_PER_MB M P52 (-32)); auto.
    + change Num.one with (div BYTES_PER_KB BYTES_PER_KB).
      apply (div_mono BYTES_PER_KB M P52 (-42)); auto.
    + contradiction.
  - intros Hunit.
    apply Forall_forall. intros shown Hshown.
    apply in_map_iff in Hshown. destruct Hshown as (s & <- & Hs).
    simpl snd. apply Forall_forall. intros y Hy.
    apply in_map_iff in Hy. destruct Hy as (pt & <- & Hpt).
    destruct (Hvals s pt Hs Hpt) as [Hv H0].
    assert (Hin : In (value pt) V).
    { unfold V. apply in_flat_map. exists s. split; [exact Hs|].
      apply in_map. exact Hpt. }
    destruct (maxStatValue_props V HVn) as [[HV0 _] | (_ & HinM & Hub)].
    { rewrite HV0 in Hin. contradiction. }
    fold M in HinM, Hub. destruct (HV _ HinM) as [HvM H0M].
    specialize (Hub _ Hin).
    assert (HnM : is_nan M = false) by (apply HVn; exact HinM).
    destruct (choose_cases M) as [[Hmb Hc] | [(Hmb & Hkb & Hc) | (_ & Hkb & Hc)]];
      rewrite Hc in Hunit |- *; simpl fst in Hunit; simpl snd.
    + contradiction.
    + apply (ltb_of_not_leb M BYTES_PER_MB HnM eq_refl) in Hmb.
      apply (leb_ltb_trans _ (div M BYTES_PER_KB)).
      * apply (div_mono (value pt) M P52 (-42)); auto.
      * destruct (ltb_zero_cases M (leb_positive BYTES_PER_KB M Hkb eq_refl))
          as [HMeq | (m & e & HMeq)]; [rewrite HMeq in Hmb; discriminate|].
        rewrite HMeq in *. apply div_KB_below; assumption.
    + apply (ltb_of_not_leb M BYTES_PER_KB HnM eq_refl) in Hkb.
      rewrite div_one_id by exact Hv.
      eapply leb_ltb_trans; eassumption.
Qed.

(** ** A value that is not a number *)

(** One NaN among the values of a chart whose axis follows the data makes
    the axis maximum NaN; for the two network kinds the unit then falls
    back to B/s with divisor [1]. *)
Theorem nan_value_poisons_axis (type : StatType)
    (stats : option (list StatDatapoint)) (series : list Series) :
  scaled_axis type = true ->
  (exists s pt, In s series /\ In pt (data s) /\ is_nan (value pt) = true) ->
  let ax := axis (InnerStatChart type stats (Some series)) in
  is_nan (maxUnitValue ax) = true /\
  (is_network type = true -> unit ax = B_per_s /\ unitDivisor ax = Num.one).
Proof.
  intros Hty (s & pt & Hs & Hpt & Hnan) ax.
  set (V := flat_map (fun s => map value (data s)) series).
  assert (Hin : In (value pt) V).
  { unfold V. apply in_flat_map. exists s. split; [exact Hs|].
    apply in_map. exact Hpt. }
  assert (HM : maxStatValue V = nan).
  { rewrite maxStatValue_nonempty.
    - apply max_list_nan. exists (value pt). split; assumption.
    - intros HV. rewrite HV in Hin. contradiction. }
  unfold ax.
  change (axis (InnerStatChart type stats (Some series)))
    with (axisUnit type (maxStatValue V)).
  rewrite HM.
  destruct type; try discriminate; split; try reflexivity;
    intros Hnet; try discriminate; split; reflexivity.
Qed.

(** * The rate at a counter reset, over a short interval, and its bound *)

Lemma reset_rate_zero (type : StatType) (s prev : SystemStatsRecord) :
  finite_number (ts s) = true -> finite_number (ts prev) = true ->
  finite_number (getBytes type s) = true ->
  finite_number (getBytes type prev) = true ->
  leb (getBytes type s) (getBytes type prev) = true ->
  div (deltaBytes type s prev) (deltaSeconds s prev) = zero.
Proof.
  intros Hts Htp Hbs Hbp Hle.
  destruct (finite_number_facts _ Hbs) as [Hvs Hfs].
  destruct (finite_number_facts _ Hbp) as [Hvp Hfp].
  destruct (sub_finite_class _ _ Hvs Hvp Hfs Hfp) as [_ Hnn].
  destruct (sub_sign _ _ Hvs Hvp Hfs Hfp) as [_ Hneg].
  specialize (Hneg Hle). apply leb_ltb_false in Hneg.
  assert (HD : deltaBytes type s prev = zero).
  { unfold deltaBytes.
    destruct (max_zero_cases (sub (getBytes type s) (getBytes type prev)))
      as [[Hn _] | [(_ & _ & ->) | [Hlt _]]]; [|reflexivity|].
    - unfold sub in Hn. congruence.
    - congruence. }
  rewrite HD.
  destruct (deltaSeconds_ge_one s prev Hts Htp) as [Hv Hge].
  destruct (ge_one_cases _ Hv Hge) as [-> | (ms & es & -> & _)]; reflexivity.
Qed.

Lemma short_interval_one (s prev : SystemStatsRecord) :
  finite_number (ts s) = true -> finite_number (ts prev) = true ->
  leb (sub (ts s) (ts prev)) num_1000 = true ->
  deltaSeconds s prev = Num.one.
Proof.
  intros Hts Htp Hle.
  destruct (finite_number_facts _ Hts) as [Hvs Hfs].
  destruct (finite_number_facts _ Htp) as [Hvp Hfp].
  destruct (sub_finite_class _ _ Hvs Hvp Hfs Hfp) as [Hvt Hnt].
  fold (sub (ts s) (ts prev)) in Hvt, Hnt.
  set (t := sub (ts s) (ts prev)) in *.
  destruct (div_by_1000_class t Hvt Hnt) as [_ Hnu].
  assert (Hu : leb (div t num_1000) Num.one = true).
  { destruct (leb zero t) eqn:H0.
    - change Num.one with (div num_1000 num_1000).
      apply (div_mono t num_1000 8796093022208000 (-43)); auto.
    - destruct t as [[]|[]| |[] m e]; try discriminate; try reflexivity.
      destruct (div_finite_class true false m 8796093022208000 e (-43))
        as (_ & Hn & Hs).
      apply (nonpos_le_positive P52 (-52)); assumption. }
  apply leb_ltb_false in Hu.
  unfold deltaSeconds. fold t.
  destruct (max_one_cases (div t num_1000))
    as [[Hn _] | [(_ & _ & ->) | [Hlt _]]]; [congruence|reflexivity|congruence].
Qed.

Lemma deltaBytes_valid (type : StatType) (s prev : SystemStatsRecord) :
  finite_number (getBytes type s) = true ->
  finite_number (getBytes type prev) = true ->
  valid (deltaBytes type s prev) = true.
Proof.
  intros Hbs Hbp.
  destruct (finite_number_facts _ Hbs) as [Hvs Hfs].
  destruct (finite_number_facts _ Hbp) as [Hvp Hfp].
  destruct (sub_finite_class _ _ Hvs Hvp Hfs Hfp) as [Hv _].
  unfold deltaBytes.
  destruct (max_zero_cases (sub (getBytes type s) (getBytes type prev)))
    as [[_ ->] | [(_ & _ & ->) | [_ ->]]]; [reflexivity|reflexivity|exact Hv].
Qed.

Section RateEdges.

Variable convert : number -> number.

(** A counter that does not grow between two consecutive records (a reset,
    or no traffic) gives the rate exactly [0], for finite timestamps and
    finite counters of any sign. *)
Theorem rate_zero_on_counter_reset (type : StatType)
    (stats : list SystemStatsRecord) (i : nat) (prev s : SystemStatsRecord) :
  is_network type = true ->
  nth_error (rev stats) i = Some prev ->
  nth_error (rev stats) (S i) = Some s ->
  finite_number (ts s) = true -> finite_number (ts prev) = true ->
  finite_number (getBytes type s) = true ->
  finite_number (getBytes type prev) = true ->
  leb (getBytes type s) (getBytes type prev) = true ->
  exists pts,
    seriesData convert (Some stats) type =
      Normal [ {| label := StatType_string type; data := pts |} ] /\
    nth_error pts (S i) = Some {| date := convert (ts s); value := zero |}.
Proof.
  intros Hnet Hp Hs Hts Htp Hbs Hbp Hle.
  exists (rate_from convert type None (rev stats)).
  split; [apply network_seriesData; exact Hnet|].
  rewrite (rate_from_nth_S convert type _ None i prev s Hp Hs).
  rewrite reset_rate_zero by assumption. reflexivity.
Qed.

(** Two consecutive records at most one second apart (also with equal or
    decreasing timestamps) are taken as one second apart: the rate is the
    clamped byte delta itself. *)
Theorem rate_of_short_interval (type : StatType)
    (stats : list SystemStatsRecord) (i : nat) (prev s : SystemStatsRecord) :
  is_network type = true ->
  nth_error (rev stats) i = Some prev ->
  nth_error (rev stats) (S i) = Some s ->
  finite_number (ts s) = true -> finite_number (ts prev) = true ->
  finite_number (getBytes type s) = true ->
  finite_number (getBytes type prev) = true ->
  leb (sub (ts s) (ts prev)) num_1000 = true ->
  exists pts,
    seriesData convert (Some stats) type =
      Normal [ {| label := StatType_string type; data := pts |} ] /\
    nth_error pts (S i) =
      Some {| date := convert (ts s);
              value := Num.max zero (sub (getBytes type s)
                                         (getBytes type prev)) |}.
Proof.
  intros Hnet Hp Hs Hts Htp Hbs Hbp Hle.
  exists (rate_from convert type None (rev stats)).
  split; [apply network_seriesData; exact Hnet|].
  rewrite (rate_from_nth_S convert type _ None i prev s Hp Hs).
  rewrite short_interval_one by assumption.
  rewrite div_one_id by (apply deltaBytes_valid; assumption).
  reflexivity.
Qed.

(** The rate between two consecutive records never exceeds their byte
    delta: the interval counts for at least one second.  (Records of the
    data model: finite timestamps, finite non-negative counters.) *)
Theorem rate_at_most_delta (type : StatType)
    (stats : list SystemStatsRecord) (i : nat) (prev s : SystemStatsRecord) :
  is_network type = true ->
  nth_error (rev stats) i = Some prev ->
  nth_error (rev stats) (S i) = Some s ->
  wf_record type s = true -> wf_record type prev = true ->
  exists pts pt,
    seriesData convert (Some stats) type =
      Normal [ {| label := StatType_string type; data := pts |} ] /\
    nth_error pts (S i) = Some pt /\
    leb (value pt)
        (Num.max zero (sub (getBytes type s) (getBytes type prev))) = true.
Proof.
  intros Hnet Hp Hs Hws Hwp.
  destruct (wf_record_facts _ _ Hws) as [Hts Hbs].
  destruct (wf_record_facts _ _ Hwp) as [Htp Hbp].
  exists (rate_from convert type None (rev stats)).
  eexists. split; [apply network_seriesData; exact Hnet|].
  split; [apply (rate_from_nth_S convert type _ None i prev s Hp Hs)|].
  simpl value.
  destruct (deltaSeconds_ge_one s prev Hts Htp) as [Hv Hge].
  apply div_by_ge_one_le; [apply deltaBytes_counter| |]; assumption.
Qed.

End RateEdges.

(** * Integer counters and timestamps *)

Section IntegerRecords.

Variable convert : number -> number.

(** For byte counters and millisecond timestamps that are integers below
    [2 ^ 53], both differences are computed without rounding: the rate is
    the quotient of the exact clamped byte delta by the interval in
    seconds floored at [1]; and when the interval is a whole number [k] of
    seconds it is that delta divided by [k], rounded once. *)
Theorem rate_of_integer_records (type : StatType)
    (stats : list SystemStatsRecord) (i : nat) (prev s : SystemStatsRecord)
    (a b t0 t1 : Z) :
  is_network type = true ->
  nth_error (rev stats) i = Some prev ->
  nth_error (rev stats) (S i) = Some s ->
  0 <= a < 2 ^ 53 -> 0 <= b < 2 ^ 53 ->
  0 <= t0 < 2 ^ 53 -> 0 <= t1 < 2 ^ 53 ->
  getBytes type s = of_Z a -> getBytes type prev = of_Z b ->
  ts s = of_Z t1 -> ts prev = of_Z t0 ->
  exists pts,
    seriesData convert (Some stats) type =
      Normal [ {| label := StatType_string type; data := pts |} ] /\
    nth_error pts (S i) =
      Some {| date := convert (ts s);
              value := div (of_Z (Z.max 0 (a - b)))
                           (Num.max Num.one
                              (div (of_Z (t1 - t0)) num_1000)) |} /\
    (forall k, 1 <= k -> t1 - t0 = 1000 * k ->
       nth_error pts (S i) =
         Some {| date := convert (ts s);
                 value := div (of_Z (Z.max 0 (a - b))) (of_Z k) |}).
Proof.
  intros Hnet Hp Hs Ha Hb Ht0 Ht1 Hbs Hbp Hts Htp.
  exists (rate_from convert type None (rev stats)).
  split; [apply network_seriesData; exact Hnet|].
  rewrite (rate_from_nth_S convert type _ None i prev s Hp Hs).
  assert (HD : deltaBytes type s prev = of_Z (Z.max 0 (a - b))).
  { unfold deltaBytes. rewrite Hbs, Hbp, sub_of_Z by assumption.
    apply max_zero_of_Z. lia. }
  assert (HS : deltaSeconds s prev =
               Num.max Num.one (div (of_Z (t1 - t0)) num_1000)).
  { unfold deltaSeconds. rewrite Hts, Htp, sub_of_Z by assumption.
    reflexivity. }
  rewrite HD, HS. split; [reflexivity|].
  intros k Hk Hkt. rewrite Hkt.
  change num_1000 with (of_Z 1000).
  rewrite div_of_Z_exact by lia.
  rewrite max_one_of_Z by lia. reflexivity.
Qed.

End IntegerRecords.

(** * Memory and disk percentages of a positive total *)

Lemma percent_order (u1 u2 : number) (m : positive) (e : Z) :
  valid (S754_finite false m e) = true ->
  valid u1 = true -> valid u2 = true ->
  leb zero u1 = true -> leb u1 u2 = true ->
  leb zero (div (mul num_100 u1) (S754_finite false m e)) = true /\
  leb (div (mul num_100 u1) (S754_finite false m e))
      (div (mul num_100 u2) (S754_finite false m e)) = true.
Proof.
  intros Hvt Hv1 Hv2 H0 Hle.
  assert (H02 : leb zero u2 = true) by (eapply SFleb_trans; eassumption).
  destruct (mul_mono 7036874417766400 (-46) u1 u2 eq_refl Hv1 Hv2 H0 Hle)
    as (Hvp1 & Hz1 & Hmono).
  destruct (mul_mono 7036874417766400 (-46) u2 u2 eq_refl Hv2 Hv2 H02
              (SFleb_refl u2 (proj2 (SFleb_not_nan _ _ Hle))))
    as (Hvp2 & _ & _).
  split; [apply div_nonneg; exact Hz1|].
  apply div_mono; assumption.
Qed.

(** For Memory and Disk with a positive finite total, the percentage of a
    non-negative used amount is never below [0], and of two records with the
    same total the one with more in use has the larger percentage (it may be
    [+Infinity] on overflow, never NaN). *)
Theorem percent_monotone_in_used (type : StatType)
    (s1 s2 : SystemStatsRecord) (m : positive) (e : Z) :
  let total r := match type with
                 | Disk => disk_total_gb r
                 | _ => mem_total_gb r
                 end in
  let used r := match type with
                | Disk => disk_used_gb r
                | _ => mem_used_gb r
                end in
  type = Memory \/ type = Disk ->
  valid (S754_finite false m e) = true ->
  total s1 = S754_finite false m e -> total s2 = S754_finite false m e ->
  valid (used s1) = true -> valid (used s2) = true ->
  leb zero (used s1) = true -> leb (used s1) (used s2) = true ->
  leb zero (getStat s1 type) = true /\
  leb (getStat s1 type) (getStat s2 type) = true.
Proof.
  intros total used [-> | ->] Hvt Ht1 Ht2 Hv1 Hv2 H0 Hle;
    unfold getStat; subst total used; cbv beta iota in *;
    rewrite Ht1, Ht2; apply percent_order; assumption.
Qed.

(** * Colors, stacking and the debug output *)

Section ChartOptionsFacts.

Variable convert : number -> number.
Variable hex_color_by_intention : string -> string.

(** The chart gets one default color per series, whatever the records:
    three for Load Average, one otherwise; and the only kind with several
    series, Load Average, is the one drawn as lines and not stacked. *)
Theorem one_color_per_series (stats : list SystemStatsRecord)
    (type : StatType) :
  exists series,
    seriesData convert (Some stats) type = Normal series /\
    List.length (defaultColors hex_color_by_intention type) =
      List.length series /\
    ((1 < List.length series)%nat ->
     stacked type = false /\ elementType type = line) /\
    (List.length series = 1%nat ->
     stacked type = true /\ elementType type = area /\
     defaultColors hex_color_by_intention type =
       [getColor hex_color_by_intention type]).
Proof.
  destruct type; unfold seriesData; try rewrite rate_eq; simpl bind;
    eexists; (split; [reflexivity|]); simpl; repeat split;
    intros; try reflexivity; lia.
Qed.

Lemma max_as_step (m v : number) : Num.max m v = max_step m v.
Proof.
  unfold Num.max, max_list. cbn [fold_left]. f_equal.
  destruct m as [[]|[]| |[] mm e]; reflexivity.
Qed.

Lemma reduce_max_values (rate : list StatDatapoint) (h : number) :
  fold_left (fun m d => Num.max m (value d)) rate h =
  fold_left max_step (map value rate) h.
Proof.
  revert h. induction rate as [|d rate IH]; intros h; [reflexivity|].
  cbn [fold_left map]. rewrite max_as_step. apply IH.
Qed.

Lemma min_as_step (m v : number) : Math_min m v = min_step m v.
Proof.
  unfold Math_min. cbn [fold_left]. f_equal.
  destruct m as [[]|[]| |[] mm e]; reflexivity.
Qed.

(** Over non-negative numbers a running minimum that is a zero stays a
    zero. *)
Lemma reduce_min_zero (rate : list StatDatapoint) (h : number) :
  eqb h zero = true ->
  Forall (fun d => leb zero (value d) = true) rate ->
  eqb (fold_left (fun m d => Math_min m (value d)) rate h) zero = true.
Proof.
  revert h. induction rate as [|d rate IH]; intros h Hh Hall; [exact Hh|].
  inversion Hall as [|? ? Hd Hrest]; subst.
  cbn [fold_left]. apply IH; [|exact Hrest].
  rewrite min_as_step.
  destruct h as [sh|[]| |[] mh eh]; try discriminate.
  destruct (leb_zero_cases _ Hd) as [[s ->] | [-> | (m & e & ->)]];
    destruct sh; try destruct s; reflexivity.
Qed.

(** What the network branch logs: [max] is the maximum the value axis is
    scaled from, [count] the number of records, [points] holds the first
    three and the last three points (so twice every point of fewer than
    four records), and [min] is [0] for the records of the data model,
    whose first rate is [0] and whose rates are never negative. *)
Theorem debug_payload_of_rates (type : StatType)
    (stats : list SystemStatsRecord) :
  is_network type = true ->
  exists pts,
    seriesData convert (Some stats) type =
      Normal [ {| label := StatType_string type; data := pts |} ] /\
    let logged := Debug.payload pts in
    Debug.max logged =
      maxStatValue
        (allValues (Some pts)
           (Some [ {| label := StatType_string type; data := pts |} ])) /\
    Debug.count logged = List.length stats /\
    List.length (Debug.points logged) =
      (2 * Nat.min 3 (List.length stats))%nat /\
    (stats <> [] -> (forall r, In r stats -> wf_record type r = true) ->
     eqb (Debug.min logged) zero = true).
Proof.
  intros Hnet. exists (rate_from convert type None (rev stats)).
  split; [apply network_seriesData; exact Hnet|]. cbv zeta.
  unfold Debug.payload.
  cbn [Debug.max Debug.count Debug.points Debug.min].
  rewrite length_app, length_firstn, length_skipn, rate_from_length, length_rev.
  split; [|split; [reflexivity|split; [lia|]]].
  - rewrite reduce_max_values. unfold allValues. simpl flat_map.
    rewrite app_nil_r.
    destruct (rev stats) as [|r l]; [reflexivity|].
    cbn [rate_from map value fold_left].
    rewrite maxStatValue_nonempty by discriminate.
    unfold max_list. cbn [fold_left]. reflexivity.
  - intros Hne Hwf.
    assert (Hall : Forall (fun d => leb zero (value d) = true)
                          (rate_from convert type None (rev stats))).
    { eapply Forall_impl; [|apply rates_counter].
      - intros pt Hc. apply counter_facts in Hc. tauto.
      - intros r Hr. apply Hwf. apply in_rev. exact Hr. }
    destruct (rev stats) as [|r l] eqn:Erev.
    { exfalso. apply Hne. rewrite <- (rev_involutive stats), Erev.
      reflexivity. }
    cbn [rate_from fold_left value] in Hall |- *.
    inversion Hall as [|? ? _ Hrest]; subst.
    rewrite min_as_step. apply reduce_min_zero; [reflexivity|exact Hrest].
Qed.

End ChartOptionsFacts.

(** * The formatters *)

(** For the two network kinds the tooltip and the tick label of a value are
    the same text, whatever the maximum the unit is chosen from: both
    formatters use two decimals in MB/s, one in KB/s and the rounded number
    in B/s, followed by the unit, and the unit memo never yields the empty
    unit, the only one at which the two formatters differ. *)
Theorem network_tooltip_matches_tick_label
    (toFixed : number -> nat -> string) (round_toString : number -> string)
    (maxStatValue : number) (value : option number) :
  Forall (fun type =>
            let u := unit (axisUnit type maxStatValue) in
            u <> NoUnit /\
            tooltip toFixed round_toString type u value =
            scale toFixed round_toString type u value)
         [NetworkIngress; NetworkEgress]
  /\ tooltip toFixed round_toString NetworkIngress NoUnit value <>
     scale toFixed round_toString NetworkIngress NoUnit value.
Proof.
  split.
  - repeat constructor; try discriminate;
      unfold axisUnit, choose; simpl unit;
      destruct (geb maxStatValue BYTES_PER_MB); try discriminate;
      try reflexivity;
      destruct (geb maxStatValue BYTES_PER_KB); try discriminate;
      reflexivity.
  - unfold tooltip, scale. simpl Unit_string.
    intros H.
    assert (Hlen : String.length
                     (String.append (round_toString (nullish value zero))
                                    (String.append " " EmptyString)) =
                   String.length
                     (String.append (round_toString (nullish value zero))
                                    " B/s")) by (rewrite H; reflexivity).
    rewrite !string_length_append in Hlen. simpl in Hlen. lia.
Qed.

(** * The timestamp conversion *)

Section Conversion.

Variables convert1 convert2 : number -> number.

Lemma rate_from_values_conv (type : StatType) (l : list SystemStatsRecord)
    (prev : option SystemStatsRecord) (g : number -> number) :
  map (fun d => g (value d)) (rate_from convert1 type prev l) =
  map (fun d => g (value d)) (rate_from convert2 type prev l).
Proof.
  revert prev. induction l as [|s l IH]; intros prev; [reflexivity|].
  cbn [rate_from map value]. f_equal. apply IH.
Qed.

(** The timestamp conversion only moves the dates: the labels and the
    values of the series, hence the unit, the bounds of the value axis and
    every plotted value, are the same under any two conversions (the rates
    are computed from the raw timestamps). *)
Theorem values_independent_of_conversion (stats : list SystemStatsRecord)
    (type : StatType) :
  exists series1 series2,
    seriesData convert1 (Some stats) type = Normal series1 /\
    seriesData convert2 (Some stats) type = Normal series2 /\
    map (fun s => (label s, map value (data s))) series1 =
      map (fun s => (label s, map value (data s))) series2 /\
    InnerStatChart type (Some (flat_map data series1)) (Some series1) =
      InnerStatChart type (Some (flat_map data series2)) (Some series2).
Proof.
  pose proof (rate_from_values_conv type (rev stats) None (fun v => v)) as Hv.
  rewrite !(map_ext (fun d => (fun v : number => v) (value d)) value) in Hv
    by reflexivity.
  destruct type; unfold seriesData; try rewrite !rate_eq; simpl bind;
    do 2 eexists; (split; [reflexivity|]); (split; [reflexivity|]);
    unfold InnerStatChart, allValues, load_series;
    cbn [map flat_map label data app axis axisMin plotted unitDivisor];
    rewrite ?app_nil_r, ?map_map; cbn [value date];
    rewrite ?Hv;
    try (split; reflexivity).
  - split; [reflexivity|]. f_equal. f_equal. f_equal.
    apply (rate_from_values_conv NetworkIngress (rev stats) None
             (fun v => div v _)).
  - split; [reflexivity|]. f_equal. f_equal. f_equal.
    apply (rate_from_values_conv NetworkEgress (rev stats) None
             (fun v => div v _)).
Qed.

End Conversion.

(** * The further properties at examples *)

Lemma time_axis_encloses_points_witness :
  (forall r, In r scenario ->
     finite_number (ts r) = true /\
     leb (ts (sample 0 1000)) (ts r) = true /\
     leb (ts r) (ts (sample 2000 3000)) = true) /\
  exists series,
    seriesData (fun t : number => t) (Some scenario) NetworkIngress =
      Normal series /\
    let axis := TimeAxis.timeAxis (Some (flat_map data series)) in
    Forall (fun s : Series =>
              Forall (fun pt : StatDatapoint =>
                        leb (argument (hardMin axis)) (date pt) = true /\
                        leb (date pt) (argument (hardMax axis)) = true)
                     (data s))
           series.
Proof.
  assert (H : forall r, In r scenario ->
            finite_number (ts r) = true /\
            leb (ts (sample 0 1000)) (ts r) = true /\
            leb (ts r) (ts (sample 2000 3000)) = true)
    by (intros r [<-|[<-|[<-|[]]]]; repeat split).
  split; [exact H|].
  apply (time_axis_encloses_points (fun t => t) (sample 2000 3000)
           [sample 1000 3000; sample 0 1000] NetworkIngress H).
Defined.

Lemma time_axis_zero_width_witness :
  let stats := Some [ {| date := of_Z 1000; value := zero |} ] in
  TimeAxis.max stats = TimeAxis.min stats /\
  is_finite (TimeAxis.min stats) = true /\
  eqb (argument (hardMin (TimeAxis.timeAxis stats))) (TimeAxis.min stats)
  = true /\
  eqb (argument (hardMax (TimeAxis.timeAxis stats))) (TimeAxis.min stats)
  = true.
Proof.
  split; [reflexivity|]. split; [reflexivity|].
  apply (time_axis_zero_width
           (Some [ {| date := of_Z 1000; value := zero |} ])
           eq_refl eq_refl).
Defined.

Lemma plotted_within_value_axis_witness :
  scaled_axis NetworkIngress = true /\
  (forall (s : Series) (pt : StatDatapoint),
     In s scenario_series -> In pt (data s) ->
     valid (value pt) = true /\ leb zero (value pt) = true) /\
  let chart := InnerStatChart NetworkIngress None (Some scenario_series) in
  Forall (fun shown : string * list number =>
            Forall (fun y : number =>
                      leb (axisMin chart) y = true /\
                      leb y (maxUnitValue (axis chart)) = true)
                   (snd shown))
         (plotted chart).
Proof.
  assert (H : forall (s : Series) (pt : StatDatapoint),
            In s scenario_series -> In pt (data s) ->
            valid (value pt) = true /\ leb zero (value pt) = true).
  { intros s pt [<-|[]] [<-|[<-|[<-|[]]]]; split; reflexivity. }
  split; [reflexivity|]. split; [exact H|].
  apply (plotted_within_value_axis NetworkIngress None scenario_series
           eq_refl H).
Defined.

Lemma rate_zero_on_counter_reset_witness :
  is_network NetworkIngress = true /\
  nth_error (rev scenario_reset) 0 = Some (sample 0 1000) /\
  nth_error (rev scenario_reset) 1 = Some (sample 1000 500) /\
  finite_number (ts (sample 1000 500)) = true /\
  finite_number (ts (sample 0 1000)) = true /\
  finite_number (getBytes NetworkIngress (sample 1000 500)) = true /\
  finite_number (getBytes NetworkIngress (sample 0 1000)) = true /\
  leb (getBytes NetworkIngress (sample 1000 500))
      (getBytes NetworkIngress (sample 0 1000)) = true /\
  exists pts : list StatDatapoint,
    seriesData (fun t : number => t) (Some scenario_reset) NetworkIngress =
      Normal [ {| label := StatType_string NetworkIngress; data := pts |} ] /\
    nth_error pts 1 =
      Some {| date := ts (sample 1000 500); value := zero |}.
Proof.
  do 8 (split; [reflexivity|]).
  apply (rate_zero_on_counter_reset (fun t => t) NetworkIngress scenario_reset
           0%nat (sample 0 1000) (sample 1000 500)); reflexivity.
Defined.

Lemma rate_of_short_interval_witness :
  is_network NetworkIngress = true /\
  nth_error (rev scenario_burst) 0 = Some (sample 0 1000) /\
  nth_error (rev scenario_burst) 1 = Some (sample 500 3000) /\
  finite_number (ts (sample 500 3000)) = true /\
  finite_number (ts (sample 0 1000)) = true /\
  finite_number (getBytes NetworkIngress (sample 500 3000)) = true /\
  finite_number (getBytes NetworkIngress (sample 0 1000)) = true /\
  leb (sub (ts (sample 500 3000)) (ts (sample 0 1000))) num_1000 = true /\
  exists pts : list StatDatapoint,
    seriesData (fun t : number => t) (Some scenario_burst) NetworkIngress =
      Normal [ {| label := StatType_string NetworkIngress; data := pts |} ] /\
    nth_error pts 1 =
      Some {| date := ts (sample 500 3000);
              value := Num.max zero
                         (sub (getBytes NetworkIngress (sample 500 3000))
                              (getBytes NetworkIngress (sample 0 1000))) |}.
Proof.
  do 8 (split; [reflexivity|]).
  apply (rate_of_short_interval (fun t => t) NetworkIngress scenario_burst
           0%nat (sample 0 1000) (sample 500 3000)); reflexivity.
Defined.

Lemma rate_at_most_delta_witness :
  is_network NetworkIngress = true /\
  nth_error (rev scenario) 0 = Some (sample 0 1000) /\
  nth_error (rev scenario) 1 = Some (sample 1000 3000) /\
  wf_record NetworkIngress (sample 1000 3000) = true /\
  wf_record NetworkIngress (sample 0 1000) = true /\
  exists (pts : list StatDatapoint) (pt : StatDatapoint),
    seriesData (fun t : number => t) (Some scenario) NetworkIngress =
      Normal [ {| label := StatType_string NetworkIngress; data := pts |} ] /\
    nth_error pts 1 = Some pt /\
    leb (value pt)
        (Num.max zero (sub (getBytes NetworkIngress (sample 1000 3000))
                           (getBytes NetworkIngress (sample 0 1000)))) = true.
Proof.
  do 5 (split; [reflexivity|]).
  apply (rate_at_most_delta (fun t => t) NetworkIngress scenario
           0%nat (sample 0 1000) (sample 1000 3000)); reflexivity.
Defined.

Lemma plotted_unchanged_in_bytes_witness :
  let series := [ {| label := "Network Egress";
                     data := [ {| date := of_Z 0; value := zero |};
                               {| date := of_Z 1000; value := of_Z 500 |} ] |} ] in
  is_network NetworkEgress = true /\
  (forall (s : Series) (pt : StatDatapoint),
     In s series -> In pt (data s) -> valid (value pt) = true) /\
  unit (axis (InnerStatChart NetworkEgress None (Some series))) = B_per_s /\
  plotted (InnerStatChart NetworkEgress None (Some series)) =
    map (fun s : Series => (label s, map value (data s))) series.
Proof.
  intros series.
  assert (H : forall (s : Series) (pt : StatDatapoint),
            In s series -> In pt (data s) -> valid (value pt) = true).
  { intros s pt [<-|[]] [<-|[<-|[]]]; reflexivity. }
  split; [reflexivity|]. split; [exact H|]. split; [reflexivity|].
  apply (plotted_unchanged_in_bytes NetworkEgress None series eq_refl H
           eq_refl).
Defined.

Lemma unit_keeps_values_readable_witness :
  is_network NetworkIngress = true /\
  (forall (s : Series) (pt : StatDatapoint),
     In s scenario_series -> In pt (data s) ->
     valid (value pt) = true /\ leb zero (value pt) = true) /\
  let chart := InnerStatChart NetworkIngress None (Some scenario_series) in
  (unit (axis chart) <> B_per_s ->
   exists (shown : string * list number) (y : number),
     In shown (plotted chart) /\ In y (snd shown) /\ leb Num.one y = true) /\
  (unit (axis chart) <> MB_per_s ->
   Forall (fun shown : string * list number =>
             Forall (fun y : number => ltb y BYTES_PER_KB = true) (snd shown))
          (plotted chart)).
Proof.
  assert (H : forall (s : Series) (pt : StatDatapoint),
            In s scenario_series -> In pt (data s) ->
            valid (value pt) = true /\ leb zero (value pt) = true).
  { intros s pt [<-|[]] [<-|[<-|[<-|[]]]]; split; reflexivity. }
  split; [reflexivity|]. split; [exact H|].
  apply (unit_keeps_values_readable NetworkIngress None scenario_series
           eq_refl H).
Defined.

Lemma debug_payload_of_rates_witness :
  is_network NetworkIngress = true /\
  exists pts : list StatDatapoint,
    seriesData (fun t : number => t) (Some scenario) NetworkIngress =
      Normal [ {| label := StatType_string NetworkIngress; data := pts |} ] /\
    let logged := Debug.payload pts in
    Debug.max logged =
      maxStatValue
        (allValues (Some pts)
           (Some [ {| label := StatType_string NetworkIngress;
                      data := pts |} ])) /\
    Debug.count logged = List.length scenario /\
    List.length (Debug.points logged) =
      (2 * Nat.min 3 (List.length scenario))%nat /\
    (scenario <> [] ->
     (forall r, In r scenario -> wf_record NetworkIngress r = true) ->
     eqb (Debug.min logged) zero = true).
Proof.
  split; [reflexivity|].
  apply (debug_payload_of_rates (fun t => t) NetworkIngress scenario eq_refl).
Defined.

Lemma nan_value_poisons_axis_witness :
  let series := [ {| label := "Network Egress";
                     data := [ {| date := of_Z 0; value := zero |};
                               {| date := of_Z 1000; value := nan |} ] |} ] in
  scaled_axis NetworkEgress = true /\
  (exists s pt, In s series /\ In pt (data s) /\ is_nan (value pt) = true) /\
  is_nan (maxUnitValue (axis (InnerStatChart NetworkEgress None (Some series))))
  = true /\
  (is_network NetworkEgress = true ->
   unit (axis (InnerStatChart NetworkEgress None (Some series))) = B_per_s /\
   unitDivisor (axis (InnerStatChart NetworkEgress None (Some series)))
   = Num.one).
Proof.
  intros series.
  assert (H : exists s pt, In s series /\ In pt (data s) /\
                           is_nan (value pt) = true).
  { exists {| label := "Network Egress";
              data := [ {| date := of_Z 0; value := zero |};
                        {| date := of_Z 1000; value := nan |} ] |},
           {| date := of_Z 1000; value := nan |}.
    split; [left; reflexivity|]. split; [right; left; reflexivity|reflexivity]. }
  split; [reflexivity|]. split; [exact H|].
  apply (nan_value_poisons_axis NetworkEgress None series eq_refl H).
Defined.

Lemma rate_of_integer_records_witness :
  is_network NetworkIngress = true /\
  nth_error (rev scenario) 0 = Some (sample 0 1000) /\
  nth_error (rev scenario) 1 = Some (sample 1000 3000) /\
  0 <= 3000 < 2 ^ 53 /\ 0 <= 1000 < 2 ^ 53 /\
  0 <= 0 < 2 ^ 53 /\ 0 <= 1000 < 2 ^ 53 /\
  getBytes NetworkIngress (sample 1000 3000) = of_Z 3000 /\
  getBytes NetworkIngress (sample 0 1000) = of_Z 1000 /\
  ts (sample 1000 3000) = of_Z 1000 /\ ts (sample 0 1000) = of_Z 0 /\
  exists pts : list StatDatapoint,
    seriesData (fun t : number => t) (Some scenario) NetworkIngress =
      Normal [ {| label := StatType_string NetworkIngress; data := pts |} ] /\
    nth_error pts 1 =
      Some {| date := ts (sample 1000 3000);
              value := div (of_Z (Z.max 0 (3000 - 1000)))
                           (Num.max Num.one
                              (div (of_Z (1000 - 0)) num_1000)) |} /\
    (forall k, 1 <= k -> 1000 - 0 = 1000 * k ->
       nth_error pts 1 =
         Some {| date := ts (sample 1000 3000);
                 value := div (of_Z (Z.max 0 (3000 - 1000))) (of_Z k) |}).
Proof.
  split; [reflexivity|]. split; [reflexivity|]. split; [reflexivity|].
  do 4 (split; [lia|]).
  do 4 (split; [reflexivity|]).
  apply (rate_of_integer_records (fun t => t) NetworkIngress scenario 0%nat
           (sample 0 1000) (sample 1000 3000) 3000 1000 0 1000);
    first [reflexivity | lia].
Defined.

Lemma percent_monotone_in_used_witness :
  valid (of_Z 8) = true /\
  mem_total_gb (sample 0 0) = of_Z 8 /\
  mem_total_gb half_used = of_Z 8 /\
  valid (mem_used_gb (sample 0 0)) = true /\
  valid (mem_used_gb half_used) = true /\
  leb zero (mem_used_gb (sample 0 0)) = true /\
  leb (mem_used_gb (sample 0 0)) (mem_used_gb half_used) = true /\
  leb zero (getStat (sample 0 0) Memory) = true /\
  leb (getStat (sample 0 0) Memory) (getStat half_used Memory) = true.
Proof.
  do 7 (split; [reflexivity|]).
  apply (percent_monotone_in_used Memory (sample 0 0) half_used
           4503599627370496 (-49) (or_introl eq_refl));
    reflexivity.
Defined.
